(** * Ethereum / Tether extraction pipeline ([src/main.py])

    A shallow embedding of the extraction-and-normalisation pipeline of
    [main.py] and of the report queries built on it, followed by the
    properties of the specification that are settled against it.

    Layout of the embedding:
    - Python values: exceptions as their message, [int] as [Z], [bytes] as
      [list byte], [float] as IEEE binary64 ([spec_float] with
      [prec = 53], [emax = 1024]), [decimal.Decimal] as an unscaled integer
      with a scale;
    - the chain client [w3] as a record of (pure) request functions that
      either answer or raise;
    - Spark tables as lists of records, SQL [NULL] as [None];
    - the two engine built-ins whose value depends on the engine or on the
      session ([ROUND] on doubles, the localised calendar timestamp) as
      section variables. *)

From Stdlib Require Import ZArith List String Ascii Bool Lia QArith.
From Stdlib Require Import SpecFloat DecimalString DecimalZ DecimalPos.
From Stdlib Require Import Permutation Sorted.
Import ListNotations.

Local Open Scope Z_scope.

(* ================================================================== *)
(** * Python values *)
(* ================================================================== *)

(** ** Exceptions

    Every handler of [main.py] only formats the caught exception with
    [{e}], so an exception is modelled by [str(e)]. *)

Inductive result (A : Type) : Type :=
| Ok (a : A)
| Raise (e : string).

Arguments Ok {A} a.
Arguments Raise {A} e.

Definition bind {A B : Type} (c : result A) (k : A -> result B) : result B :=
  match c with
  | Ok a => k a
  | Raise e => Raise e
  end.

Notation "x <- c ;; k" := (bind c (fun x => k))
  (at level 61, c at next level, right associativity).

(** [try: body except Exception as e: handler e] *)
Definition try_except {A : Type} (body : result A) (handler : string -> result A)
  : result A :=
  match body with
  | Ok a => Ok a
  | Raise e => handler e
  end.

Definition is_ok {A : Type} (c : result A) : bool :=
  match c with
  | Ok _ => true
  | Raise _ => false
  end.

(** ** [int]: formatting and [range] *)

(** [str(n)] / [f"{n}"] for an [int]. *)
Definition str_int (n : Z) : string := NilZero.string_of_int (Z.to_int n).

(** [range(a, b)] *)
Definition range (a b : Z) : list Z :=
  map (fun i => a + Z.of_nat i) (seq 0 (Z.to_nat (b - a))).

(** ** [bytes] *)

Definition bytes := list Byte.byte.

Definition byte_val (b : Byte.byte) : Z := Z.of_N (Byte.to_N b).

(** [int.from_bytes(data, byteorder='big')] *)
Definition int_from_bytes_big (data : bytes) : Z :=
  fold_left (fun acc b => acc * 256 + byte_val b) data 0.

Definition hex_digit (n : Z) : ascii :=
  if n <? 10 then ascii_of_N (Z.to_N (48 + n))
  else ascii_of_N (Z.to_N (87 + n)).

Definition hex_byte (b : Byte.byte) : string :=
  String (hex_digit (byte_val b / 16))
    (String (hex_digit (byte_val b mod 16)) EmptyString).

(** [b.hex()]: two lowercase digits per byte, no prefix (line 75 prepends
    ["0x"] itself). *)
Fixpoint hex (b : bytes) : string :=
  match b with
  | [] => EmptyString
  | x :: b' => (hex_byte x ++ hex b')%string
  end.

(** [s[-n:]] on a [str]. *)
Definition last_chars (n : nat) (s : string) : string :=
  let len := String.length s in
  if (n <=? len)%nat then substring (len - n) n s else s.

Definition quote1 : ascii := ascii_of_N 39.
Definition quote2 : ascii := ascii_of_N 34.

Definition has_byte (v : Z) (b : bytes) : bool :=
  existsb (fun x => byte_val x =? v) b.

Definition bytes_repr_char (q : ascii) (x : Byte.byte) : string :=
  let v := byte_val x in
  if v =? 92 then "\\"
  else if v =? 9 then "\t"
  else if v =? 10 then "\n"
  else if v =? 13 then "\r"
  else if Ascii.eqb (ascii_of_N (Z.to_N v)) q then String "\" (String q EmptyString)
  else if (32 <=? v) && (v <? 127) then String (ascii_of_N (Z.to_N v)) EmptyString
  else ("\x" ++ hex_byte x)%string.

(** [str(b)] of a [bytes] object (what [f"{b}"] prints, also for the
    [HexBytes] subclass): the literal [b'...']. *)
Definition str_bytes (b : bytes) : string :=
  let q := if has_byte 39 b && negb (has_byte 34 b) then quote2 else quote1 in
  ("b" ++ String q (concat "" (map (bytes_repr_char q) b)) ++ String q EmptyString)%string.

(** ** [float]: IEEE binary64 *)

Definition float := spec_float.
Definition prec : Z := 53.
Definition emax : Z := 1024.

Definition is_infinite (x : float) : bool :=
  match x with
  | S754_infinity _ => true
  | _ => false
  end.

(** Conversion of an [int] operand to [float] ([PyLong_AsDouble]):
    round to nearest even, [OverflowError] beyond the range. *)
Definition float_of_int (n : Z) : result float :=
  let x := binary_normalize prec emax n 0 false in
  if is_infinite x then Raise "int too large to convert to float" else Ok x.

(** An integer seen as the (unnormalised) binary number [|n| * 2^0]. *)
Definition int_operand (n : Z) : float :=
  match n with
  | Z0 => S754_zero false
  | Zpos p => S754_finite false p 0
  | Zneg p => S754_finite true p 0
  end.

(** [a / b] on two [int]: the correctly rounded quotient. *)
Definition int_truediv (a b : Z) : result float :=
  if b =? 0 then Raise "division by zero"
  else
    let x := SFdiv prec emax (int_operand a) (int_operand b) in
    if is_infinite x
    then Raise "integer division result too large for a float"
    else Ok x.

(** [x * n] for a [float] [x] and an [int] [n]. *)
Definition float_mul_int (x : float) (n : Z) : result float :=
  y <- float_of_int n ;;
  Ok (SFmul prec emax x y).

Definition float_finite (x : float) : bool :=
  match x with
  | S754_zero _ | S754_finite _ _ _ => true
  | _ => false
  end.

(** [x] is a number (not [NaN]) whose sign bit is [s]. *)
Definition float_sign_is (s : bool) (x : float) : bool :=
  match x with
  | S754_zero s' | S754_infinity s' | S754_finite s' _ _ => Bool.eqb s' s
  | S754_nan => false
  end.

(** [0.0 <= x] *)
Definition float_nonneg (x : float) : bool :=
  SFleb (S754_zero false) x.

(** ** [decimal.Decimal] *)

(** The number [unscaled / 10 ^ scale]. *)
Record Decimal : Type := mkDecimal {
  unscaled : Z;
  scale : Z
}.

Definition Decimal_to_Q (d : Decimal) : Q :=
  (inject_Z (unscaled d) / inject_Z (10 ^ scale d))%Q.

(** Integer quotient [n / d] rounded half to even ([ROUND_HALF_EVEN]),
    for [0 < d]. *)
Definition div_half_even (n d : Z) : Z :=
  let q := n / d in
  let r := n mod d in
  if 2 * r <? d then q
  else if d <? 2 * r then q + 1
  else if Z.even q then q else q + 1.

(** Precision of the default [decimal] context. *)
Definition context_prec : Z := 28.

(** [round(x, ndigits)] on a [Decimal]: [x.quantize(Decimal(10) ** -ndigits)]
    in the current context, i.e. half-even, signalling [InvalidOperation]
    when the coefficient of the result needs more than [context_prec]
    digits. *)
Definition round_Decimal (x : Decimal) (ndigits : Z) : result Decimal :=
  let c :=
    if ndigits <=? scale x
    then div_half_even (unscaled x) (10 ^ (scale x - ndigits))
    else unscaled x * 10 ^ (ndigits - scale x) in
  if Z.abs c <? 10 ^ context_prec
  then Ok (mkDecimal c ndigits)
  else Raise "[<class 'decimal.InvalidOperation'>]".

(* ================================================================== *)
(** * The chain client *)
(* ================================================================== *)

Record TxBody : Type := mkTxBody {
  tx_hash : bytes;            (* tx['hash'] *)
  tx_from : string;           (* tx['from'] *)
  tx_to : option string;      (* tx['to'], None for a contract creation *)
  tx_value : Z;               (* tx['value'], wei *)
  tx_gasPrice : Z             (* tx['gasPrice'], wei *)
}.

Record Block : Type := mkBlock {
  b_timestamp : Z;
  b_transactions : list TxBody
}.

Record Receipt : Type := mkReceipt {
  gasUsed : Z
}.

Record LogEntry : Type := mkLogEntry {
  blockNumber : Z;
  topics : list bytes;
  data : bytes;
  transactionHash : bytes
}.

Record FilterParams : Type := mkFilterParams {
  fromBlock : Z;
  toBlock : Z;
  address : string;
  filter_topics : list string
}.

(** [w3.eth] *)
Record Eth : Type := mkEth {
  eth_block_number : result Z;
  get_block : Z -> bool -> result Block;    (* second argument: full_transactions *)
  get_transaction_receipt : bytes -> result Receipt;
  get_logs : FilterParams -> result (list LogEntry)
}.

(** [w3] *)
Record Web3 : Type := mkWeb3 {
  is_connected : bool;
  eth : Eth
}.

Definition MAX_WEI : Z := 2 ^ 256 - 1.

(** [w3.from_wei(number, 'mwei')]: the exact quotient by [10 ** 6]
    (computed by the library as a [Decimal] with 999 digits of precision),
    [0] for [0], [ValueError] outside [0 .. 2**256 - 1]. *)
Definition from_wei_mwei (number : Z) : result Decimal :=
  if number =? 0 then Ok (mkDecimal 0 0)
  else if (number <? 0) || (MAX_WEI <? number)
  then Raise "value must be between 1 and 2**256 - 1"
  else Ok (mkDecimal number 6).

(* ================================================================== *)
(** * [get_transactions] *)
(* ================================================================== *)

Record TransactionRecord : Type := mkTransactionRecord {
  t_block_number : Z;
  t_timestamp : Z;
  t_from_address : string;
  t_to_address : option string;
  t_value : float;
  t_transaction_hash : string;
  t_gas_price : float;
  t_gas_used : Z;
  t_gas_fee : float
}.

Definition wei_to_eth : Z := 10 ^ 18.

(** Lines 36-51: the body of the [try] of the transaction loop, up to the
    record that is appended. *)
Definition transaction_record (w3 : Web3) (block_number : Z) (block : Block)
    (tx : TxBody) : result TransactionRecord :=
  tx_receipt <- get_transaction_receipt (eth w3) (tx_hash tx) ;;
  gas_price <- int_truediv (tx_gasPrice tx) wei_to_eth ;;
  let gas_used := gasUsed tx_receipt in
  gas_fee <- float_mul_int gas_price gas_used ;;
  value <- int_truediv (tx_value tx) wei_to_eth ;;
  Ok {| t_block_number := block_number;
        t_timestamp := b_timestamp block;
        t_from_address := tx_from tx;
        t_to_address := tx_to tx;
        t_value := value;
        t_transaction_hash := hex (tx_hash tx);
        t_gas_price := gas_price;
        t_gas_used := gas_used;
        t_gas_fee := gas_fee |}.

Definition tx_error (block_number : Z) (e : string) : string :=
  ("Error fetching block transactions for block " ++ str_int block_number ++ ": " ++ e)%string.

Definition block_error (block_number : Z) (e : string) : string :=
  ("Error fetching block " ++ str_int block_number ++ ": " ++ e)%string.

(** Lines 34-53: [for tx in block.transactions], threading the list
    [transactions] that the loop appends to. *)
Fixpoint transactions_loop (w3 : Web3) (block_number : Z) (block : Block)
    (txs : list TxBody) (transactions : list TransactionRecord)
  : result (list TransactionRecord) :=
  match txs with
  | [] => Ok transactions
  | tx :: txs' =>
      transactions' <-
        try_except
          (r <- transaction_record w3 block_number block tx ;;
           Ok (transactions ++ [r]))
          (fun e => Raise (tx_error block_number e)) ;;
      transactions_loop w3 block_number block txs' transactions'
  end.

(** Lines 28-53: [for block_number in range(from_block, latest_block + 1)]. *)
Fixpoint blocks_loop (w3 : Web3) (block_numbers : list Z)
    (transactions : list TransactionRecord) : result (list TransactionRecord) :=
  match block_numbers with
  | [] => Ok transactions
  | block_number :: rest =>
      block <-
        try_except (get_block (eth w3) block_number true)
          (fun e => Raise (block_error block_number e)) ;;
      transactions' <-
        transactions_loop w3 block_number block (b_transactions block) transactions ;;
      blocks_loop w3 rest transactions'
  end.

(** The rows handed to [spark.createDataFrame(transactions, schema_block)]. *)
Definition get_transactions (w3 : Web3) (from_block latest_block : Z)
  : result (list TransactionRecord) :=
  blocks_loop w3 (range from_block (latest_block + 1)) [].

(* ================================================================== *)
(** * [get_logs_tether] *)
(* ================================================================== *)

Record TransferLogRecord : Type := mkTransferLogRecord {
  l_block_number : Z;
  l_timestamp : Z;
  l_from_address : string;
  l_to_address : string;
  l_value_usdt : Decimal;     (* held by the column DecimalType(38, 2) *)
  l_transaction_hash : string
}.

(** [w3.to_checksum_address("0xdAC1...")]: the literal is already in
    checksum form. *)
Definition contract_address : string :=
  "0xdAC17F958D2ee523a2206206994597C13D831ec7".

(** ["0x" + Web3.keccak(text="Transfer(address,address,uint256)").hex()] *)
Definition transfer_event_signature : string :=
  "0xddf252ad1be2c89b69c2b068fc378daa952ba7f163c4a11628f55a4df523b3ef".

Definition filter_params (from_block latest_block : Z) : FilterParams :=
  {| fromBlock := from_block;
     toBlock := latest_block;
     address := contract_address;
     filter_topics := [transfer_event_signature] |}.

(** [l[i]] on a Python list. *)
Definition list_index {A : Type} (l : list A) (i : nat) : result A :=
  match nth_error l i with
  | Some x => Ok x
  | None => Raise "list index out of range"
  end.

(** Lines 94-95: [Decimal(str(round(w3.from_wei(value_in_wei, 'mwei'), 2)))];
    printing a [Decimal] and reading it back is the identity. *)
Definition value_usdt_decimal (value_in_wei : Z) : result Decimal :=
  x <- from_wei_mwei value_in_wei ;;
  value_usdt <- round_Decimal x 2 ;;
  Ok value_usdt.

(** ["0x" + topic.hex()[-40:]] *)
Definition topic_address (topic : bytes) : string :=
  ("0x" ++ last_chars 40 (hex topic))%string.

(** Lines 93-105: the body of the [try] of the log loop. *)
Definition transfer_log_record (w3 : Web3) (log : LogEntry)
  : result TransferLogRecord :=
  let value_in_wei := int_from_bytes_big (data log) in
  value_usdt_decimal <- value_usdt_decimal value_in_wei ;;
  block_info <- get_block (eth w3) (blockNumber log) false ;;
  let block_timestamp := b_timestamp block_info in
  topic1 <- list_index (topics log) 1 ;;
  topic2 <- list_index (topics log) 2 ;;
  Ok {| l_block_number := blockNumber log;
        l_timestamp := block_timestamp;
        l_from_address := topic_address topic1;
        l_to_address := topic_address topic2;
        l_value_usdt := value_usdt_decimal;
        l_transaction_hash := hex (transactionHash log) |}.

Definition log_error (log : LogEntry) (e : string) : string :=
  ("Error processing log " ++ str_bytes (transactionHash log) ++ ": " ++ e)%string.

(** Lines 91-109: [for log in logs]. *)
Fixpoint logs_loop (w3 : Web3) (logs : list LogEntry)
    (logs_tether : list TransferLogRecord) : result (list TransferLogRecord) :=
  match logs with
  | [] => Ok logs_tether
  | log :: logs' =>
      logs_tether' <-
        try_except
          (r <- transfer_log_record w3 log ;;
           Ok (logs_tether ++ [r]))
          (fun e => Raise (log_error log e)) ;;
      logs_loop w3 logs' logs_tether'
  end.

(** The rows handed to [spark.createDataFrame(logs_tether, schema_logs)]. *)
Definition get_logs_tether (w3 : Web3) (from_block latest_block : Z)
  : result (list TransferLogRecord) :=
  logs <-
    try_except (get_logs (eth w3) (filter_params from_block latest_block))
      (fun e => Raise ("Error fetching logs: " ++ e)%string) ;;
  logs_loop w3 logs [].

(* ================================================================== *)
(** * SQL building blocks *)
(* ================================================================== *)

(** ** [ORDER BY]

    [before a b] says that [a] may stay in front of [b]. The result is
    sorted by [before]; the query fixes nothing about the order of rows
    that may stay in front of one another, and the insertion sort below is
    one admissible order among them. The statements about ordered queries
    rely on the sort key only. *)

Section OrderBy.

Context {A : Type}.
Variable before : A -> A -> bool.

Fixpoint insert_row (a : A) (sorted : list A) : list A :=
  match sorted with
  | [] => [a]
  | b :: sorted' =>
      if before a b then a :: b :: sorted' else b :: insert_row a sorted'
  end.

Fixpoint order_by (rows : list A) : list A :=
  match rows with
  | [] => []
  | a :: rows' => insert_row a (order_by rows')
  end.

End OrderBy.

(** Ordering of [DOUBLE] values in the engine: a total order in which
    [NaN] is the greatest value and equal to itself. *)
Definition double_compare (x y : float) : comparison :=
  match x, y with
  | S754_nan, S754_nan => Eq
  | S754_nan, _ => Gt
  | _, S754_nan => Lt
  | _, _ =>
      match SFcompare x y with
      | Some c => c
      | None => Eq
      end
  end.

(** [ORDER BY key DESC] on a [DOUBLE] key. *)
Definition desc {A : Type} (key : A -> float) (a b : A) : bool :=
  match double_compare (key a) (key b) with
  | Lt => false
  | _ => true
  end.

(** ** Three-valued conditions *)

Definition sql_bool := option bool.

Definition sql_eq (a : option string) (lit : string) : sql_bool :=
  option_map (fun s => String.eqb s lit) a.

Definition sql_neq (a : option string) (lit : string) : sql_bool :=
  option_map (fun s => negb (String.eqb s lit)) a.

Definition sql_and (p q : sql_bool) : sql_bool :=
  match p, q with
  | Some false, _ | _, Some false => Some false
  | Some true, Some true => Some true
  | _, _ => None
  end.

(** A [WHERE] clause keeps the rows whose condition is true. *)
Definition where_ {A : Type} (cond : A -> sql_bool) (rows : list A) : list A :=
  filter (fun r => match cond r with Some true => true | _ => false end) rows.

Definition is_not_null {A : Type} (a : option A) : bool :=
  match a with
  | Some _ => true
  | None => false
  end.

(** [LAG(x) OVER (...)] along rows already in window order. *)
Fixpoint lag {A : Type} (prev : option A) (xs : list A) : list (option A) :=
  match xs with
  | [] => []
  | x :: xs' => prev :: lag (Some x) xs'
  end.

(** [COALESCE(a - b, 0)] with [a] not null. *)
Definition coalesce_diff (a : Z) (b : option Z) : Z :=
  match b with
  | Some b' => a - b'
  | None => 0
  end.

(* ================================================================== *)
(** * The unified dataset (lines 428-457) *)
(* ================================================================== *)

Record UnifiedRow : Type := mkUnifiedRow {
  block_number : Z;
  unix_timestamp : Z;
  timestamp : Z;
  transaction_hash : string;
  tx_from_address : string;
  tx_to_address : option string;
  tx_value_eth : float;
  tx_gas_price_eth : float;
  tx_gas_used : Z;
  tx_gas_fee_eth : float;
  log_from_address : option string;
  log_to_address : option string;
  log_value_usdt : option Decimal
}.

(** [WHERE log_value_usdt IS NOT NULL] *)
Definition df_logs_tether_clean (df_transactions_complete : list UnifiedRow)
  : list UnifiedRow :=
  filter (fun r => is_not_null (log_value_usdt r)) df_transactions_complete.

(** The three token-side columns of a row. *)
Definition token_fields_null (r : UnifiedRow) : bool :=
  negb (is_not_null (log_from_address r))
  && negb (is_not_null (log_to_address r))
  && negb (is_not_null (log_value_usdt r)).

Definition token_fields_not_null (r : UnifiedRow) : bool :=
  is_not_null (log_from_address r)
  && is_not_null (log_to_address r)
  && is_not_null (log_value_usdt r).

Section Engine.

(** [ROUND(x, d)] on a [DOUBLE]. *)
Variable ROUND : float -> Z -> float.

(** [from_utc_timestamp(FROM_UNIXTIME(ts), 'Europe/Madrid')]: depends on the
    time zone of the session. *)
Variable local_timestamp : Z -> Z.

(** The [ON] condition of the join. *)
Definition on_condition (t : TransactionRecord) (l : TransferLogRecord) : bool :=
  String.eqb (t_transaction_hash t) (l_transaction_hash l)
  && (t_block_number t =? l_block_number l)
  && (t_timestamp t =? l_timestamp l).

(** The [SELECT] list of the join; [l = None] is the null-extended row. *)
Definition select_unified (t : TransactionRecord) (l : option TransferLogRecord)
  : UnifiedRow :=
  {| block_number := t_block_number t;
     unix_timestamp := t_timestamp t;
     timestamp := local_timestamp (t_timestamp t);
     transaction_hash := t_transaction_hash t;
     tx_from_address := t_from_address t;
     tx_to_address := t_to_address t;
     tx_value_eth := ROUND (t_value t) 2;
     tx_gas_price_eth := ROUND (t_gas_price t) 12;
     tx_gas_used := t_gas_used t;
     tx_gas_fee_eth := ROUND (t_gas_fee t) 12;
     log_from_address := option_map l_from_address l;
     log_to_address := option_map l_to_address l;
     log_value_usdt := option_map l_value_usdt l |}.

(** Rows of [transactions AS t LEFT JOIN logs_tether AS l ON ...] that come
    from one row [t]. The view is a bag of rows: the order in which the
    lists below enumerate it is one admissible order, and the statements
    about the views speak of their rows, not of their positions. *)
Definition left_join_rows (t : TransactionRecord) (logs_tether : list TransferLogRecord)
  : list UnifiedRow :=
  match filter (on_condition t) logs_tether with
  | [] => [select_unified t None]
  | matches => map (fun l => select_unified t (Some l)) matches
  end.

Definition df_transactions_complete (transactions : list TransactionRecord)
    (logs_tether : list TransferLogRecord) : list UnifiedRow :=
  flat_map (fun t => left_join_rows t logs_tether) transactions.

End Engine.

(* ================================================================== *)
(** * [transactions_queries] *)
(* ================================================================== *)

(** [SELECT COUNT( * ) FROM df_transactions_complete] *)
Definition total_transactions (df : list UnifiedRow) : Z :=
  Z.of_nat (List.length df).

(** Rows kept by [ORDER BY tx_value_eth DESC LIMIT 10] (lines 143-145). *)
Definition tx_value_eth_top_10_rows (df : list UnifiedRow) : list UnifiedRow :=
  firstn 10 (order_by (desc tx_value_eth) df).

Definition Top10Row : Type := Z * Z * string * string * option string * float.

(** Lines 135-146, with the [SELECT] list applied. *)
Definition tx_value_eth_top_10 (df : list UnifiedRow) : list Top10Row :=
  map (fun r =>
         (block_number r, timestamp r, transaction_hash r,
          tx_from_address r, tx_to_address r, tx_value_eth r))
      (tx_value_eth_top_10_rows df).

(** ** Time between blocks (lines 231-272) *)

Record GroupedRow : Type := mkGroupedRow {
  g_block_number : Z;
  g_timestamp : Z;
  g_unix_timestamp : Z      (* MAX(unix_timestamp) of the group *)
}.

Definition same_group (r : UnifiedRow) (g : GroupedRow) : bool :=
  (block_number r =? g_block_number g) && (timestamp r =? g_timestamp g).

(** One more row enters the aggregation
    [MAX(unix_timestamp) ... GROUP BY block_number, timestamp]. *)
Fixpoint add_to_groups (r : UnifiedRow) (groups : list GroupedRow) : list GroupedRow :=
  match groups with
  | [] => [mkGroupedRow (block_number r) (timestamp r) (unix_timestamp r)]
  | g :: groups' =>
      if same_group r g
      then mkGroupedRow (g_block_number g) (g_timestamp g)
             (Z.max (g_unix_timestamp g) (unix_timestamp r)) :: groups'
      else g :: add_to_groups r groups'
  end.

Definition group_by_block (df : list UnifiedRow) : list GroupedRow :=
  fold_left (fun groups r => add_to_groups r groups) df [].

(** [ORDER BY block_number, timestamp] *)
Definition by_block_timestamp (a b : GroupedRow) : bool :=
  (g_block_number a <? g_block_number b)
  || ((g_block_number a =? g_block_number b) && (g_timestamp a <=? g_timestamp b)).

(** [OVER (ORDER BY block_number)] *)
Definition by_block (a b : GroupedRow) : bool :=
  g_block_number a <=? g_block_number b.

Definition grouped_data (df : list UnifiedRow) : list GroupedRow :=
  order_by by_block_timestamp (group_by_block df).

Record BlockTime : Type := mkBlockTime {
  bt_block_number : Z;
  bt_timestamp : Z;
  bt_unix_timestamp : Z;
  bt_unix_prev_timestamp : option Z;
  time_diff_in_seconds : Z
}.

Definition timediff_data (df : list UnifiedRow) : list (GroupedRow * option Z) :=
  let window := order_by by_block (grouped_data df) in
  combine window (lag None (map g_unix_timestamp window)).

Definition time_between_blocks (df : list UnifiedRow) : list BlockTime :=
  map (fun gp : GroupedRow * option Z =>
         let (g, unix_prev_timestamp) := gp in
         {| bt_block_number := g_block_number g;
            bt_timestamp := g_timestamp g;
            bt_unix_timestamp := g_unix_timestamp g;
            bt_unix_prev_timestamp := unix_prev_timestamp;
            time_diff_in_seconds :=
              coalesce_diff (g_unix_timestamp g) unix_prev_timestamp |})
      (timediff_data df).

(** [FROM block_times WHERE time_diff_in_seconds > 12], before the
    [SELECT] list. *)
Definition block_times_monitoring_rows (block_times : list BlockTime) : list BlockTime :=
  filter (fun r => 12 <? time_diff_in_seconds r) block_times.

Definition block_times_monitoring (block_times : list BlockTime)
  : list (Z * Z * Z * option Z) :=
  map (fun r => (bt_block_number r, bt_timestamp r, bt_unix_timestamp r,
                 bt_unix_prev_timestamp r))
      (block_times_monitoring_rows block_times).

(* ================================================================== *)
(** * [tether_queries] *)
(* ================================================================== *)

Definition erc_20_total_transactions (df_clean : list UnifiedRow) : Z :=
  Z.of_nat (List.length df_clean).

Definition zero_address : string :=
  "0x0000000000000000000000000000000000000000".

(** The [WHERE] condition of lines 394-395. *)
Definition burning_condition (r : UnifiedRow) : sql_bool :=
  sql_and (sql_eq (log_to_address r) zero_address)
          (sql_neq (log_from_address r) zero_address).

(** Lines 391-396: [SELECT COUNT( * ) ... WHERE ...]. *)
Definition burning (df_clean : list UnifiedRow) : Z :=
  Z.of_nat (List.length (where_ burning_condition df_clean)).

(* ================================================================== *)
(** * The counting queries of the report *)
(* ================================================================== *)

(** ** [COUNT( * ) ... GROUP BY key]

    The aggregation keeps one pair (key, count) per key met; a NULL key is
    a key like any other (all NULLs fall in one group). *)

Section GroupCount.

Context {K : Type}.
Variable key_eqb : K -> K -> bool.

Fixpoint count_into (k : K) (groups : list (K * Z)) : list (K * Z) :=
  match groups with
  | [] => [(k, 1)]
  | (k', n) :: groups' =>
      if key_eqb k k' then (k', n + 1) :: groups'
      else (k', n) :: count_into k groups'
  end.

Definition group_count {A : Type} (key : A -> K) (rows : list A) : list (K * Z) :=
  fold_left (fun groups r => count_into (key r) groups) rows [].

(** Number of rows whose key is [k]. *)
Definition occurrences {A : Type} (key : A -> K) (k : K) (rows : list A) : Z :=
  Z.of_nat (List.length (filter (fun r => key_eqb (key r) k) rows)).

End GroupCount.

(** [ORDER BY n_transactions DESC] *)
Definition count_desc {K : Type} (a b : K * Z) : bool := snd b <=? snd a.

(** [HAVING n_transactions > 1] *)
Definition having_repeated {K : Type} (g : K * Z) : bool := 1 <? snd g.

Definition option_eqb {A : Type} (eqb : A -> A -> bool) (a b : option A) : bool :=
  match a, b with
  | Some x, Some y => eqb x y
  | None, None => true
  | _, _ => false
  end.

(** ** [transactions_queries] *)

(** Lines 151-158. *)
Definition duplicated_transaction_hash (df : list UnifiedRow) : list (string * Z) :=
  firstn 10
    (order_by count_desc
       (filter having_repeated (group_count String.eqb transaction_hash df))).

(** Lines 163-169. *)
Definition activity_peaks_top_10 (df : list UnifiedRow) : list (Z * Z) :=
  firstn 10 (order_by count_desc (group_count Z.eqb timestamp df)).

(** Rows kept by [ORDER BY tx_gas_fee_eth DESC LIMIT 10] (lines 181-183). *)
Definition gas_fee_top_10_rows (df : list UnifiedRow) : list UnifiedRow :=
  firstn 10 (order_by (desc tx_gas_fee_eth) df).

(** Lines 174-184, with the [SELECT] list applied. *)
Definition gas_fee_top_10 (df : list UnifiedRow)
  : list (string * float * float * Z * float) :=
  map (fun r => (transaction_hash r, tx_value_eth r, tx_gas_price_eth r,
                 tx_gas_used r, tx_gas_fee_eth r))
      (gas_fee_top_10_rows df).

(** The watch list of lines 198-202 and 218-222. *)
Definition mixers : list string :=
  ["0x5f4b5e8e6894e7b94b9b0d7b28b8011c18c04e1d";
   "0x8fa7a7e8f79d3de88f8f3cfe69325425f94c12cf";
   "0x0e83c9f1ec5f9d7a028b963907f490b30709d12c";
   "0x9d1f522d5869c9b7ad864a29eb6e9f57a170d049";
   "0x39ccecc9ebcc4ad3132a99893b28d7c890810149"]%string.

(** [a IN (literals)], the literals being non-null. *)
Definition sql_in (a : option string) (literals : list string) : sql_bool :=
  option_map (fun s => existsb (String.eqb s) literals) a.

(** Lines 191-206. *)
Definition mixers_use_from (df : list UnifiedRow) : list (string * Z) :=
  order_by count_desc
    (group_count String.eqb tx_from_address
       (where_ (fun r => sql_in (Some (tx_from_address r)) mixers) df)).

(** Lines 211-226. *)
Definition mixers_use_to (df : list UnifiedRow) : list (option string * Z) :=
  order_by count_desc
    (group_count (option_eqb String.eqb) tx_to_address
       (where_ (fun r => sql_in (tx_to_address r) mixers) df)).

(** Lines 275-283. *)
Definition from_address_freq (df : list UnifiedRow) : list (string * Z) :=
  firstn 10
    (order_by count_desc
       (filter having_repeated (group_count String.eqb tx_from_address df))).

(** Lines 288-296. *)
Definition to_address_freq (df : list UnifiedRow) : list (option string * Z) :=
  firstn 10
    (order_by count_desc
       (filter having_repeated
          (group_count (option_eqb String.eqb) tx_to_address df))).

(** ** [tether_queries] *)

(** [ORDER BY log_value_usdt DESC]: greater values first, NULLs last. *)
Definition usdt_desc (a b : UnifiedRow) : bool :=
  match log_value_usdt a, log_value_usdt b with
  | Some x, Some y => Qle_bool (Decimal_to_Q y) (Decimal_to_Q x)
  | Some _, None => true
  | None, Some _ => false
  | None, None => true
  end.

(** Rows kept by [ORDER BY log_value_usdt DESC LIMIT 10] (lines 323-325). *)
Definition log_value_top_10_rows (df_clean : list UnifiedRow) : list UnifiedRow :=
  firstn 10 (order_by usdt_desc df_clean).

(** Lines 315-326, with the [SELECT] list applied. *)
Definition log_value_top_10 (df_clean : list UnifiedRow)
  : list (Z * Z * string * option string * option string * option Decimal) :=
  map (fun r => (block_number r, timestamp r, transaction_hash r,
                 log_from_address r, log_to_address r, log_value_usdt r))
      (log_value_top_10_rows df_clean).

(** Lines 331-337. *)
Definition log_activity_peaks_top_10 (df_clean : list UnifiedRow) : list (Z * Z) :=
  firstn 10 (order_by count_desc (group_count Z.eqb timestamp df_clean)).

(** Lines 342-350. *)
Definition log_from_address_freq (df_clean : list UnifiedRow)
  : list (option string * Z) :=
  firstn 10
    (order_by count_desc
       (filter having_repeated
          (group_count (option_eqb String.eqb) log_from_address df_clean))).

(** Lines 355-363. *)
Definition log_to_address_freq (df_clean : list UnifiedRow)
  : list (option string * Z) :=
  firstn 10
    (order_by count_desc
       (filter having_repeated
          (group_count (option_eqb String.eqb) log_to_address df_clean))).

(* ================================================================== *)
(** * [main] *)
(* ================================================================== *)

(** What a run hands to the report: the two views and the result tables of
    the queries studied below (the other queries of the battery read the
    same two views and are not needed here). *)
Record Report : Type := mkReport {
  rep_transactions : list TransactionRecord;
  rep_logs_tether : list TransferLogRecord;
  rep_complete : list UnifiedRow;
  rep_clean : list UnifiedRow;
  rep_total_transactions : Z;
  rep_tx_value_eth_top_10 : list Top10Row;
  rep_time_between_blocks : list BlockTime;
  rep_block_times_monitoring : list (Z * Z * Z * option Z);
  rep_erc_20_total_transactions : Z;
  rep_burning : Z
}.

Definition newline : string := String (ascii_of_N 10) EmptyString.

(** The arguments of the two [print] calls of lines 411 and 413. *)
Definition connected_line : string := ("✅ Connected to Ethereum" ++ newline)%string.
Definition failed_line : string := ("❌ Connection failed" ++ newline)%string.

Section Main.

Variable ROUND : float -> Z -> float.
Variable local_timestamp : Z -> Z.

(** Lines 416-471: everything after the connectivity check. *)
Definition run (w3 : Web3) : result Report :=
  latest_block <- eth_block_number (eth w3) ;;
  let from_block := latest_block - 9 in
  df_transactions <- get_transactions w3 from_block latest_block ;;
  df_logs_tether <- get_logs_tether w3 from_block latest_block ;;
  let complete := df_transactions_complete ROUND local_timestamp df_transactions df_logs_tether in
  let clean := df_logs_tether_clean complete in
  let block_times := time_between_blocks complete in
  Ok {| rep_transactions := df_transactions;
        rep_logs_tether := df_logs_tether;
        rep_complete := complete;
        rep_clean := clean;
        rep_total_transactions := total_transactions complete;
        rep_tx_value_eth_top_10 := tx_value_eth_top_10 complete;
        rep_time_between_blocks := block_times;
        rep_block_times_monitoring := block_times_monitoring block_times;
        rep_erc_20_total_transactions := erc_20_total_transactions clean;
        rep_burning := burning clean |}.

(** Lines 408-473. The first component is what lines 410-413 print, the
    second the outcome of the rest of the run (an uncaught exception ends
    the process). *)
Definition main (w3 : Web3) : list string * result Report :=
  let printed :=
    if is_connected w3 then [connected_line] else [failed_line] in
  (printed, run w3).

End Main.

(* ================================================================== *)
(** * Statements about failures of the extraction *)
(* ================================================================== *)

(** Some fetch needed for block [n] fails: the block itself, or the
    receipt of one of its transactions. *)
Definition fetch_fails_in (w3 : Web3) (n : Z) : Prop :=
  (exists e, get_block (eth w3) n true = Raise e)
  \/ (exists block tx e,
        get_block (eth w3) n true = Ok block
        /\ In tx (b_transactions block)
        /\ get_transaction_receipt (eth w3) (tx_hash tx) = Raise e).

(** The message [k] reports a failure that really happened while block [m]
    was processed, with cause [e]. *)
Definition reports_failure (w3 : Web3) (k : string) (m : Z) (e : string) : Prop :=
  (k = block_error m e /\ get_block (eth w3) m true = Raise e)
  \/ (k = tx_error m e
      /\ exists block tx,
           get_block (eth w3) m true = Ok block
           /\ In tx (b_transactions block)
           /\ transaction_record w3 m block tx = Raise e).

(** Reading the block number back from an error message: the first run of
    digits (with a possible sign) of the message. *)
Definition is_num (c : ascii) : bool :=
  let n := N_of_ascii c in
  (((48 <=? n) && (n <=? 57)) || (n =? 45))%N.

Fixpoint skip_text (s : string) : string :=
  match s with
  | EmptyString => EmptyString
  | String c s' => if is_num c then s else skip_text s'
  end.

Fixpoint take_num (s : string) : string :=
  match s with
  | EmptyString => EmptyString
  | String c s' => if is_num c then String c (take_num s') else EmptyString
  end.

Fixpoint all_num (s : string) : bool :=
  match s with
  | EmptyString => true
  | String c s' => is_num c && all_num s'
  end.

Definition block_of_error (k : string) : option Z :=
  option_map Z.of_int (NilZero.int_of_string (take_num (skip_text k))).

(** Block [m] was fetched and each of its transactions gave a record. *)
Definition block_extracted (w3 : Web3) (m : Z) : Prop :=
  exists block,
    get_block (eth w3) m true = Ok block
    /\ forall tx, In tx (b_transactions block) ->
                  exists r, transaction_record w3 m block tx = Ok r.

(** The receipt of [tx] is the first fetch that fails in [block]. *)
Definition receipt_failure (w3 : Web3) (block : Block) (tx : TxBody) : Prop :=
  exists pre post e,
    b_transactions block = pre ++ tx :: post
    /\ Forall (fun t => is_ok (get_transaction_receipt (eth w3) (tx_hash t)) = true) pre
    /\ get_transaction_receipt (eth w3) (tx_hash tx) = Raise e.

(** "The raised error identifies the failing transaction": the hash of the
    transaction whose receipt could not be fetched can be read off the
    error (stated for a range of one block). *)
Definition error_identifies_transaction : Prop :=
  exists failing_tx : string -> bytes,
    forall w3 n block tx k,
      get_block (eth w3) n true = Ok block ->
      receipt_failure w3 block tx ->
      get_transactions w3 n n = Raise k ->
      failing_tx k = tx_hash tx.

(* ================================================================== *)
(** * Concrete scenarios *)
(* ================================================================== *)

(** A reference [ROUND] for the scenarios: the value times [10^d] rounded
    half-up (on the exact binary value) to an integer [k], then the double
    nearest to [k / 10^d]. *)
Definition half_up_ROUND (x : float) (d : Z) : float :=
  match x with
  | S754_finite s m e =>
      let n := Zpos m * 10 ^ d in
      let k := if 0 <=? e then n * 2 ^ e else (2 * n + 2 ^ (- e)) / (2 * 2 ^ (- e)) in
      match SFdiv prec emax (int_operand k) (int_operand (10 ^ d)) with
      | S754_zero _ => S754_zero s
      | S754_finite _ m' e' => S754_finite s m' e'
      | y => y
      end
  | _ => x
  end.

(** A reference localisation for the scenarios: UTC+1. *)
Definition cet_timestamp (ts : Z) : Z := ts + 3600.

Definition no_logs (_ : FilterParams) : result (list LogEntry) := Ok [].

Definition tx_a : TxBody :=
  {| tx_hash := [Byte.x0a]; tx_from := "0xaa"; tx_to := Some "0xbb"%string;
     tx_value := 1001 * 10 ^ 15; tx_gasPrice := 3 * 10 ^ 9 |}.

Definition tx_b : TxBody :=
  {| tx_hash := [Byte.x0b]; tx_from := "0xcc"; tx_to := None;
     tx_value := 1004 * 10 ^ 15; tx_gasPrice := 5 * 10 ^ 9 |}.

Definition block_7 : Block :=
  {| b_timestamp := 1700000000; b_transactions := [tx_a; tx_b] |}.

Definition blocks_7 (n : Z) (full : bool) : result Block :=
  if n =? 7 then Ok block_7 else Raise "block not found".

(** A client whose block 7 holds [tx_a] and [tx_b]; every receipt is
    available. *)
Definition eth_ok : Eth :=
  {| eth_block_number := Ok 7;
     get_block := blocks_7;
     get_transaction_receipt := fun _ => Ok (mkReceipt 21000);
     get_logs := no_logs |}.

(** A client on which all of the last ten blocks can be read: block 7 as
    above, empty blocks before it, and one transfer log. *)
Definition eth_window : Eth :=
  {| eth_block_number := Ok 7;
     get_block := fun n full =>
       if n =? 7 then Ok block_7 else Ok (mkBlock (1700000000 - 12 * (7 - n)) []);
     get_transaction_receipt := fun _ => Ok (mkReceipt 21000);
     get_logs := fun _ =>
       Ok [{| blockNumber := 7;
              topics := [repeat Byte.xdd 32;
                         repeat Byte.x00 12 ++ repeat Byte.xaa 20;
                         repeat Byte.x00 32];
              data := repeat Byte.x00 31 ++ [Byte.x01];
              transactionHash := [Byte.x0a] |}] |}.

(** The same chain, but the receipt of [tx_a] times out. *)
Definition eth_fail_a : Eth :=
  {| eth_block_number := Ok 7;
     get_block := blocks_7;
     get_transaction_receipt := fun h =>
       if (int_from_bytes_big h =? 10) then Raise "timeout" else Ok (mkReceipt 21000);
     get_logs := no_logs |}.

(** The same chain, but the receipt of [tx_b] times out. *)
Definition eth_fail_b : Eth :=
  {| eth_block_number := Ok 7;
     get_block := blocks_7;
     get_transaction_receipt := fun h =>
       if (int_from_bytes_big h =? 11) then Raise "timeout" else Ok (mkReceipt 21000);
     get_logs := no_logs |}.

(** The records extracted from block 7 of [eth_ok]. *)
Definition record_a : TransactionRecord :=
  {| t_block_number := 7;
     t_timestamp := 1700000000;
     t_from_address := "0xaa";
     t_to_address := Some "0xbb"%string;
     t_value := S754_finite false 4508103226997866 (-52);
     t_transaction_hash := "0a";
     t_gas_price := S754_finite false 7253554917687775 (-81);
     t_gas_used := 21000;
     t_gas_fee := S754_finite false 4648579506574807 (-66) |}.

Definition record_b : TransactionRecord :=
  {| t_block_number := 7;
     t_timestamp := 1700000000;
     t_from_address := "0xcc";
     t_to_address := None;
     t_value := S754_finite false 4521614025879978 (-52);
     t_transaction_hash := "0b";
     t_gas_price := S754_finite false 6044629098073146 (-80);
     t_gas_used := 21000;
     t_gas_fee := S754_finite false 7747632510958012 (-66) |}.

(** A transfer of one base unit (0.000001 USDT) from [0xaa..aa] to the
    zero address, logged in block 7 by the transaction [tx_a]. *)
Definition topic_of (b : Byte.byte) : bytes := repeat Byte.x00 12 ++ repeat b 20.

Definition log_dust : LogEntry :=
  {| blockNumber := 7;
     topics := [repeat Byte.xdd 32; topic_of Byte.xaa; topic_of Byte.x00];
     data := repeat Byte.x00 31 ++ [Byte.x01];
     transactionHash := [Byte.x0a] |}.

Definition record_dust : TransferLogRecord :=
  {| l_block_number := 7;
     l_timestamp := 1700000000;
     l_from_address := "0xaaaaaaaaaaaaaaaaaaaaaaaaaaaaaaaaaaaaaaaa";
     l_to_address := "0x0000000000000000000000000000000000000000";
     l_value_usdt := mkDecimal 0 2;
     l_transaction_hash := "0a" |}.


(** "Receiver is the all-zero address and sender is not." *)
Definition is_burn (r : UnifiedRow) : bool :=
  match log_to_address r, log_from_address r with
  | Some receiver, Some sender =>
      String.eqb receiver zero_address && negb (String.eqb sender zero_address)
  | _, _ => false
  end.

Definition with_hash (h : string) (t : TransactionRecord) : TransactionRecord :=
  {| t_block_number := t_block_number t;
     t_timestamp := t_timestamp t;
     t_from_address := t_from_address t;
     t_to_address := t_to_address t;
     t_value := t_value t;
     t_transaction_hash := h;
     t_gas_price := t_gas_price t;
     t_gas_used := t_gas_used t;
     t_gas_fee := t_gas_fee t |}.

(** Ten transfers of 1.001 ETH followed by one of 1.004 ETH. *)
Definition eleven_transactions : list TransactionRecord :=
  map (fun h => with_hash h record_a)
      ["01"; "02"; "03"; "04"; "05"; "06"; "07"; "08"; "09"; "0a"]%string
  ++ [record_b].

Definition eleven_rows : list UnifiedRow :=
  df_transactions_complete half_up_ROUND cet_timestamp eleven_transactions [].

Definition with_value (v : float) (t : TransactionRecord) : TransactionRecord :=
  {| t_block_number := t_block_number t;
     t_timestamp := t_timestamp t;
     t_from_address := t_from_address t;
     t_to_address := t_to_address t;
     t_value := v;
     t_transaction_hash := t_transaction_hash t;
     t_gas_price := t_gas_price t;
     t_gas_used := t_gas_used t;
     t_gas_fee := t_gas_fee t |}.

Definition eleven_hashes : list string :=
  ["01"; "02"; "03"; "04"; "05"; "06"; "07"; "08"; "09"; "0a"; "0b"]%string.

(** Eleven transfers like [record_a], one per hash of [eleven_hashes]: the
    one whose hash is [h] moves 1.004 ETH, each of the other ten 1.001 ETH. *)
Definition greatest_at (h : string) : list TransactionRecord :=
  map (fun h' =>
         with_hash h'
           (if String.eqb h' h then with_value (t_value record_b) record_a
            else record_a))
      eleven_hashes.

(** The unified view of [greatest_at h], without transfer logs. *)
Definition view_of (h : string) : list UnifiedRow :=
  df_transactions_complete half_up_ROUND cet_timestamp (greatest_at h) [].

(** The [transaction_hash] column of a result of the top-10 query. *)
Definition top_10_hashes (rows : list Top10Row) : list string :=
  map (fun row : Top10Row => snd (fst (fst (fst row)))) rows.

(** [groups] is the aggregation of the rows [seen]: one group per pair
    (block_number, timestamp) met, holding the greatest epoch timestamp of
    the rows of that pair. *)
Definition group_key (g : GroupedRow) : Z * Z := (g_block_number g, g_timestamp g).

Definition aggregates (seen : list UnifiedRow) (groups : list GroupedRow) : Prop :=
  NoDup (map group_key groups)
  /\ (forall g, In g groups ->
         (exists r, In r seen /\ same_group r g = true
                    /\ unix_timestamp r = g_unix_timestamp g)
         /\ (forall r, In r seen -> same_group r g = true ->
                       unix_timestamp r <= g_unix_timestamp g))
  /\ (forall r, In r seen -> exists g, In g groups /\ same_group r g = true).

(** A row of block [n] whose epoch timestamp is [ts]. *)
Definition block_row (n ts : Z) : UnifiedRow :=
  {| block_number := n;
     unix_timestamp := ts;
     timestamp := cet_timestamp ts;
     transaction_hash := "0a";
     tx_from_address := "0xaa";
     tx_to_address := None;
     tx_value_eth := S754_zero false;
     tx_gas_price_eth := S754_zero false;
     tx_gas_used := 21000;
     tx_gas_fee_eth := S754_zero false;
     log_from_address := None;
     log_to_address := None;
     log_value_usdt := None |}.

(** Rows of four blocks with epoch timestamps 100, 105, 130 and 131, in
    no particular order and with two rows for block 1. *)
Definition four_blocks : list UnifiedRow :=
  [block_row 3 130; block_row 1 100; block_row 2 105; block_row 1 100; block_row 4 131].

(* ================================================================== *)
(** * Further statements *)
(* ================================================================== *)

(** The columns of a transaction record that are copied from the chain. *)
Definition chain_columns (r : TransactionRecord)
  : Z * Z * string * string * option string :=
  (t_block_number r, t_timestamp r, t_transaction_hash r,
   t_from_address r, t_to_address r).

(** The same columns, read from block [n] and its transaction [tx]. *)
Definition expected_columns (nb : Z * Block) (tx : TxBody)
  : Z * Z * string * string * option string :=
  (fst nb, b_timestamp (snd nb), hex (tx_hash tx), tx_from tx, tx_to tx).

(** The amounts served by the client are non-negative. *)
Definition amounts_nonneg (w3 : Web3) : Prop :=
  (forall n block tx,
      get_block (eth w3) n true = Ok block -> In tx (b_transactions block) ->
      0 <= tx_value tx /\ 0 <= tx_gasPrice tx)
  /\ (forall h receipt,
         get_transaction_receipt (eth w3) h = Ok receipt -> 0 <= gasUsed receipt).

(** Reading a hexadecimal rendering back. *)
Definition hex_value (c : ascii) : Z :=
  let n := Z.of_N (N_of_ascii c) in
  if n <? 58 then n - 48 else n - 87.

Definition byte_of_val (v : Z) : Byte.byte :=
  match Byte.of_N (Z.to_N v) with
  | Some b => b
  | None => Byte.x00
  end.

Fixpoint unhex (s : string) : bytes :=
  match s with
  | String c1 (String c2 s') =>
      byte_of_val (16 * hex_value c1 + hex_value c2) :: unhex s'
  | _ => []
  end.

Definition Zsum (l : list Z) : Z := fold_right Z.add 0 l.

(** [groups] is the count of the rows [rows] per key: one pair per key
    met, holding the number of rows of that key. *)
Definition counted {A K : Type} (key_eqb : K -> K -> bool) (key : A -> K)
    (rows : list A) (groups : list (K * Z)) : Prop :=
  NoDup (map fst groups)
  /\ (forall k n, In (k, n) groups -> n = occurrences key_eqb key k rows /\ 1 <= n)
  /\ (forall r, In r rows -> In (key r) (map fst groups)).

(** [result] reports the keys of [rows] with their number of rows, keeping
    the keys whose count satisfies [having], greatest counts first, cut
    after [limit] lines when there is a limit: a key left out by the cut
    has a count no greater than the counts reported. *)
Definition count_report {A K : Type} (key_eqb : K -> K -> bool) (key : A -> K)
    (having : Z -> bool) (limit : option nat) (rows : list A)
    (result : list (K * Z)) : Prop :=
  NoDup (map fst result)
  /\ (forall k n, In (k, n) result ->
                  n = occurrences key_eqb key k rows /\ 1 <= n /\ having n = true)
  /\ StronglySorted (fun a b => snd b <= snd a) result
  /\ (forall k,
         1 <= occurrences key_eqb key k rows ->
         having (occurrences key_eqb key k rows) = true ->
         In (k, occurrences key_eqb key k rows) result
         \/ (limit = Some (List.length result)
             /\ forall x, In x result -> occurrences key_eqb key k rows <= snd x))
  /\ match limit with
     | Some n => (List.length result <= n)%nat
     | None => True
     end.

(* ================================================================== *)
(** * Properties *)
(* ================================================================== *)

(** ** Results and loops *)

Lemma bind_ok {A B : Type} (c : result A) (k : A -> result B) (b : B) :
  bind c k = Ok b -> exists a, c = Ok a /\ k a = Ok b.
Proof.
  destruct c as [a|e]; simpl; intros H; [eauto | discriminate].
Qed.

Lemma bind_raise {A B : Type} (c : result A) (k : A -> result B) (e : string) :
  bind c k = Raise e -> c = Raise e \/ exists a, c = Ok a /\ k a = Raise e.
Proof.
  destruct c as [a|e']; simpl; intros H; [right; eauto | left; congruence].
Qed.

Lemma range_In (a b n : Z) : In n (range a b) <-> a <= n < b.
Proof.
  unfold range. rewrite in_map_iff. split.
  - intros (i & Hi & Hin). apply in_seq in Hin. lia.
  - intros H. exists (Z.to_nat (n - a)). split; [lia|].
    apply in_seq. lia.
Qed.

Lemma range_sorted (a b : Z) : StronglySorted Z.lt (range a b).
Proof.
  unfold range. generalize (Z.to_nat (b - a)) as len. generalize 0%nat as s.
  intros s len. revert s. induction len as [|len IH]; intros s; simpl.
  - constructor.
  - constructor; [apply IH|].
    apply Forall_forall. intros x Hx. apply in_map_iff in Hx.
    destruct Hx as (i & <- & Hi). apply in_seq in Hi. lia.
Qed.

Lemma sorted_split (l pre post : list Z) (m : Z) :
  StronglySorted Z.lt l -> l = pre ++ m :: post ->
  (forall x, In x pre -> x < m) /\ (forall x, In x post -> m < x).
Proof.
  intros Hs. revert pre. induction Hs as [|x l Hs IH Hx]; intros pre Heq.
  - destruct pre; discriminate.
  - destruct pre as [|y pre]; simpl in Heq; injection Heq as -> ->.
    + split; [intros ? []|]. rewrite Forall_forall in Hx. exact Hx.
    + destruct (IH pre eq_refl) as [Hpre Hpost]. split; [|exact Hpost].
      intros z [<-|Hz]; [|auto].
      rewrite Forall_forall in Hx. apply Hx, in_elt.
Qed.

(** ** The loops of [get_transactions] *)

Section Extraction.

Variable w3 : Web3.

Lemma receipt_failure_record (n : Z) (block : Block) (tx : TxBody) (e : string) :
  get_transaction_receipt (eth w3) (tx_hash tx) = Raise e ->
  transaction_record w3 n block tx = Raise e.
Proof.
  intros H. unfold transaction_record. rewrite H. reflexivity.
Qed.

Lemma record_receipt_ok (n : Z) (block : Block) (tx : TxBody) (r : TransactionRecord) :
  transaction_record w3 n block tx = Ok r ->
  exists rc, get_transaction_receipt (eth w3) (tx_hash tx) = Ok rc.
Proof.
  unfold transaction_record. intros H.
  apply bind_ok in H. destruct H as (rc & Hrc & _). eauto.
Qed.

Lemma transactions_loop_ok (n : Z) (block : Block) (txs : list TxBody) :
  forall acc out,
    transactions_loop w3 n block txs acc = Ok out ->
    exists recs,
      out = acc ++ recs
      /\ Forall2 (fun tx r => transaction_record w3 n block tx = Ok r) txs recs.
Proof.
  induction txs as [|tx txs IH]; intros acc out H; simpl in H.
  - injection H as <-. exists []. rewrite app_nil_r. split; constructor.
  - destruct (transaction_record w3 n block tx) as [r|e] eqn:Hr; simpl in H;
      [|discriminate].
    destruct (IH _ _ H) as (recs & -> & Hall).
    exists (r :: recs). rewrite <- app_assoc. split; [reflexivity|].
    constructor; assumption.
Qed.

Lemma transactions_loop_raise (n : Z) (block : Block) (txs : list TxBody) :
  forall acc k,
    transactions_loop w3 n block txs acc = Raise k ->
    exists tx e,
      In tx txs /\ transaction_record w3 n block tx = Raise e /\ k = tx_error n e.
Proof.
  induction txs as [|tx txs IH]; intros acc k H; simpl in H.
  - discriminate.
  - destruct (transaction_record w3 n block tx) as [r|e] eqn:Hr; simpl in H.
    + destruct (IH _ _ H) as (tx' & e & Hin & Hrec & ->).
      exists tx', e. simpl. auto.
    + injection H as <-. exists tx, e. simpl. auto.
Qed.

Lemma Forall2_In_left {A B : Type} (R : A -> B -> Prop) (l : list A) (l' : list B) :
  Forall2 R l l' -> forall x, In x l -> exists y, In y l' /\ R x y.
Proof.
  induction 1 as [|a b l l' Hab _ IH]; intros x Hx; [destruct Hx|].
  destruct Hx as [<-|Hx].
  - exists b. simpl. auto.
  - destruct (IH _ Hx) as (y & Hy & HR). exists y. simpl. auto.
Qed.

Lemma Forall2_In_right {A B : Type} (R : A -> B -> Prop) (l : list A) (l' : list B) :
  Forall2 R l l' -> forall y, In y l' -> exists x, In x l /\ R x y.
Proof.
  induction 1 as [|a b l l' Hab _ IH]; intros y Hy; [destruct Hy|].
  destruct Hy as [<-|Hy].
  - exists a. simpl. auto.
  - destruct (IH _ Hy) as (x & Hx & HR). exists x. simpl. auto.
Qed.

Lemma blocks_loop_ok (ns : list Z) :
  forall acc out,
    blocks_loop w3 ns acc = Ok out ->
    (forall m, In m ns -> block_extracted w3 m)
    /\ exists recs,
         out = acc ++ recs
         /\ forall r, In r recs ->
              exists m block tx,
                In m ns /\ get_block (eth w3) m true = Ok block
                /\ In tx (b_transactions block)
                /\ transaction_record w3 m block tx = Ok r.
Proof.
  induction ns as [|n ns IH]; intros acc out H; simpl in H.
  - injection H as <-. split; [intros ? []|].
    exists []. rewrite app_nil_r. split; [reflexivity | intros ? []].
  - destruct (get_block (eth w3) n true) as [block|e] eqn:Hb; simpl in H;
      [|discriminate].
    apply bind_ok in H. destruct H as (acc' & Hloop & Hrest).
    apply transactions_loop_ok in Hloop. destruct Hloop as (recs1 & -> & Hall).
    destruct (IH _ _ Hrest) as (Hext & recs2 & -> & Hrecs2).
    split.
    + intros m [<-|Hm]; [|auto].
      exists block. split; [exact Hb|]. intros tx Htx.
      destruct (Forall2_In_left _ _ _ Hall _ Htx) as (r & _ & Hr). eauto.
    + exists (recs1 ++ recs2). rewrite app_assoc. split; [reflexivity|].
      intros r Hr. apply in_app_or in Hr. destruct Hr as [Hr|Hr].
      * destruct (Forall2_In_right _ _ _ Hall _ Hr) as (tx & Htx & Hrec).
        exists n, block, tx. simpl. auto.
      * destruct (Hrecs2 _ Hr) as (m & block' & tx & Hm & Hrest').
        exists m, block', tx. simpl. auto.
Qed.

Lemma blocks_loop_raise (ns : list Z) :
  forall acc k,
    blocks_loop w3 ns acc = Raise k ->
    exists pre m post e,
      ns = pre ++ m :: post
      /\ (forall x, In x pre -> block_extracted w3 x)
      /\ reports_failure w3 k m e.
Proof.
  induction ns as [|n ns IH]; intros acc k H; simpl in H.
  - discriminate.
  - destruct (get_block (eth w3) n true) as [block|e] eqn:Hb; simpl in H.
    + apply bind_raise in H. destruct H as [H|(acc' & Hloop & Hrest)].
      * apply transactions_loop_raise in H.
        destruct H as (tx & e & Htx & Hrec & ->).
        exists [], n, ns, e. split; [reflexivity|]. split; [intros ? []|].
        right. split; [reflexivity|]. exists block, tx. auto.
      * destruct (IH _ _ Hrest) as (pre & m & post & e & -> & Hpre & Hrep).
        exists (n :: pre), m, post, e. split; [reflexivity|]. split; [|exact Hrep].
        intros x [<-|Hx]; [|auto].
        exists block. split; [exact Hb|]. intros tx Htx.
        apply transactions_loop_ok in Hloop. destruct Hloop as (recs & _ & Hall).
        destruct (Forall2_In_left _ _ _ Hall _ Htx) as (r & _ & Hr). eauto.
    + injection H as <-.
      exists [], n, ns, e. split; [reflexivity|]. split; [intros ? []|].
      left. auto.
Qed.

Lemma extracted_no_failure (n : Z) :
  block_extracted w3 n -> ~ fetch_fails_in w3 n.
Proof.
  intros (block & Hb & Hall) [(e & He)|(block' & tx & e & Hb' & Htx & He)].
  - congruence.
  - rewrite Hb in Hb'. injection Hb' as <-.
    destruct (Hall _ Htx) as (r & Hr).
    rewrite (receipt_failure_record n block tx e He) in Hr. discriminate.
Qed.

End Extraction.

(** ** Reading the block number back from an error *)

Lemma uint_all_num (d : Decimal.uint) : all_num (NilEmpty.string_of_uint d) = true.
Proof.
  induction d; simpl; auto.
Qed.

Lemma str_int_all_num (n : Z) : all_num (str_int n) = true.
Proof.
  unfold str_int, NilZero.string_of_int, NilZero.string_of_uint.
  destruct (Z.to_int n) as [d|d]; destruct d; simpl; auto using uint_all_num.
Qed.

Lemma str_int_nonempty (n : Z) : str_int n <> EmptyString.
Proof.
  unfold str_int, NilZero.string_of_int, NilZero.string_of_uint.
  destruct (Z.to_int n) as [d|d]; destruct d; simpl; discriminate.
Qed.

Lemma str_int_parse (n : Z) :
  option_map Z.of_int (NilZero.int_of_string (str_int n)) = Some n.
Proof.
  unfold str_int. rewrite NilZero.isi.
  - simpl. f_equal. apply DecimalZ.of_to.
  - destruct n; simpl; try discriminate.
    intros H. injection H. apply Unsigned.to_uint_nonnil.
  - destruct n; simpl; try discriminate.
    intros H. injection H. apply Unsigned.to_uint_nonnil.
Qed.

Lemma skip_text_num (s rest : string) :
  s <> EmptyString -> all_num s = true -> skip_text (s ++ rest) = (s ++ rest)%string.
Proof.
  destruct s as [|c s]; [congruence|]. simpl. intros _ H.
  apply andb_true_iff in H. destruct H as (-> & _). reflexivity.
Qed.

Lemma take_num_colon (s rest : string) :
  all_num s = true -> take_num (s ++ String ":" rest) = s.
Proof.
  induction s as [|c s IH]; cbn [append take_num all_num]; [reflexivity|].
  intros H. apply andb_true_iff in H. destruct H as (-> & H). now rewrite IH.
Qed.

Lemma block_of_block_error (m : Z) (e : string) :
  block_of_error (block_error m e) = Some m.
Proof.
  unfold block_of_error, block_error. simpl skip_text.
  rewrite skip_text_num, take_num_colon; auto using str_int_all_num, str_int_nonempty.
  apply str_int_parse.
Qed.

Lemma block_of_tx_error (m : Z) (e : string) :
  block_of_error (tx_error m e) = Some m.
Proof.
  unfold block_of_error, tx_error. simpl skip_text.
  rewrite skip_text_num, take_num_colon; auto using str_int_all_num, str_int_nonempty.
  apply str_int_parse.
Qed.

(** ** Failure semantics of the transaction extraction *)

(** C3, as amended: when a fetch needed for some block [n] of the range
    fails (the block, or the receipt of one of its transactions), the
    extraction raises and returns no record at all; the message is the one
    of the first block [m] of the range at which processing failed, the
    number of that block can be read back from it, and it carries the
    underlying cause. Nothing more is promised about the transaction
    concerned. *)
Theorem fetch_failure_aborts_extraction (w3 : Web3) (a b n : Z) :
  a <= n <= b ->
  fetch_fails_in w3 n ->
  exists k m e,
    get_transactions w3 a b = Raise k
    /\ a <= m <= n
    /\ (forall x, a <= x < m -> block_extracted w3 x)
    /\ reports_failure w3 k m e
    /\ block_of_error k = Some m.
Proof.
  intros Hn Hfail. unfold get_transactions.
  assert (Hin : In n (range a (b + 1))) by (apply range_In; lia).
  destruct (blocks_loop w3 (range a (b + 1)) []) as [out|k] eqn:Hloop.
  - apply blocks_loop_ok in Hloop. destruct Hloop as (Hext & _).
    exfalso. exact (extracted_no_failure w3 n (Hext n Hin) Hfail).
  - apply blocks_loop_raise in Hloop.
    destruct Hloop as (pre & m & post & e & Heq & Hpre & Hrep).
    destruct (sorted_split _ _ _ _ (range_sorted a (b + 1)) Heq) as (Hlt & Hgt).
    assert (Hm : a <= m < b + 1).
    { apply range_In. rewrite Heq. apply in_elt. }
    assert (Hbefore : forall x, a <= x < m -> In x pre).
    { intros x Hx.
      assert (Hxin : In x (range a (b + 1))) by (apply range_In; lia).
      rewrite Heq in Hxin. apply in_app_or in Hxin.
      destruct Hxin as [Hx'|[Hx'|Hx']]; [exact Hx' | lia | apply Hgt in Hx'; lia]. }
    exists k, m, e. split; [reflexivity|]. split; [|split; [|split; [exact Hrep|]]].
    + split; [lia|].
      destruct (Z_le_gt_dec m n) as [Hle|Hgt']; [exact Hle|].
      exfalso. apply (extracted_no_failure w3 n); [|exact Hfail].
      apply Hpre, Hbefore. lia.
    + intros x Hx. apply Hpre, Hbefore, Hx.
    + destruct Hrep as [(-> & _)|(-> & _)];
        [apply block_of_block_error | apply block_of_tx_error].
Qed.

Lemma fetch_failure_aborts_extraction_witness :
  exists k m e,
    get_transactions (mkWeb3 true eth_fail_b) 7 7 = Raise k
    /\ 7 <= m <= 7
    /\ (forall x, 7 <= x < m -> block_extracted (mkWeb3 true eth_fail_b) x)
    /\ reports_failure (mkWeb3 true eth_fail_b) k m e
    /\ block_of_error k = Some m.
Proof.
  apply (fetch_failure_aborts_extraction (mkWeb3 true eth_fail_b) 7 7 7).
  - lia.
  - right. exists block_7, tx_b, "timeout"%string.
    split; [reflexivity|]. split; [simpl; auto | reflexivity].
Defined.

(** C3, the part that fails: two runs over the same block, one losing the
    receipt of the first transaction and one the receipt of the second,
    raise the very same error, so the error does not tell which
    transaction failed. *)
Lemma error_does_not_identify_transaction : ~ error_identifies_transaction.
Proof.
  intros (failing_tx & H).
  assert (Ha : failing_tx "Error fetching block transactions for block 7: timeout"%string
               = tx_hash tx_a).
  { apply (H (mkWeb3 true eth_fail_a) 7 block_7 tx_a); [reflexivity | | reflexivity].
    exists [], [tx_b], "timeout"%string.
    split; [reflexivity|]. split; [constructor | reflexivity]. }
  assert (Hb : failing_tx "Error fetching block transactions for block 7: timeout"%string
               = tx_hash tx_b).
  { apply (H (mkWeb3 true eth_fail_b) 7 block_7 tx_b); [reflexivity | | reflexivity].
    exists [tx_a], [], "timeout"%string.
    split; [reflexivity|]. split; [|reflexivity].
    constructor; [reflexivity | constructor]. }
  rewrite Ha in Hb. discriminate.
Qed.

(** ** Signs in binary64 arithmetic *)

Lemma iter_pos_invariant {A : Type} (P : A -> Prop) (f : A -> A) :
  (forall x, P x -> P (f x)) ->
  forall p x, P x -> P (iter_pos f p x).
Proof.
  intros Hf. induction p as [p IH|p IH|]; intros x Hx; simpl; auto.
Qed.

Lemma shr_1_nonneg (mrs : shr_record) :
  0 <= shr_m mrs -> 0 <= shr_m (shr_1 mrs).
Proof.
  destruct mrs as [m r s]. simpl.
  destruct m as [|[p|p|]|[p|p|]]; simpl; lia.
Qed.

Lemma shr_nonneg (mrs : shr_record) (e n : Z) :
  0 <= shr_m mrs -> 0 <= shr_m (fst (shr mrs e n)).
Proof.
  intros H. destruct n as [|p|p]; simpl; auto.
  apply (iter_pos_invariant (fun x => 0 <= shr_m x)); auto using shr_1_nonneg.
Qed.

Lemma shr_fexp_nonneg (m e : Z) (l : location) :
  0 <= m -> 0 <= shr_m (fst (shr_fexp prec emax m e l)).
Proof.
  intros H. unfold shr_fexp. apply shr_nonneg.
  destruct l as [|[| |]]; exact H.
Qed.

Lemma round_nearest_even_nonneg (m : Z) (l : location) :
  0 <= m -> 0 <= round_nearest_even m l.
Proof.
  intros H. destruct l as [|[| |]]; simpl; try lia.
  destruct (Z.even m); lia.
Qed.

Lemma binary_round_aux_sign (sx : bool) (mx ex : Z) (lx : location) :
  0 <= mx -> float_sign_is sx (binary_round_aux prec emax sx mx ex lx) = true.
Proof.
  intros H. unfold binary_round_aux.
  pose proof (shr_fexp_nonneg mx ex lx H) as H1.
  destruct (shr_fexp prec emax mx ex lx) as [mrs' e']. simpl in H1.
  pose proof (shr_fexp_nonneg _ e' loc_Exact
                (round_nearest_even_nonneg _ (loc_of_shr_record mrs') H1)) as H2.
  destruct (shr_fexp prec emax _ e' loc_Exact) as [mrs'' e'']. simpl in H2.
  destruct (shr_m mrs'') as [|m|m]; [| |lia].
  - simpl. apply eqb_reflx.
  - destruct (e'' <=? emax - prec); simpl; apply eqb_reflx.
Qed.

Lemma float_sign_nonneg (x : float) :
  float_sign_is false x = true -> float_nonneg x = true.
Proof.
  destruct x as [s|s| |s m e]; simpl; try discriminate;
    destruct s; simpl; intros H; try discriminate; reflexivity.
Qed.

Lemma float_of_int_sign (n : Z) (y : float) :
  0 <= n -> float_of_int n = Ok y ->
  float_sign_is false y = true /\ float_finite y = true.
Proof.
  intros Hn. unfold float_of_int.
  assert (Hs : float_sign_is false (binary_normalize prec emax n 0 false) = true).
  { destruct n as [|p|p]; [reflexivity | | lia].
    unfold binary_normalize, binary_round.
    destruct (shl_align p 0 _) as [mz ez].
    apply binary_round_aux_sign. lia. }
  destruct (binary_normalize prec emax n 0 false) as [s|s| |s m e];
    simpl; intros H; try discriminate; injection H as <-; auto.
Qed.

Lemma SFdiv_core_nonneg (m1 m2 : positive) (e1 e2 : Z) :
  0 <= fst (fst (SFdiv_core_binary prec emax (Zpos m1) e1 (Zpos m2) e2)).
Proof.
  unfold SFdiv_core_binary.
  set (s := e1 - e2 - _).
  set (m' := match s with Z0 => Zpos m1 | Zpos _ => Z.shiftl (Zpos m1) s | Zneg _ => 0 end).
  assert (Hm' : 0 <= m').
  { subst m'. destruct s; try lia. apply Z.shiftl_nonneg. lia. }
  pose proof (Z.div_pos m' (Zpos m2) Hm' ltac:(lia)) as Hq.
  unfold Z.div in Hq. destruct (Z.div_eucl m' (Zpos m2)) as [q r]. exact Hq.
Qed.

Lemma int_truediv_finite (a b : Z) (x : float) :
  int_truediv a b = Ok x -> is_infinite x = false.
Proof.
  unfold int_truediv. destruct (b =? 0); [discriminate|].
  destruct (is_infinite (SFdiv prec emax (int_operand a) (int_operand b))) eqn:Hinf;
    intros H; [discriminate|]. injection H as <-. exact Hinf.
Qed.

Lemma int_truediv_nonneg (a b : Z) (x : float) :
  0 <= a -> 0 < b -> int_truediv a b = Ok x ->
  float_sign_is false x = true /\ float_finite x = true.
Proof.
  intros Ha Hb. unfold int_truediv.
  destruct (Z.eqb_spec b 0) as [->|_]; [lia|].
  assert (Hs : float_sign_is false (SFdiv prec emax (int_operand a) (int_operand b)) = true).
  { destruct b as [|pb|pb]; try lia. destruct a as [|pa|pa]; try lia; [reflexivity|].
    simpl int_operand. unfold SFdiv.
    pose proof (SFdiv_core_nonneg pa pb 0 0) as Hq.
    destruct (SFdiv_core_binary prec emax (Zpos pa) 0 (Zpos pb) 0) as [[mz ez] lz].
    simpl in Hq. apply binary_round_aux_sign. exact Hq. }
  destruct (SFdiv prec emax (int_operand a) (int_operand b)) as [s|s| |s m e];
    simpl; intros H; try discriminate; injection H as <-; auto.
Qed.

(** The product of line 39 keeps the sign of a non-negative price. *)
Lemma float_mul_int_nonneg (p : float) (g : Z) (fee : float) :
  float_finite p = true -> float_nonneg p = true -> 0 <= g ->
  float_mul_int p g = Ok fee ->
  float_nonneg fee = true.
Proof.
  intros Hfin Hp Hg H. unfold float_mul_int in H.
  apply bind_ok in H. destruct H as (y & Hy & H). injection H as <-.
  destruct (float_of_int_sign g y Hg Hy) as (Hsy & Hfy).
  destruct p as [sp|sp| |sp mp ep]; try discriminate;
    destruct y as [sy|sy| |sy my ey]; try discriminate;
    try reflexivity.
  destruct sp; [discriminate|]. destruct sy; [discriminate|].
  unfold SFmul. apply float_sign_nonneg, binary_round_aux_sign. lia.
Qed.

(** ** The gas fee of an extracted record *)

Lemma transaction_record_fee (w3 : Web3) (n : Z) (block : Block) (tx : TxBody)
    (r : TransactionRecord) :
  transaction_record w3 n block tx = Ok r ->
  float_mul_int (t_gas_price r) (t_gas_used r) = Ok (t_gas_fee r)
  /\ is_infinite (t_gas_price r) = false.
Proof.
  unfold transaction_record. intros H.
  apply bind_ok in H. destruct H as (rc & _ & H).
  apply bind_ok in H. destruct H as (gas_price & Hprice & H).
  apply bind_ok in H. destruct H as (gas_fee & Hfee & H).
  apply bind_ok in H. destruct H as (value & _ & H).
  injection H as <-. simpl. split; [exact Hfee|].
  exact (int_truediv_finite _ _ _ Hprice).
Qed.

Lemma nonneg_not_infinite_finite (x : float) :
  float_nonneg x = true -> is_infinite x = false -> float_finite x = true.
Proof.
  destruct x; cbv; intros; congruence.
Qed.

(** C6: in every record returned by the extraction the stored [gas_fee] is
    the product [gas_price * gas_used] that line 39 computes (binary64
    product of the price and of the gas used converted to [float]), and it
    is non-negative whenever price and gas used are; more generally the
    product of a non-negative finite price and a non-negative amount of
    gas is that binary64 product and is non-negative. *)
Theorem gas_fee_is_price_times_used :
  (forall w3 a b recs r,
      get_transactions w3 a b = Ok recs -> In r recs ->
      float_mul_int (t_gas_price r) (t_gas_used r) = Ok (t_gas_fee r)
      /\ (float_nonneg (t_gas_price r) = true -> 0 <= t_gas_used r ->
          float_nonneg (t_gas_fee r) = true))
  /\ (forall p g fee,
         float_finite p = true -> float_nonneg p = true -> 0 <= g ->
         float_mul_int p g = Ok fee ->
         fee = SFmul prec emax p (binary_normalize prec emax g 0 false)
         /\ float_nonneg fee = true).
Proof.
  split.
  - intros w3 a b recs r Hget Hr. unfold get_transactions in Hget.
    apply blocks_loop_ok in Hget. destruct Hget as (_ & recs' & Heq & Hrecs).
    simpl in Heq. subst recs'.
    destruct (Hrecs r Hr) as (m & block & tx & _ & _ & _ & Hrec).
    destruct (transaction_record_fee _ _ _ _ _ Hrec) as (Hfee & Hfin).
    split; [exact Hfee|]. intros Hp Hg.
    apply (float_mul_int_nonneg (t_gas_price r) (t_gas_used r)); auto.
    apply nonneg_not_infinite_finite; assumption.
  - intros p g fee Hfin Hp Hg Hfee. split.
    + unfold float_mul_int, float_of_int in Hfee.
      destruct (is_infinite (binary_normalize prec emax g 0 false));
        simpl in Hfee; [discriminate|]. injection Hfee as <-. reflexivity.
    + exact (float_mul_int_nonneg p g fee Hfin Hp Hg Hfee).
Qed.

Lemma gas_fee_is_price_times_used_witness :
  (float_mul_int (t_gas_price record_a) (t_gas_used record_a) = Ok (t_gas_fee record_a)
   /\ float_nonneg (t_gas_fee record_a) = true)
  /\ (t_gas_fee record_b
      = SFmul prec emax (t_gas_price record_b) (binary_normalize prec emax 21000 0 false)
      /\ float_nonneg (t_gas_fee record_b) = true).
Proof.
  destruct gas_fee_is_price_times_used as [Hrec Hlaw]. split.
  - destruct (Hrec (mkWeb3 true eth_ok) 7 7 [record_a; record_b] record_a) as [H1 H2].
    + vm_compute. reflexivity.
    + simpl. auto.
    + split; [exact H1|]. apply H2; [reflexivity | simpl; lia].
  - apply (Hlaw (t_gas_price record_b) 21000 (t_gas_fee record_b)).
    + reflexivity.
    + reflexivity.
    + lia.
    + vm_compute. reflexivity.
Defined.

(** ** Token amounts *)

Lemma div_half_even_spec (n d : Z) :
  0 < d ->
  2 * Z.abs (n - div_half_even n d * d) <= d
  /\ (n = div_half_even n d * d <-> n mod d = 0).
Proof.
  intros Hd. unfold div_half_even.
  pose proof (Z.div_mod n d ltac:(lia)) as Hdm.
  pose proof (Z.mod_pos_bound n d Hd) as Hr.
  destruct (Z.ltb_spec (2 * (n mod d)) d) as [H1|H1];
    [|destruct (Z.ltb_spec d (2 * (n mod d))) as [H2|H2];
      [|destruct (Z.even (n / d))]]; split; try nia.
Qed.

Lemma div_half_even_bound (n d B : Z) :
  0 < d -> 0 <= n -> 2 * n < 2 * B * d - d -> 0 <= div_half_even n d < B.
Proof.
  intros Hd Hn HB. unfold div_half_even.
  pose proof (Z.div_mod n d ltac:(lia)) as Hdm.
  pose proof (Z.mod_pos_bound n d Hd) as Hr.
  assert (0 <= n / d) by (apply Z.div_pos; lia).
  destruct (Z.ltb_spec (2 * (n mod d)) d) as [H1|H1];
    [|destruct (Z.ltb_spec d (2 * (n mod d))) as [H2|H2];
      [|destruct (Z.even (n / d))]]; nia.
Qed.

Lemma value_usdt_decimal_eq (raw : Z) :
  0 <= raw < 10 ^ 32 - 5000 ->
  value_usdt_decimal raw = Ok (mkDecimal (div_half_even raw (10 ^ 4)) 2).
Proof.
  intros Hraw. unfold value_usdt_decimal, from_wei_mwei.
  destruct (Z.eqb_spec raw 0) as [->|Hnz]; [reflexivity|].
  assert (Hmax : 10 ^ 32 < MAX_WEI) by (vm_compute; reflexivity).
  replace (raw <? 0) with false by (symmetry; apply Z.ltb_ge; lia).
  replace (MAX_WEI <? raw) with false by (symmetry; apply Z.ltb_ge; lia).
  simpl bind. unfold round_Decimal. simpl scale. simpl unscaled.
  change (2 <=? 6) with true. cbv iota. change (6 - 2) with 4.
  assert (Hc : 0 <= div_half_even raw (10 ^ 4) < 10 ^ 28).
  { apply div_half_even_bound; [reflexivity | lia |].
    change (2 * 10 ^ 28 * 10 ^ 4 - 10 ^ 4) with (2 * (10 ^ 32 - 5000)). lia. }
  change context_prec with 28.
  replace (Z.abs (div_half_even raw (10 ^ 4)) <? 10 ^ 28) with true
    by (symmetry; apply Z.ltb_lt; lia).
  reflexivity.
Qed.

Lemma cents_times_million (raw c : Z) :
  (inject_Z raw == Decimal_to_Q (mkDecimal c 2) * inject_Z (10 ^ 6))%Q
  <-> raw = c * 10 ^ 4.
Proof.
  unfold Decimal_to_Q, Qeq, Qdiv, Qmult, Qinv, inject_Z. simpl.
  change (10 ^ 4) with 10000. lia.
Qed.

Lemma value_usdt_decimal_too_large (raw : Z) :
  10 ^ 32 - 5000 <= raw -> exists e, value_usdt_decimal raw = Raise e.
Proof.
  intros Hraw. unfold value_usdt_decimal, from_wei_mwei.
  assert (H32 : 10 ^ 32 = 100000000000000000000000000000000) by reflexivity.
  destruct (Z.eqb_spec raw 0) as [->|Hnz]; [lia|].
  destruct ((raw <? 0) || (MAX_WEI <? raw)); [simpl; eexists; reflexivity|].
  simpl bind. unfold round_Decimal. simpl scale. simpl unscaled.
  change (2 <=? 6) with true. cbv iota. change (6 - 2) with 4.
  assert (Hc : 10 ^ 28 <= div_half_even raw (10 ^ 4)).
  { unfold div_half_even.
    assert (H28 : 10 ^ 28 = 10000000000000000000000000000) by reflexivity.
    change (10 ^ 4) with 10000. rewrite H28.
    pose proof (Z.div_mod raw 10000 ltac:(lia)) as Hdm.
    pose proof (Z.mod_pos_bound raw 10000 ltac:(lia)) as Hr.
    destruct (Z.ltb_spec (2 * (raw mod 10000)) 10000) as [H1|H1]; [lia|].
    destruct (Z.ltb_spec 10000 (2 * (raw mod 10000))) as [H2|H2]; [lia|].
    destruct (Z.eq_dec (raw / 10000) 9999999999999999999999999999) as [->|Hq].
    - reflexivity.
    - destruct (Z.even (raw / 10000)); lia. }
  change context_prec with 28.
  replace (Z.abs (div_half_even raw (10 ^ 4)) <? 10 ^ 28) with false
    by (symmetry; apply Z.ltb_ge; lia).
  eexists. reflexivity.
Qed.

(** C2, as amended: the token value is the base-unit amount divided by
    [10^6] and rounded half-even to two decimal places; it differs from the
    exact quotient by at most half a cent ([5000] base units), and the round
    trip [rawAmount == value * 10^6] holds exactly for the amounts that are
    whole multiples of [10^4] base units. Amounts from [10^32 - 5000] base
    units on are refused by the rounding. *)
Theorem token_value_rounds_to_cents (raw : Z) :
  0 <= raw ->
  (raw < 10 ^ 32 - 5000 ->
   exists c,
     value_usdt_decimal raw = Ok (mkDecimal c 2)
     /\ c = div_half_even raw (10 ^ 4)
     /\ Z.abs (raw - c * 10 ^ 4) <= 5000
     /\ ((inject_Z raw == Decimal_to_Q (mkDecimal c 2) * inject_Z (10 ^ 6))%Q
         <-> raw mod 10 ^ 4 = 0))
  /\ (10 ^ 32 - 5000 <= raw -> exists e, value_usdt_decimal raw = Raise e).
Proof.
  intros Hnn. split; [|apply value_usdt_decimal_too_large].
  intros Hraw. exists (div_half_even raw (10 ^ 4)).
  split; [apply value_usdt_decimal_eq; lia|]. split; [reflexivity|].
  destruct (div_half_even_spec raw (10 ^ 4) ltac:(reflexivity)) as (Hd & Hiff).
  split.
  - change (10 ^ 4) with 10000 in *. lia.
  - rewrite cents_times_million. exact Hiff.
Qed.

Lemma token_value_rounds_to_cents_witness :
  exists c,
    value_usdt_decimal 1234567 = Ok (mkDecimal c 2)
    /\ c = div_half_even 1234567 (10 ^ 4)
    /\ Z.abs (1234567 - c * 10 ^ 4) <= 5000
    /\ ((inject_Z 1234567 == Decimal_to_Q (mkDecimal c 2) * inject_Z (10 ^ 6))%Q
        <-> 1234567 mod 10 ^ 4 = 0).
Proof.
  apply (token_value_rounds_to_cents 1234567); [lia | reflexivity].
Defined.

(** C2, as stated, fails: one base unit (0.000001 USDT) is extracted as
    [0.00], which multiplied back by [10^6] gives [0], not [1]. *)
Lemma token_value_round_trip_fails :
  value_usdt_decimal 1 = Ok (mkDecimal 0 2)
  /\ ~ (inject_Z 1 == Decimal_to_Q (mkDecimal 0 2) * inject_Z (10 ^ 6))%Q.
Proof.
  split; [reflexivity|]. intros H. vm_compute in H. discriminate.
Qed.

(** ** Hexadecimal rendering and addresses *)

Lemma string_length_app (s t : string) :
  String.length (s ++ t) = (String.length s + String.length t)%nat.
Proof.
  induction s as [|c s IH]; simpl; [reflexivity | now rewrite IH].
Qed.

Lemma substring_all (s : string) : substring 0 (String.length s) s = s.
Proof.
  induction s as [|c s IH]; simpl; [reflexivity | now rewrite IH].
Qed.

Lemma substring_skip (s t : string) :
  substring (String.length s) (String.length t) (s ++ t) = t.
Proof.
  induction s as [|c s IH]; simpl; [apply substring_all | exact IH].
Qed.

Lemma hex_length (b : bytes) : String.length (hex b) = (2 * List.length b)%nat.
Proof.
  induction b as [|x b IH]; simpl; [reflexivity | rewrite IH; lia].
Qed.

Lemma hex_app (a b : bytes) : hex (a ++ b) = (hex a ++ hex b)%string.
Proof.
  induction a as [|x a IH]; simpl; [reflexivity | now rewrite IH].
Qed.

(** The last 40 characters of the rendering of a 32-byte topic are the
    rendering of its low 20 bytes. *)
Lemma topic_address_low_bytes (topic : bytes) :
  List.length topic = 32%nat ->
  topic_address topic = ("0x" ++ hex (skipn 12 topic))%string.
Proof.
  intros Hlen. unfold topic_address, last_chars. f_equal.
  rewrite hex_length, Hlen. simpl Nat.leb. cbv iota.
  replace (hex topic) with (hex (firstn 12 topic ++ skipn 12 topic))
    by (now rewrite firstn_skipn).
  rewrite hex_app.
  assert (H1 : String.length (hex (firstn 12 topic)) = (2 * 32 - 40)%nat).
  { rewrite hex_length, length_firstn, Hlen. reflexivity. }
  assert (H2 : String.length (hex (skipn 12 topic)) = 40%nat).
  { rewrite hex_length, length_skipn, Hlen. reflexivity. }
  rewrite <- H1. rewrite <- H2 at 1. apply substring_skip.
Qed.

Lemma int_from_bytes_big_acc (bs : bytes) (acc : Z) :
  fold_left (fun a b => a * 256 + byte_val b) bs acc
  = acc * 256 ^ Z.of_nat (List.length bs) + int_from_bytes_big bs.
Proof.
  unfold int_from_bytes_big. revert acc.
  induction bs as [|b bs IH]; intros acc.
  - simpl. lia.
  - cbn [fold_left List.length]. rewrite IH, (IH (0 * 256 + byte_val b)).
    rewrite Nat2Z.inj_succ, Z.pow_succ_r by lia. ring.
Qed.

(** Big-endian: the first byte is the most significant one. *)
Lemma int_from_bytes_big_cons (b : Byte.byte) (bs : bytes) :
  int_from_bytes_big (b :: bs)
  = byte_val b * 256 ^ Z.of_nat (List.length bs) + int_from_bytes_big bs.
Proof.
  unfold int_from_bytes_big at 1. cbn [fold_left].
  rewrite int_from_bytes_big_acc. ring.
Qed.

Lemma value_usdt_decimal_ok (raw : Z) (d : Decimal) :
  0 <= raw -> value_usdt_decimal raw = Ok d ->
  d = mkDecimal (div_half_even raw (10 ^ 4)) 2.
Proof.
  intros Hraw. unfold value_usdt_decimal, from_wei_mwei.
  destruct (Z.eqb_spec raw 0) as [->|Hnz].
  - intros H. vm_compute in H. injection H as <-. reflexivity.
  - destruct ((raw <? 0) || (MAX_WEI <? raw)); [discriminate|].
    simpl bind. unfold round_Decimal. simpl scale. simpl unscaled.
    change (2 <=? 6) with true. cbv iota. change (6 - 2) with 4.
    destruct (Z.abs _ <? 10 ^ context_prec); [|discriminate].
    intros H. injection H as <-. reflexivity.
Qed.

Lemma byte_val_nonneg (b : Byte.byte) : 0 <= byte_val b.
Proof.
  unfold byte_val. lia.
Qed.

Lemma int_from_bytes_big_nonneg (bs : bytes) : 0 <= int_from_bytes_big bs.
Proof.
  induction bs as [|b bs IH].
  - unfold int_from_bytes_big. simpl. lia.
  - rewrite int_from_bytes_big_cons. pose proof (byte_val_nonneg b).
    assert (0 <= 256 ^ Z.of_nat (List.length bs)) by (apply Z.pow_nonneg; lia).
    nia.
Qed.

(** C8, as amended: in every decoded transfer log whose topics 1 and 2 are
    32 bytes long, [from_address] and [to_address] are ["0x"] followed by
    the rendering of the low 20 bytes of these topics, and the token value
    is the data payload read as a big-endian integer, divided by [10^6]
    and rounded half-even to two decimal places. *)
Theorem transfer_log_decoding (w3 : Web3) (log : LogEntry) (r : TransferLogRecord)
    (topic1 topic2 : bytes) :
  transfer_log_record w3 log = Ok r ->
  nth_error (topics log) 1 = Some topic1 ->
  nth_error (topics log) 2 = Some topic2 ->
  List.length topic1 = 32%nat ->
  List.length topic2 = 32%nat ->
  l_from_address r = ("0x" ++ hex (skipn 12 topic1))%string
  /\ l_to_address r = ("0x" ++ hex (skipn 12 topic2))%string
  /\ l_value_usdt r = mkDecimal (div_half_even (int_from_bytes_big (data log)) (10 ^ 4)) 2
  /\ (forall b bs, int_from_bytes_big (b :: bs)
                   = byte_val b * 256 ^ Z.of_nat (List.length bs) + int_from_bytes_big bs).
Proof.
  intros H Ht1 Ht2 Hl1 Hl2. unfold transfer_log_record in H.
  apply bind_ok in H. destruct H as (v & Hv & H).
  apply bind_ok in H. destruct H as (block_info & _ & H).
  unfold list_index in H. rewrite Ht1, Ht2 in H. simpl in H.
  injection H as <-. simpl.
  rewrite (topic_address_low_bytes topic1 Hl1), (topic_address_low_bytes topic2 Hl2).
  repeat split; try reflexivity.
  - apply value_usdt_decimal_ok; [apply int_from_bytes_big_nonneg | exact Hv].
  - apply int_from_bytes_big_cons.
Qed.

Lemma transfer_log_decoding_witness :
  l_from_address record_dust = ("0x" ++ hex (skipn 12 (topic_of Byte.xaa)))%string
  /\ l_to_address record_dust = ("0x" ++ hex (skipn 12 (topic_of Byte.x00)))%string
  /\ l_value_usdt record_dust
     = mkDecimal (div_half_even (int_from_bytes_big (data log_dust)) (10 ^ 4)) 2
  /\ (forall b bs, int_from_bytes_big (b :: bs)
                   = byte_val b * 256 ^ Z.of_nat (List.length bs) + int_from_bytes_big bs).
Proof.
  apply (transfer_log_decoding (mkWeb3 true eth_ok) log_dust record_dust
           (topic_of Byte.xaa) (topic_of Byte.x00)); reflexivity.
Defined.

(** C8, as stated, fails on the value: the payload [1] (0.000001 USDT at
    the token's six decimals) is decoded to [0.00]. *)
Lemma transfer_log_value_not_exact :
  transfer_log_record (mkWeb3 true eth_ok) log_dust = Ok record_dust
  /\ ~ (Decimal_to_Q (l_value_usdt record_dust)
        == inject_Z (int_from_bytes_big (data log_dust)) / inject_Z (10 ^ 6))%Q.
Proof.
  split; [reflexivity|]. intros H. vm_compute in H. discriminate.
Qed.

(** ** The join *)

Section Join.

Variable ROUND : float -> Z -> float.
Variable local_timestamp : Z -> Z.

Local Abbreviation select := (select_unified ROUND local_timestamp).
Local Abbreviation join_rows := (left_join_rows ROUND local_timestamp).
Local Abbreviation join := (df_transactions_complete ROUND local_timestamp).

Lemma select_null_fields (t : TransactionRecord) :
  token_fields_null (select t None) = true.
Proof.
  reflexivity.
Qed.

Lemma select_some_fields (t : TransactionRecord) (l : TransferLogRecord) :
  token_fields_not_null (select t (Some l)) = true.
Proof.
  reflexivity.
Qed.

Lemma join_rows_cases (t : TransactionRecord) (logs : list TransferLogRecord) :
  (filter (on_condition t) logs = [] /\ join_rows t logs = [select t None])
  \/ (filter (on_condition t) logs <> []
      /\ join_rows t logs = map (fun l => select t (Some l)) (filter (on_condition t) logs)).
Proof.
  unfold left_join_rows.
  destruct (filter (on_condition t) logs) as [|l ms]; [left | right]; split;
    try reflexivity. discriminate.
Qed.

Lemma join_rows_nonempty (t : TransactionRecord) (logs : list TransferLogRecord) :
  (1 <= List.length (join_rows t logs))%nat.
Proof.
  destruct (join_rows_cases t logs) as [(_ & ->)|(Hne & ->)]; simpl; [lia|].
  destruct (filter (on_condition t) logs); [congruence | simpl; lia].
Qed.

Lemma join_rows_fields (t : TransactionRecord) (logs : list TransferLogRecord)
    (r : UnifiedRow) :
  In r (join_rows t logs) ->
  r = select t None
  \/ exists l, In l logs /\ on_condition t l = true /\ r = select t (Some l).
Proof.
  destruct (join_rows_cases t logs) as [(_ & ->)|(_ & ->)].
  - intros [<-|[]]. left. reflexivity.
  - intros Hr. apply in_map_iff in Hr. destruct Hr as (l & <- & Hl).
    apply filter_In in Hl. right. exists l. tauto.
Qed.

Lemma join_In (ts : list TransactionRecord) (logs : list TransferLogRecord)
    (r : UnifiedRow) :
  In r (join ts logs) <-> exists t, In t ts /\ In r (join_rows t logs).
Proof.
  unfold df_transactions_complete. apply in_flat_map.
Qed.

Lemma join_length (ts : list TransactionRecord) (logs : list TransferLogRecord) :
  List.length (join ts logs)
  = list_sum (map (fun t => List.length (join_rows t logs)) ts).
Proof.
  unfold df_transactions_complete.
  induction ts as [|t ts IH]; simpl; [reflexivity|].
  rewrite length_app, IH. reflexivity.
Qed.

Lemma join_all_or_none (ts : list TransactionRecord) (logs : list TransferLogRecord)
    (r : UnifiedRow) :
  In r (join ts logs) ->
  (token_fields_null r = true /\ is_not_null (log_value_usdt r) = false)
  \/ (token_fields_not_null r = true /\ is_not_null (log_value_usdt r) = true).
Proof.
  intros Hr. apply join_In in Hr. destruct Hr as (t & _ & Hr).
  apply join_rows_fields in Hr. destruct Hr as [->|(l & _ & _ & ->)]; auto.
Qed.

Lemma clean_is_not_null_filter (ts : list TransactionRecord)
    (logs : list TransferLogRecord) :
  df_logs_tether_clean (join ts logs) = filter token_fields_not_null (join ts logs).
Proof.
  unfold df_logs_tether_clean. apply filter_ext_in. intros r Hr.
  destruct (join_all_or_none ts logs r Hr) as [(Hn & ->)|(Hs & ->)]; [|now rewrite Hs].
  unfold token_fields_null in Hn. unfold token_fields_not_null.
  destruct (is_not_null (log_from_address r)); [discriminate|]. reflexivity.
Qed.

Lemma select_columns (t : TransactionRecord) (l : option TransferLogRecord) :
  block_number (select t l) = t_block_number t
  /\ unix_timestamp (select t l) = t_timestamp t
  /\ timestamp (select t l) = local_timestamp (t_timestamp t)
  /\ transaction_hash (select t l) = t_transaction_hash t
  /\ tx_from_address (select t l) = t_from_address t
  /\ tx_to_address (select t l) = t_to_address t
  /\ tx_value_eth (select t l) = ROUND (t_value t) 2
  /\ tx_gas_price_eth (select t l) = ROUND (t_gas_price t) 12
  /\ tx_gas_used (select t l) = t_gas_used t
  /\ tx_gas_fee_eth (select t l) = ROUND (t_gas_fee t) 12.
Proof.
  repeat split.
Qed.

Lemma select_log_columns (t : TransactionRecord) (l : TransferLogRecord) :
  log_from_address (select t (Some l)) = Some (l_from_address l)
  /\ log_to_address (select t (Some l)) = Some (l_to_address l)
  /\ log_value_usdt (select t (Some l)) = Some (l_value_usdt l).
Proof.
  repeat split.
Qed.

Lemma select_no_log_columns (t : TransactionRecord) :
  log_from_address (select t None) = None
  /\ log_to_address (select t None) = None
  /\ log_value_usdt (select t None) = None.
Proof.
  repeat split.
Qed.

Lemma matched_row_In (ts : list TransactionRecord) (logs : list TransferLogRecord)
    (t : TransactionRecord) (l : TransferLogRecord) :
  In t ts -> In l logs -> on_condition t l = true ->
  In (select t (Some l)) (join ts logs).
Proof.
  intros Ht Hl Hon. apply join_In. exists t. split; [exact Ht|].
  assert (Hm : In l (filter (on_condition t) logs)) by (apply filter_In; auto).
  destruct (join_rows_cases t logs) as [(He & _)|(_ & ->)].
  - rewrite He in Hm. destruct Hm.
  - apply in_map_iff. exists l. auto.
Qed.

Lemma clean_In (ts : list TransactionRecord) (logs : list TransferLogRecord)
    (r : UnifiedRow) :
  In r (df_logs_tether_clean (join ts logs))
  <-> In r (join ts logs) /\ token_fields_not_null r = true.
Proof.
  rewrite clean_is_not_null_filter. apply filter_In.
Qed.

(** C1: the unified view is the left outer join of the transactions with
    the transfer logs on (transaction_hash, block_number, timestamp). Every
    row carries the columns of its transaction; a row joined to a log
    carries the three token-side columns of that log, a null-extended row
    has them null. Each transaction record contributes at least one row:
    one row per matching log or, when no log matches, exactly one
    null-extended row; the view consists of these rows and of no other (in
    whatever order); and the token-only view consists of exactly the rows
    of the unified view whose token-side fields are non-null. *)
Theorem left_join_semantics (transactions : list TransactionRecord)
    (logs_tether : list TransferLogRecord) :
  (forall t l,
      on_condition t l = true
      <-> t_transaction_hash t = l_transaction_hash l
          /\ t_block_number t = l_block_number l
          /\ t_timestamp t = l_timestamp l)
  /\ (forall t l,
         block_number (select t l) = t_block_number t
         /\ unix_timestamp (select t l) = t_timestamp t
         /\ timestamp (select t l) = local_timestamp (t_timestamp t)
         /\ transaction_hash (select t l) = t_transaction_hash t
         /\ tx_from_address (select t l) = t_from_address t
         /\ tx_to_address (select t l) = t_to_address t
         /\ tx_value_eth (select t l) = ROUND (t_value t) 2
         /\ tx_gas_price_eth (select t l) = ROUND (t_gas_price t) 12
         /\ tx_gas_used (select t l) = t_gas_used t
         /\ tx_gas_fee_eth (select t l) = ROUND (t_gas_fee t) 12)
  /\ (forall t l,
         log_from_address (select t (Some l)) = Some (l_from_address l)
         /\ log_to_address (select t (Some l)) = Some (l_to_address l)
         /\ log_value_usdt (select t (Some l)) = Some (l_value_usdt l))
  /\ (forall t,
         log_from_address (select t None) = None
         /\ log_to_address (select t None) = None
         /\ log_value_usdt (select t None) = None)
  /\ (forall t,
         In t transactions ->
         (1 <= List.length (join_rows t logs_tether))%nat
         /\ incl (join_rows t logs_tether) (join transactions logs_tether)
         /\ (filter (on_condition t) logs_tether = [] ->
             join_rows t logs_tether = [select t None]
             /\ token_fields_null (select t None) = true)
         /\ (filter (on_condition t) logs_tether <> [] ->
             Permutation (join_rows t logs_tether)
               (map (fun l => select t (Some l)) (filter (on_condition t) logs_tether)))
         /\ (forall l, In l logs_tether -> on_condition t l = true ->
                       In (select t (Some l)) (join transactions logs_tether)))
  /\ (forall r, In r (join transactions logs_tether) ->
                exists t, In t transactions /\ In r (join_rows t logs_tether))
  /\ Permutation (join transactions logs_tether)
       (flat_map (fun t => join_rows t logs_tether) transactions)
  /\ List.length (join transactions logs_tether)
     = list_sum (map (fun t => List.length (join_rows t logs_tether)) transactions)
  /\ (List.length transactions <= List.length (join transactions logs_tether))%nat
  /\ (forall r, In r (df_logs_tether_clean (join transactions logs_tether))
                <-> In r (join transactions logs_tether)
                    /\ token_fields_not_null r = true)
  /\ Permutation (df_logs_tether_clean (join transactions logs_tether))
       (filter token_fields_not_null (join transactions logs_tether)).
Proof.
  split; [|split; [|split; [|split; [|split; [|split; [|split; [|split;
    [|split; [|split]]]]]]]]].
  - intros t l. unfold on_condition.
    rewrite !andb_true_iff, String.eqb_eq, !Z.eqb_eq. tauto.
  - intros t l. apply select_columns.
  - intros t l. apply select_log_columns.
  - intros t. apply select_no_log_columns.
  - intros t Ht. split; [apply join_rows_nonempty|]. split; [|split; [|split]].
    + intros r Hr. apply join_In. eauto.
    + destruct (join_rows_cases t logs_tether) as [(He & Hrows)|(Hne & Hrows)];
        intros H; try congruence; auto.
    + destruct (join_rows_cases t logs_tether) as [(He & Hrows)|(Hne & Hrows)];
        intros H; try congruence. rewrite Hrows. reflexivity.
    + intros l Hl Hon. apply matched_row_In; assumption.
  - intros r Hr. apply join_In, Hr.
  - reflexivity.
  - apply join_length.
  - rewrite join_length. clear. induction transactions as [|t ts IH]; simpl; [lia|].
    pose proof (join_rows_nonempty t logs_tether). lia.
  - intros r. apply clean_In.
  - rewrite clean_is_not_null_filter. reflexivity.
Qed.

(** C9: in every row of the unified view the three token-side columns are
    null together or non-null together: a row is either null-extended, with
    the three columns null, or joined to a transfer-log record that
    satisfies the join condition, with the three columns holding the sender,
    receiver and value of that record (which always has them); conversely
    every matching pair of a transaction and a transfer-log record gives
    such a populated row, and it is in the token-only view. Keeping the rows
    whose token value is not null therefore keeps exactly the rows whose
    three token-side columns are not null; the same holds of the two views
    of a run. *)
Theorem token_fields_all_or_none (transactions : list TransactionRecord)
    (logs_tether : list TransferLogRecord) :
  (forall r, In r (join transactions logs_tether) ->
             (token_fields_null r = true
              /\ log_from_address r = None
              /\ log_to_address r = None
              /\ log_value_usdt r = None)
             \/ (token_fields_not_null r = true
                 /\ exists t l,
                      In t transactions /\ In l logs_tether
                      /\ on_condition t l = true
                      /\ log_from_address r = Some (l_from_address l)
                      /\ log_to_address r = Some (l_to_address l)
                      /\ log_value_usdt r = Some (l_value_usdt l)))
  /\ (forall t l,
         In t transactions -> In l logs_tether -> on_condition t l = true ->
         exists r,
           In r (join transactions logs_tether)
           /\ In r (df_logs_tether_clean (join transactions logs_tether))
           /\ transaction_hash r = t_transaction_hash t
           /\ log_from_address r = Some (l_from_address l)
           /\ log_to_address r = Some (l_to_address l)
           /\ log_value_usdt r = Some (l_value_usdt l))
  /\ (forall r, In r (df_logs_tether_clean (join transactions logs_tether))
                <-> In r (join transactions logs_tether)
                    /\ token_fields_not_null r = true)
  /\ (forall r, In r (df_logs_tether_clean (join transactions logs_tether))
                <-> In r (join transactions logs_tether)
                    /\ log_value_usdt r <> None)
  /\ Permutation (df_logs_tether_clean (join transactions logs_tether))
       (filter token_fields_not_null (join transactions logs_tether))
  /\ (forall w3 report,
         run ROUND local_timestamp w3 = Ok report ->
         (forall r, In r (rep_complete report) ->
                    token_fields_null r = true \/ token_fields_not_null r = true)
         /\ (forall r, In r (rep_clean report)
                       <-> In r (rep_complete report)
                           /\ token_fields_not_null r = true)).
Proof.
  split; [|split; [|split; [|split; [|split]]]].
  - intros r Hr. apply join_In in Hr. destruct Hr as (t & Ht & Hr).
    apply join_rows_fields in Hr. destruct Hr as [->|(l & Hl & Hon & ->)].
    + left. repeat split.
    + right. split; [reflexivity|]. exists t, l. repeat split; assumption.
  - intros t l Ht Hl Hon. exists (select t (Some l)).
    pose proof (matched_row_In _ _ _ _ Ht Hl Hon) as Hin.
    split; [exact Hin|]. split; [apply clean_In; split; [exact Hin | reflexivity]|].
    repeat split.
  - intros r. apply clean_In.
  - intros r. unfold df_logs_tether_clean. rewrite filter_In.
    destruct (log_value_usdt r); simpl; split; intros (H1 & H2);
      (split; [exact H1|]); congruence.
  - rewrite clean_is_not_null_filter. reflexivity.
  - intros w3 report H. unfold run in H.
    apply bind_ok in H. destruct H as (latest & _ & H).
    apply bind_ok in H. destruct H as (txs & _ & H).
    apply bind_ok in H. destruct H as (logs & _ & H).
    injection H as <-. simpl. split.
    + intros r Hr. destruct (join_all_or_none _ _ r Hr) as [(H & _)|(H & _)]; auto.
    + intros r. apply clean_In.
Qed.

End Join.

Lemma left_join_semantics_witness :
  left_join_rows half_up_ROUND cet_timestamp record_b [record_dust]
  = [select_unified half_up_ROUND cet_timestamp record_b None]
  /\ Permutation
       (left_join_rows half_up_ROUND cet_timestamp record_a [record_dust])
       [select_unified half_up_ROUND cet_timestamp record_a (Some record_dust)]
  /\ In (select_unified half_up_ROUND cet_timestamp record_a (Some record_dust))
        (df_transactions_complete half_up_ROUND cet_timestamp
           [record_a; record_b] [record_dust])
  /\ log_value_usdt (select_unified half_up_ROUND cet_timestamp record_a
                       (Some record_dust))
     = Some (l_value_usdt record_dust).
Proof.
  destruct (left_join_semantics half_up_ROUND cet_timestamp
              [record_a; record_b] [record_dust])
    as (_ & _ & Hlog & _ & H & _).
  split; [|split; [|split]].
  - destruct (H record_b) as (_ & _ & Hnone & _); [simpl; auto|].
    apply Hnone. reflexivity.
  - destruct (H record_a) as (_ & _ & _ & Hsome & _); [simpl; auto|].
    apply Hsome. vm_compute. discriminate.
  - destruct (H record_a) as (_ & _ & _ & _ & Hin); [simpl; auto|].
    apply Hin; [simpl; auto | reflexivity].
  - apply (Hlog record_a record_dust).
Defined.

Lemma token_fields_all_or_none_witness :
  exists r,
    In r (df_transactions_complete half_up_ROUND cet_timestamp
            [record_a; record_b] [record_dust])
    /\ In r (df_logs_tether_clean
               (df_transactions_complete half_up_ROUND cet_timestamp
                  [record_a; record_b] [record_dust]))
    /\ transaction_hash r = t_transaction_hash record_a
    /\ log_from_address r = Some (l_from_address record_dust)
    /\ log_to_address r = Some (l_to_address record_dust)
    /\ log_value_usdt r = Some (l_value_usdt record_dust).
Proof.
  destruct (token_fields_all_or_none half_up_ROUND cet_timestamp
              [record_a; record_b] [record_dust]) as (_ & H & _).
  apply (H record_a record_dust); [simpl; auto | simpl; auto | reflexivity].
Defined.

(** ** The burn count *)

Lemma string_eqb_false (s t : string) : String.eqb s t = false <-> s <> t.
Proof.
  destruct (String.eqb_spec s t) as [->|Hne]; split; intros H; congruence.
Qed.



(** ** The connectivity check *)

Section Connectivity.

Variable ROUND : float -> Z -> float.
Variable local_timestamp : Z -> Z.

Lemma transactions_loop_eth (c c' : bool) (e : Eth) (n : Z) (block : Block)
    (txs : list TxBody) :
  forall acc,
    transactions_loop (mkWeb3 c e) n block txs acc
    = transactions_loop (mkWeb3 c' e) n block txs acc.
Proof.
  induction txs as [|tx txs IH]; intros acc; simpl; [reflexivity|].
  change (transaction_record (mkWeb3 c e) n block tx)
    with (transaction_record (mkWeb3 c' e) n block tx).
  destruct (try_except _ _) as [acc'|k]; simpl; [apply IH | reflexivity].
Qed.

Lemma get_transactions_eth (c c' : bool) (e : Eth) (a b : Z) :
  get_transactions (mkWeb3 c e) a b = get_transactions (mkWeb3 c' e) a b.
Proof.
  unfold get_transactions. generalize (@nil TransactionRecord) as acc.
  induction (range a (b + 1)) as [|n ns IH]; intros acc; simpl; [reflexivity|].
  destruct (try_except _ _) as [block|k]; simpl; [|reflexivity].
  rewrite (transactions_loop_eth c c').
  destruct (transactions_loop _ _ _ _ _) as [acc'|k]; simpl; [apply IH | reflexivity].
Qed.

Lemma get_logs_tether_eth (c c' : bool) (e : Eth) (a b : Z) :
  get_logs_tether (mkWeb3 c e) a b = get_logs_tether (mkWeb3 c' e) a b.
Proof.
  unfold get_logs_tether. simpl.
  destruct (try_except _ _) as [logs|k]; simpl; [|reflexivity].
  generalize (@nil TransferLogRecord) as acc.
  induction logs as [|log logs IH]; intros acc; simpl; [reflexivity|].
  change (transfer_log_record (mkWeb3 c e) log)
    with (transfer_log_record (mkWeb3 c' e) log).
  destruct (try_except _ _) as [acc'|k]; simpl; [apply IH | reflexivity].
Qed.

Lemma run_eth (c c' : bool) (e : Eth) :
  run ROUND local_timestamp (mkWeb3 c e) = run ROUND local_timestamp (mkWeb3 c' e).
Proof.
  unfold run. simpl.
  destruct (eth_block_number e) as [latest|k]; simpl; [|reflexivity].
  rewrite (get_transactions_eth c c').
  destruct (get_transactions _ _ _) as [txs|k]; simpl; [|reflexivity].
  rewrite (get_logs_tether_eth c c'). reflexivity.
Qed.

(** C10: when the connectivity check fails, [main] prints the failure line
    and then goes on exactly as after a successful check: it asks for the
    latest block number and extracts the last ten blocks; the outcome of
    the run is the outcome of that extraction (its error if it raises,
    the report built on the extracted data otherwise). *)
Theorem failed_check_does_not_abort (w3 : Web3) :
  is_connected w3 = false ->
  fst (main ROUND local_timestamp w3) = [failed_line]
  /\ snd (main ROUND local_timestamp w3)
     = snd (main ROUND local_timestamp (mkWeb3 true (eth w3)))
  /\ (forall latest,
         eth_block_number (eth w3) = Ok latest ->
         (forall k, get_transactions w3 (latest - 9) latest = Raise k ->
                    snd (main ROUND local_timestamp w3) = Raise k)
         /\ (forall txs logs,
                get_transactions w3 (latest - 9) latest = Ok txs ->
                get_logs_tether w3 (latest - 9) latest = Ok logs ->
                exists report,
                  snd (main ROUND local_timestamp w3) = Ok report
                  /\ rep_transactions report = txs
                  /\ rep_logs_tether report = logs
                  /\ rep_complete report
                     = df_transactions_complete ROUND local_timestamp txs logs)).
Proof.
  intros Hc. unfold main. rewrite Hc. simpl fst. simpl snd.
  split; [reflexivity|]. split.
  - destruct w3 as [c e]. simpl. apply run_eth.
  - intros latest Hl. unfold run. rewrite Hl. simpl bind. split.
    + intros k Hk. rewrite Hk. reflexivity.
    + intros txs logs Ht Hlogs. rewrite Ht, Hlogs. simpl.
      eexists. split; [reflexivity|]. simpl. auto.
Qed.

End Connectivity.

Lemma failed_check_does_not_abort_witness :
  fst (main half_up_ROUND cet_timestamp (mkWeb3 false eth_window)) = [failed_line]
  /\ exists report,
       snd (main half_up_ROUND cet_timestamp (mkWeb3 false eth_window)) = Ok report
       /\ rep_transactions report = [record_a; record_b]
       /\ rep_logs_tether report = [record_dust].
Proof.
  destruct (failed_check_does_not_abort half_up_ROUND cet_timestamp
              (mkWeb3 false eth_window) eq_refl) as (Hline & _ & Hrun).
  split; [exact Hline|].
  destruct (Hrun 7 eq_refl) as (_ & Hok).
  destruct (Hok [record_a; record_b] [record_dust]) as (report & Hrep & Htxs & Hlogs & _).
  - vm_compute. reflexivity.
  - vm_compute. reflexivity.
  - exists report. auto.
Defined.

(** ** Facts about [ORDER BY] *)

Section OrderByFacts.

Context {A : Type}.
Variable before : A -> A -> bool.

Lemma insert_row_perm (a : A) (l : list A) :
  Permutation (insert_row before a l) (a :: l).
Proof.
  induction l as [|b l IH]; simpl; [reflexivity|].
  destruct (before a b); [reflexivity|].
  rewrite IH. apply perm_swap.
Qed.

Lemma order_by_perm (l : list A) : Permutation (order_by before l) l.
Proof.
  induction l as [|a l IH]; simpl; [reflexivity|].
  rewrite insert_row_perm. now constructor.
Qed.

Lemma order_by_In (l : list A) (x : A) : In x (order_by before l) <-> In x l.
Proof.
  split; apply Permutation_in; [|symmetry]; apply order_by_perm.
Qed.

Hypothesis before_total : forall a b, before a b = false -> before b a = true.

Lemma insert_row_sorted (a : A) (l : list A) :
  Sorted (fun x y => before x y = true) l ->
  Sorted (fun x y => before x y = true) (insert_row before a l).
Proof.
  induction 1 as [|b l Hl IH Hb]; simpl.
  - repeat constructor.
  - destruct (before a b) eqn:Hab.
    + repeat constructor; assumption.
    + constructor; [exact IH|].
      destruct l as [|c l]; simpl.
      * constructor. apply before_total, Hab.
      * inversion Hb; subst.
        destruct (before a c); constructor; auto.
Qed.

Lemma order_by_sorted (l : list A) :
  Sorted (fun x y => before x y = true) (order_by before l).
Proof.
  induction l as [|a l IH]; simpl; [constructor | now apply insert_row_sorted].
Qed.

Hypothesis before_trans :
  forall a b c, before a b = true -> before b c = true -> before a c = true.

Lemma order_by_strongly_sorted (l : list A) :
  StronglySorted (fun x y => before x y = true) (order_by before l).
Proof.
  apply Sorted_StronglySorted; [|apply order_by_sorted].
  intros a b c. apply before_trans.
Qed.

End OrderByFacts.

(** Sorting again a list that is already in order changes nothing. *)
Lemma order_by_sorted_id {A : Type} (before : A -> A -> bool) (l : list A) :
  Sorted (fun x y => before x y = true) l -> order_by before l = l.
Proof.
  induction 1 as [|a l Hl IH Ha]; simpl; [reflexivity|].
  rewrite IH. destruct Ha as [|b l Hab]; simpl; [reflexivity|].
  now rewrite Hab.
Qed.

Lemma StronglySorted_impl {A : Type} (R S : A -> A -> Prop) (l : list A) :
  (forall a b, R a b -> S a b) -> StronglySorted R l -> StronglySorted S l.
Proof.
  intros HRS. induction 1 as [|a l Hl IH Ha]; constructor; [exact IH|].
  eapply Forall_impl; [|exact Ha]. intros b. apply HRS.
Qed.

Lemma firstn_In {A : Type} (n : nat) (l : list A) (x : A) :
  In x (firstn n l) -> In x l.
Proof.
  rewrite <- (firstn_skipn n l) at 2. intros H. apply in_or_app. now left.
Qed.

Lemma skipn_In {A : Type} (n : nat) (l : list A) (x : A) :
  In x (skipn n l) -> In x l.
Proof.
  rewrite <- (firstn_skipn n l) at 2. intros H. apply in_or_app. now right.
Qed.

Lemma StronglySorted_firstn_skipn {A : Type} (R : A -> A -> Prop) (n : nat) (l : list A) :
  StronglySorted R l ->
  StronglySorted R (firstn n l)
  /\ forall x y, In x (firstn n l) -> In y (skipn n l) -> R x y.
Proof.
  intros Hs. revert n. induction Hs as [|a l Hl IH Ha]; intros n.
  - rewrite firstn_nil, skipn_nil. split; [constructor | intros ? ? []].
  - destruct n as [|n]; simpl; [split; [constructor | intros ? ? []]|].
    destruct (IH n) as (Hf & Hfs). rewrite Forall_forall in Ha. split.
    + constructor; [exact Hf|]. apply Forall_forall. intros x Hx.
      apply Ha. eapply firstn_In, Hx.
    + intros x y [<-|Hx] Hy; [|auto].
      apply Ha. eapply skipn_In, Hy.
Qed.

(** ** The order of [DOUBLE] values *)

Ltac compare_cases :=
  repeat match goal with
  | |- context [Pos.compare_cont Eq ?a ?b] =>
      change (Pos.compare_cont Eq a b) with (Pos.compare a b)
  | H : context [Pos.compare_cont Eq ?a ?b] |- _ =>
      change (Pos.compare_cont Eq a b) with (Pos.compare a b) in H
  end;
  repeat match goal with
  | H : context [Z.compare ?a ?b] |- _ => destruct (Z.compare_spec a b)
  | |- context [Z.compare ?a ?b] => destruct (Z.compare_spec a b)
  | H : context [Pos.compare ?a ?b] |- _ => destruct (Pos.compare_spec a b)
  | |- context [Pos.compare ?a ?b] => destruct (Pos.compare_spec a b)
  end;
  simpl in *; try congruence; try lia.

Lemma double_compare_antisym (x y : float) :
  double_compare y x = CompOpp (double_compare x y).
Proof.
  destruct x as [sx|sx| |sx mx ex], y as [sy|sy| |sy my ey]; simpl;
    try destruct sx; try destruct sy; simpl; try reflexivity; compare_cases.
Qed.

Lemma double_compare_trans (x y z : float) :
  double_compare x y <> Lt -> double_compare y z <> Lt -> double_compare x z <> Lt.
Proof.
  destruct x as [sx|sx| |sx mx ex], y as [sy|sy| |sy my ey], z as [sz|sz| |sz mz ez];
    simpl; try destruct sx; try destruct sy; try destruct sz; simpl;
    try congruence; intros H1 H2; compare_cases.
Qed.

Lemma double_compare_eq_class (x y k : float) :
  double_compare x k = Eq -> double_compare y k = Eq -> double_compare x y = Eq.
Proof.
  destruct x as [sx|sx| |sx mx ex], y as [sy|sy| |sy my ey], k as [sk|sk| |sk mk ek];
    simpl; try destruct sx; try destruct sy; try destruct sk; simpl;
    try congruence; intros H1 H2; compare_cases.
Qed.

Lemma desc_true {A : Type} (key : A -> float) (a b : A) :
  desc key a b = true <-> double_compare (key a) (key b) <> Lt.
Proof.
  unfold desc. destruct (double_compare (key a) (key b)); split; congruence.
Qed.

Lemma desc_total {A : Type} (key : A -> float) (a b : A) :
  desc key a b = false -> desc key b a = true.
Proof.
  unfold desc. rewrite (double_compare_antisym (key a) (key b)).
  destruct (double_compare (key a) (key b)); simpl; congruence.
Qed.

Lemma desc_trans {A : Type} (key : A -> float) (a b c : A) :
  desc key a b = true -> desc key b c = true -> desc key a c = true.
Proof.
  rewrite !desc_true. apply double_compare_trans.
Qed.

(** ** The ten greatest values *)

(** No query that returns at most ten rows of a view can follow the native
    values of [greatest_at]: the eleven views are the same view. *)
Lemma view_of_same (h : string) : In h eleven_hashes -> view_of h = view_of "01".
Proof.
  intros Hh. simpl in Hh.
  repeat (destruct Hh as [<-|Hh]; [vm_compute; reflexivity|]). destruct Hh.
Qed.

Lemma greatest_at_greatest (h : string) :
  In h eleven_hashes ->
  exists t, In t (greatest_at h)
            /\ t_transaction_hash t = h
            /\ forall t', In t' (greatest_at h) -> t' <> t ->
                          SFltb (t_value t') (t_value t) = true.
Proof.
  intros Hh. exists (with_hash h (with_value (t_value record_b) record_a)).
  split; [|split; [reflexivity|]].
  - unfold greatest_at. apply in_map_iff. exists h. split; [|exact Hh].
    rewrite String.eqb_refl. reflexivity.
  - intros t' Ht' Hne. unfold greatest_at in Ht'. apply in_map_iff in Ht'.
    destruct Ht' as (h' & <- & _). destruct (String.eqb h' h) eqn:E.
    + apply String.eqb_eq in E. subst h'. exfalso. apply Hne. reflexivity.
    + reflexivity.
Qed.

Lemma eleven_hashes_NoDup : NoDup eleven_hashes.
Proof.
  unfold eleven_hashes.
  repeat (constructor;
          [simpl; intros H;
           repeat (destruct H as [H|H]; [discriminate H|]); exact H|]).
  constructor.
Qed.

Lemma some_greatest_left_out (engine : list UnifiedRow -> list Top10Row) :
  (forall df, (List.length (engine df) <= 10)%nat) ->
  exists h, In h eleven_hashes /\ ~ In h (top_10_hashes (engine (view_of h))).
Proof.
  intros Hlimit.
  destruct (Forall_Exists_dec
              (fun h => In h (top_10_hashes (engine (view_of "01"))))
              (fun h => in_dec string_dec h _) eleven_hashes) as [Hall|Hex].
  - exfalso. rewrite Forall_forall in Hall.
    pose proof (NoDup_incl_length eleven_hashes_NoDup Hall) as Hlen.
    unfold top_10_hashes in Hlen. rewrite length_map in Hlen.
    pose proof (Hlimit (view_of "01")). simpl in Hlen. lia.
  - apply Exists_exists in Hex. destruct Hex as (h & Hh & Hout).
    exists h. split; [exact Hh|]. rewrite (view_of_same h Hh). exact Hout.
Qed.

(** C5, as amended: the query returns ten rows (all of them when there are
    fewer) of the unified view, in descending order of [tx_value_eth],
    where [tx_value_eth] is the native value already rounded to two
    decimals by the join, the only value the view carries: every returned
    row has a rounded value at least that of every row left out, and the
    returned rows are in descending order of the rounded value. Nothing is
    said of the order among rows whose rounded values are equal, nor of
    which of them are kept at the cut. *)
Theorem top_10_by_rounded_value :
  (forall df,
      let top := tx_value_eth_top_10_rows df in
      tx_value_eth_top_10 df
      = map (fun r => (block_number r, timestamp r, transaction_hash r,
                       tx_from_address r, tx_to_address r, tx_value_eth r)) top
      /\ List.length top = Nat.min 10 (List.length df)
      /\ (exists rest,
             Permutation (top ++ rest) df
             /\ forall r r', In r top -> In r' rest ->
                  double_compare (tx_value_eth r) (tx_value_eth r') <> Lt)
      /\ StronglySorted
           (fun a b => double_compare (tx_value_eth a) (tx_value_eth b) <> Lt) top)
  /\ (forall ROUND local_timestamp transactions logs_tether r,
         In r (df_transactions_complete ROUND local_timestamp transactions logs_tether) ->
         exists t, In t transactions /\ tx_value_eth r = ROUND (t_value t) 2).
Proof.
  split.
  - intros df top. subst top. unfold tx_value_eth_top_10_rows.
    pose proof (order_by_strongly_sorted (desc tx_value_eth)
                  (desc_total tx_value_eth) (desc_trans tx_value_eth) df) as Hs.
    apply (StronglySorted_impl _
             (fun a b => double_compare (tx_value_eth a) (tx_value_eth b) <> Lt)) in Hs;
      [|intros a b; apply desc_true].
    destruct (StronglySorted_firstn_skipn _ 10 _ Hs) as (Hf & Hfs).
    split; [reflexivity|]. split; [|split].
    + rewrite length_firstn. f_equal.
      apply Permutation_length, order_by_perm.
    + exists (skipn 10 (order_by (desc tx_value_eth) df)). split; [|exact Hfs].
      rewrite firstn_skipn. apply order_by_perm.
    + exact Hf.
  - intros ROUND local_timestamp transactions logs_tether r Hr.
    apply join_In in Hr. destruct Hr as (t & Ht & Hr). exists t. split; [exact Ht|].
    apply join_rows_fields in Hr. destruct Hr as [->|(l & _ & _ & ->)]; reflexivity.
Qed.

Lemma top_10_by_rounded_value_witness :
  List.length (tx_value_eth_top_10_rows eleven_rows) = 10%nat
  /\ exists t, In t eleven_transactions
               /\ tx_value_eth (select_unified half_up_ROUND cet_timestamp record_b None)
                  = half_up_ROUND (t_value t) 2.
Proof.
  destruct top_10_by_rounded_value as (Htop & Hkey). split.
  - destruct (Htop eleven_rows) as (_ & Hlen & _). exact Hlen.
  - apply (Hkey half_up_ROUND cet_timestamp eleven_transactions [] _).
    vm_compute. tauto.
Defined.

(** C5, as stated, fails. Take eleven transactions that differ in their
    hash only, except that the one with hash [h] moves 1.004 ETH and each of
    the other ten 1.001 ETH. Whichever of the eleven hashes [h] is, the
    transaction [h] has the strictly greatest native value, and the unified
    view is the same: all eleven rows show 1.0. The query returns ten rows
    of that one view, so for one of the eleven choices of [h] it leaves out
    the transaction with the greatest native value; this holds of every
    query that returns at most ten rows of the view, whatever order it
    gives to rows of equal rounded value. *)
Lemma top_10_cannot_follow_native_value :
  (forall h, In h eleven_hashes ->
     exists t, In t (greatest_at h)
               /\ t_transaction_hash t = h
               /\ forall t', In t' (greatest_at h) -> t' <> t ->
                             SFltb (t_value t') (t_value t) = true)
  /\ (forall h h', In h eleven_hashes -> In h' eleven_hashes ->
                   view_of h = view_of h')
  /\ (forall h r, In h eleven_hashes -> In r (view_of h) ->
                  tx_value_eth r = S754_finite false 4503599627370496 (-52))
  /\ (exists h, In h eleven_hashes
                /\ ~ In h (top_10_hashes (tx_value_eth_top_10 (view_of h))))
  /\ (forall engine : list UnifiedRow -> list Top10Row,
         (forall df, (List.length (engine df) <= 10)%nat) ->
         exists h, In h eleven_hashes
                   /\ ~ In h (top_10_hashes (engine (view_of h)))).
Proof.
  split; [|split; [|split; [|split]]].
  - exact greatest_at_greatest.
  - intros h h' Hh Hh'. rewrite (view_of_same h Hh), (view_of_same h' Hh').
    reflexivity.
  - intros h r Hh Hr. rewrite (view_of_same h Hh) in Hr. vm_compute in Hr.
    repeat (destruct Hr as [<-|Hr]; [reflexivity|]). destruct Hr.
  - apply some_greatest_left_out. intros df.
    unfold tx_value_eth_top_10, tx_value_eth_top_10_rows.
    rewrite length_map, length_firstn. lia.
  - intros engine Hlimit. apply some_greatest_left_out, Hlimit.
Qed.

(** ** Grouping by block *)

Lemma same_group_key (r : UnifiedRow) (g : GroupedRow) :
  same_group r g = true <-> (block_number r, timestamp r) = group_key g.
Proof.
  unfold same_group, group_key. rewrite andb_true_iff, !Z.eqb_eq.
  split; [intros (-> & ->); reflexivity | intros H; injection H; auto].
Qed.

Lemma same_group_same_key (r : UnifiedRow) (g g' : GroupedRow) :
  group_key g = group_key g' -> same_group r g = same_group r g'.
Proof.
  unfold same_group, group_key. intros H. injection H as -> ->. reflexivity.
Qed.

Lemma classic_eq_group (x y : GroupedRow) : x = y \/ x <> y.
Proof.
  destruct x as [b t u], y as [b' t' u'].
  destruct (Z.eq_dec b b') as [->|Hb]; [|right; congruence].
  destruct (Z.eq_dec t t') as [->|Ht]; [|right; congruence].
  destruct (Z.eq_dec u u') as [->|Hu]; [left; reflexivity | right; congruence].
Qed.

Lemma add_to_groups_spec (r : UnifiedRow) (groups : list GroupedRow) :
  (exists pre g post,
      groups = pre ++ g :: post
      /\ same_group r g = true
      /\ add_to_groups r groups
         = pre ++ mkGroupedRow (g_block_number g) (g_timestamp g)
                    (Z.max (g_unix_timestamp g) (unix_timestamp r)) :: post)
  \/ ((forall g, In g groups -> same_group r g = false)
      /\ add_to_groups r groups
         = groups ++ [mkGroupedRow (block_number r) (timestamp r) (unix_timestamp r)]).
Proof.
  induction groups as [|g groups IH]; simpl.
  - right. split; [intros ? []| reflexivity].
  - destruct (same_group r g) eqn:Hg.
    + left. exists [], g, groups. auto.
    + destruct IH as [(pre & g' & post & -> & Hg' & ->)|(Hnone & ->)].
      * left. exists (g :: pre), g', post. auto.
      * right. split; [|reflexivity]. intros g' [<-|Hin]; auto.
Qed.

Lemma aggregates_step (r : UnifiedRow) (seen : list UnifiedRow)
    (groups : list GroupedRow) :
  aggregates seen groups -> aggregates (r :: seen) (add_to_groups r groups).
Proof.
  intros (Hnd & Hmax & Hcov).
  destruct (add_to_groups_spec r groups)
    as [(pre & g & post & -> & Hg & ->)|(Hnone & ->)].
  - set (g' := mkGroupedRow (g_block_number g) (g_timestamp g)
                 (Z.max (g_unix_timestamp g) (unix_timestamp r))).
    assert (Hkey : group_key g' = group_key g) by reflexivity.
    split; [|split].
    + rewrite map_app in *. simpl in *. rewrite Hkey. exact Hnd.
    + intros x Hx. apply in_app_or in Hx.
      assert (Hold : In x (pre ++ g :: post) ->
                (exists r0, In r0 (r :: seen) /\ same_group r0 x = true
                            /\ unix_timestamp r0 = g_unix_timestamp x)
                /\ (forall r0, In r0 seen -> same_group r0 x = true ->
                               unix_timestamp r0 <= g_unix_timestamp x)).
      { intros Hin. destruct (Hmax x Hin) as ((r0 & Hr0 & Hs & Hu) & Hle).
        split; [exists r0; simpl; auto | exact Hle]. }
      assert (Hother : In x (pre ++ g :: post) -> x <> g ->
                (exists r0, In r0 (r :: seen) /\ same_group r0 x = true
                            /\ unix_timestamp r0 = g_unix_timestamp x)
                /\ (forall r0, In r0 (r :: seen) -> same_group r0 x = true ->
                               unix_timestamp r0 <= g_unix_timestamp x)).
      { intros Hin Hne. destruct (Hold Hin) as (Hex & Hle). split; [exact Hex|].
        intros r0 [<-|Hr0] Hs; [|auto]. exfalso.
        apply same_group_key in Hs. apply same_group_key in Hg.
        assert (Hk : group_key x = group_key g) by congruence.
        apply Hne. clear - Hnd Hin Hk.
        apply in_app_or in Hin. rewrite map_app in Hnd. simpl in Hnd.
        apply NoDup_remove_2 in Hnd.
        destruct Hin as [Hin|[Heq|Hin]]; [|auto|]; exfalso; apply Hnd, in_or_app;
          [left | right]; rewrite <- Hk; apply in_map, Hin. }
      assert (Hnew : (exists r0, In r0 (r :: seen) /\ same_group r0 g' = true
                                 /\ unix_timestamp r0 = g_unix_timestamp g')
                     /\ (forall r0, In r0 (r :: seen) -> same_group r0 g' = true ->
                                    unix_timestamp r0 <= g_unix_timestamp g')).
      { destruct (Hmax g (in_elt g pre post)) as ((r0 & Hr0 & Hs & Hu) & Hle). split.
        - destruct (Z.max_spec (g_unix_timestamp g) (unix_timestamp r))
            as [(_ & Hm)|(_ & Hm)].
          + exists r. simpl. rewrite Hm. auto.
          + exists r0. simpl. rewrite Hm. auto.
        - intros r1 [<-|Hr1] Hs1; simpl; [lia|].
          specialize (Hle r1 Hr1 Hs1). lia. }
      destruct Hx as [Hx|[<-|Hx]]; [|exact Hnew|].
      * destruct (classic_eq_group x g) as [->|Hne]; [|apply Hother; auto using in_or_app].
        exfalso. clear - Hnd Hx. rewrite map_app in Hnd. simpl in Hnd.
        apply NoDup_remove_2 in Hnd. apply Hnd, in_or_app. left. apply in_map, Hx.
      * destruct (classic_eq_group x g) as [->|Hne].
        -- exfalso. clear - Hnd Hx. rewrite map_app in Hnd. simpl in Hnd.
           apply NoDup_remove_2 in Hnd. apply Hnd, in_or_app. right. apply in_map, Hx.
        -- apply Hother; [|exact Hne]. apply in_or_app. right. simpl. auto.
    + intros r0 [<-|Hr0].
      * exists g'. split; [apply in_elt | exact Hg].
      * destruct (Hcov r0 Hr0) as (x & Hx & Hs).
        apply in_app_or in Hx. destruct Hx as [Hx|[<-|Hx]].
        -- exists x. split; [apply in_or_app; auto | exact Hs].
        -- exists g'. split; [apply in_elt | exact Hs].
        -- exists x. split; [apply in_or_app; simpl; auto | exact Hs].
  - set (g' := mkGroupedRow (block_number r) (timestamp r) (unix_timestamp r)).
    assert (Hself : same_group r g' = true).
    { unfold same_group, g'. simpl. now rewrite !Z.eqb_refl. }
    split; [|split].
    + rewrite map_app. simpl. apply NoDup_app; [exact Hnd | repeat constructor; intros [] |].
      intros k Hk [<-|[]]. apply in_map_iff in Hk. destruct Hk as (g & Hk & Hin).
      specialize (Hnone g Hin).
      rewrite (same_group_same_key r g g' Hk), Hself in Hnone. discriminate.
    + intros x Hx. apply in_app_or in Hx. destruct Hx as [Hx|[<-|[]]].
      * destruct (Hmax x Hx) as ((r0 & Hr0 & Hs & Hu) & Hle). split.
        -- exists r0. simpl. auto.
        -- intros r1 [<-|Hr1] Hs1; [|auto].
           rewrite (Hnone x Hx) in Hs1. discriminate.
      * split; [exists r; simpl; auto|].
        intros r1 [<-|Hr1] Hs1; [simpl; lia|].
        destruct (Hcov r1 Hr1) as (x & Hx & Hs). exfalso.
        apply same_group_key in Hs1. apply same_group_key in Hs.
        specialize (Hnone x Hx).
        assert (Hk : group_key x = group_key g') by congruence.
        rewrite (same_group_same_key r x g' Hk), Hself in Hnone. discriminate.
    + intros r0 [<-|Hr0].
      * exists g'. split; [apply in_or_app; simpl; auto | exact Hself].
      * destruct (Hcov r0 Hr0) as (x & Hx & Hs).
        exists x. split; [apply in_or_app; auto | exact Hs].
Qed.

Lemma aggregates_fold (df seen : list UnifiedRow) (groups : list GroupedRow) :
  aggregates seen groups ->
  aggregates (rev df ++ seen) (fold_left (fun gs r => add_to_groups r gs) df groups).
Proof.
  revert seen groups. induction df as [|r df IH]; intros seen groups H; simpl.
  - exact H.
  - rewrite <- app_assoc. simpl. apply IH, aggregates_step, H.
Qed.

Lemma aggregates_ext (seen seen' : list UnifiedRow) (groups groups' : list GroupedRow) :
  (forall r, In r seen <-> In r seen') ->
  Permutation groups groups' ->
  aggregates seen groups -> aggregates seen' groups'.
Proof.
  intros Hseen Hperm (Hnd & Hmax & Hcov). split; [|split].
  - eapply Permutation_NoDup; [|exact Hnd]. apply Permutation_map, Hperm.
  - intros g Hg. apply (Permutation_in _ (Permutation_sym Hperm)) in Hg.
    destruct (Hmax g Hg) as ((r & Hr & Hs & Hu) & Hle). split.
    + exists r. rewrite <- Hseen. auto.
    + intros r' Hr'. apply Hle. now apply Hseen.
  - intros r Hr. apply Hseen in Hr. destruct (Hcov r Hr) as (g & Hg & Hs).
    exists g. split; [eapply Permutation_in; eauto | exact Hs].
Qed.

Lemma grouped_data_aggregates (df : list UnifiedRow) :
  aggregates df (grouped_data df).
Proof.
  apply (aggregates_ext (rev df ++ []) df (group_by_block df)).
  - intros r. rewrite app_nil_r. symmetry. apply in_rev.
  - symmetry. apply order_by_perm.
  - apply aggregates_fold. split; [constructor | split; intros ? []].
Qed.

Lemma by_block_timestamp_total (a b : GroupedRow) :
  by_block_timestamp a b = false -> by_block_timestamp b a = true.
Proof.
  unfold by_block_timestamp.
  rewrite orb_false_iff, andb_false_iff, orb_true_iff, andb_true_iff.
  rewrite !Z.ltb_ge, !Z.ltb_lt, !Z.eqb_neq, !Z.eqb_eq, Z.leb_gt, Z.leb_le. lia.
Qed.

Lemma by_block_timestamp_trans (a b c : GroupedRow) :
  by_block_timestamp a b = true -> by_block_timestamp b c = true ->
  by_block_timestamp a c = true.
Proof.
  unfold by_block_timestamp.
  rewrite !orb_true_iff, !andb_true_iff, !Z.ltb_lt, !Z.eqb_eq, !Z.leb_le. lia.
Qed.

Lemma by_block_timestamp_by_block (a b : GroupedRow) :
  by_block_timestamp a b = true -> by_block a b = true.
Proof.
  unfold by_block_timestamp, by_block.
  rewrite !orb_true_iff, !andb_true_iff, !Z.ltb_lt, !Z.eqb_eq, !Z.leb_le. lia.
Qed.

Lemma grouped_data_sorted (df : list UnifiedRow) :
  StronglySorted (fun a b => by_block a b = true) (grouped_data df).
Proof.
  eapply StronglySorted_impl; [apply by_block_timestamp_by_block|].
  apply order_by_strongly_sorted;
    [apply by_block_timestamp_total | apply by_block_timestamp_trans].
Qed.

(** The window [ORDER BY block_number] finds its input already in order. *)
Lemma window_order (df : list UnifiedRow) :
  order_by by_block (grouped_data df) = grouped_data df.
Proof.
  apply order_by_sorted_id, StronglySorted_Sorted, grouped_data_sorted.
Qed.

Lemma block_times_from (gs : list GroupedRow) :
  forall prev i bt,
    nth_error
      (map (fun gp : GroupedRow * option Z =>
              let (g, p) := gp in
              mkBlockTime (g_block_number g) (g_timestamp g) (g_unix_timestamp g) p
                (coalesce_diff (g_unix_timestamp g) p))
           (combine gs (lag prev (map g_unix_timestamp gs)))) i = Some bt ->
    exists g,
      nth_error gs i = Some g
      /\ bt_block_number bt = g_block_number g
      /\ bt_timestamp bt = g_timestamp g
      /\ bt_unix_timestamp bt = g_unix_timestamp g
      /\ match i with
         | O => bt_unix_prev_timestamp bt = prev
                /\ time_diff_in_seconds bt = coalesce_diff (g_unix_timestamp g) prev
         | S j =>
             exists g',
               nth_error gs j = Some g'
               /\ bt_unix_prev_timestamp bt = Some (g_unix_timestamp g')
               /\ time_diff_in_seconds bt = g_unix_timestamp g - g_unix_timestamp g'
         end.
Proof.
  induction gs as [|g gs IH]; intros prev i bt H.
  - destruct i; discriminate.
  - destruct i as [|i]; simpl in H.
    + injection H as <-. exists g. simpl. repeat split; reflexivity.
    + destruct (IH _ _ _ H) as (g1 & Hg1 & Hb & Ht & Hu & Hi).
      exists g1. simpl. repeat (split; [assumption|]).
      destruct i as [|i].
      * exists g. simpl. destruct Hi as (Hp & Hd).
        split; [reflexivity|]. split; [exact Hp | exact Hd].
      * exact Hi.
Qed.

Lemma time_between_blocks_length (df : list UnifiedRow) :
  List.length (time_between_blocks df) = List.length (grouped_data df).
Proof.
  unfold time_between_blocks, timediff_data. rewrite window_order.
  rewrite length_map, length_combine.
  assert (Hlag : forall (xs : list Z) prev, List.length (lag prev xs) = List.length xs).
  { induction xs as [|x xs IHx]; intros prev; simpl; [reflexivity | now rewrite IHx]. }
  rewrite Hlag, length_map. apply Nat.min_id.
Qed.

(** ** Time between blocks *)

(** C4: the query forms one group per (block_number, timestamp) of the
    unified view, holding the greatest epoch timestamp of the group, lists
    the groups by block number, and gives each group the difference between
    its epoch timestamp and the one of the group just before it, 0 for the
    first group; the monitoring query keeps exactly the groups whose
    difference is greater than 12. On blocks with epoch timestamps 100,
    105, 130 and 131 the differences are 0, 5, 25 and 1 and only the
    25-second gap is kept. *)
Theorem time_between_blocks_gaps :
  (forall df,
      aggregates df (grouped_data df)
      /\ StronglySorted (fun a b => g_block_number a <= g_block_number b) (grouped_data df)
      /\ List.length (time_between_blocks df) = List.length (grouped_data df)
      /\ (forall i bt,
             nth_error (time_between_blocks df) i = Some bt ->
             exists g,
               nth_error (grouped_data df) i = Some g
               /\ bt_block_number bt = g_block_number g
               /\ bt_timestamp bt = g_timestamp g
               /\ bt_unix_timestamp bt = g_unix_timestamp g
               /\ match i with
                  | O => bt_unix_prev_timestamp bt = None
                         /\ time_diff_in_seconds bt = 0
                  | S j =>
                      exists g',
                        nth_error (grouped_data df) j = Some g'
                        /\ bt_unix_prev_timestamp bt = Some (g_unix_timestamp g')
                        /\ time_diff_in_seconds bt
                           = g_unix_timestamp g - g_unix_timestamp g'
                  end)
      /\ block_times_monitoring_rows (time_between_blocks df)
         = filter (fun bt => 12 <? time_diff_in_seconds bt) (time_between_blocks df)
      /\ (forall bt, In bt (block_times_monitoring_rows (time_between_blocks df))
                     <-> In bt (time_between_blocks df) /\ 12 < time_diff_in_seconds bt))
  /\ map bt_unix_timestamp (time_between_blocks four_blocks) = [100; 105; 130; 131]
  /\ map time_diff_in_seconds (time_between_blocks four_blocks) = [0; 5; 25; 1]
  /\ block_times_monitoring (time_between_blocks four_blocks)
     = [(3, cet_timestamp 130, 130, Some 105)].
Proof.
  split; [|repeat split; reflexivity].
  intros df. split; [apply grouped_data_aggregates|].
  split; [|split; [apply time_between_blocks_length|split; [|split]]].
  - eapply StronglySorted_impl; [|apply grouped_data_sorted].
    intros a b. unfold by_block. apply Z.leb_le.
  - intros i bt H. unfold time_between_blocks, timediff_data in H.
    rewrite window_order in H.
    destruct (block_times_from _ _ _ _ H) as (g & Hg & Hb & Ht & Hu & Hi).
    exists g. repeat (split; [assumption|]).
    destruct i; [exact Hi | exact Hi].
  - reflexivity.
  - intros bt. unfold block_times_monitoring_rows.
    rewrite filter_In, Z.ltb_lt. reflexivity.
Qed.

Lemma time_between_blocks_gaps_witness :
  exists g,
    nth_error (grouped_data four_blocks) 2 = Some g
    /\ g_block_number g = 3
    /\ exists g',
         nth_error (grouped_data four_blocks) 1 = Some g'
         /\ 25 = g_unix_timestamp g - g_unix_timestamp g'.
Proof.
  destruct time_between_blocks_gaps as (H & _).
  destruct (H four_blocks) as (_ & _ & _ & Hnth & _).
  destruct (Hnth 2%nat (mkBlockTime 3 (cet_timestamp 130) 130 (Some 105) 25) eq_refl)
    as (g & Hg & Hb & _ & _ & g' & Hg' & _ & Hd).
  exists g. split; [exact Hg|]. split; [symmetry; exact Hb|].
  exists g'. split; [exact Hg' | exact Hd].
Defined.

(* ================================================================== *)
(** * Further properties of the extraction *)
(* ================================================================== *)

Section ExtractionShape.

Variable w3 : Web3.

Lemma transaction_record_columns (n : Z) (block : Block) (tx : TxBody)
    (r : TransactionRecord) :
  transaction_record w3 n block tx = Ok r ->
  chain_columns r = expected_columns (n, block) tx
  /\ exists receipt,
       get_transaction_receipt (eth w3) (tx_hash tx) = Ok receipt
       /\ t_gas_used r = gasUsed receipt
       /\ int_truediv (tx_gasPrice tx) wei_to_eth = Ok (t_gas_price r)
       /\ int_truediv (tx_value tx) wei_to_eth = Ok (t_value r).
Proof.
  unfold transaction_record. intros H.
  apply bind_ok in H. destruct H as (rc & Hrc & H).
  apply bind_ok in H. destruct H as (gas_price & Hprice & H).
  apply bind_ok in H. destruct H as (gas_fee & Hfee & H).
  apply bind_ok in H. destruct H as (value & Hvalue & H).
  injection H as <-. split; [reflexivity|]. exists rc. simpl. auto.
Qed.

Lemma Forall2_columns (n : Z) (block : Block) (txs : list TxBody)
    (recs : list TransactionRecord) :
  Forall2 (fun tx r => transaction_record w3 n block tx = Ok r) txs recs ->
  map chain_columns recs = map (expected_columns (n, block)) txs.
Proof.
  induction 1 as [|tx r txs recs Hr _ IH]; simpl; [reflexivity|].
  rewrite IH. f_equal. apply (transaction_record_columns _ _ _ _ Hr).
Qed.

Lemma blocks_loop_shape (ns : list Z) :
  forall acc out,
    blocks_loop w3 ns acc = Ok out ->
    exists blocks recs,
      out = acc ++ recs
      /\ Forall2 (fun n block => get_block (eth w3) n true = Ok block) ns blocks
      /\ map chain_columns recs
         = flat_map (fun nb => map (expected_columns nb) (b_transactions (snd nb)))
                    (combine ns blocks)
      /\ List.length recs
         = list_sum (map (fun block => List.length (b_transactions block)) blocks).
Proof.
  induction ns as [|n ns IH]; intros acc out H; simpl in H.
  - injection H as <-. exists [], []. rewrite app_nil_r.
    repeat split; constructor.
  - destruct (get_block (eth w3) n true) as [block|e] eqn:Hb; simpl in H;
      [|discriminate].
    apply bind_ok in H. destruct H as (acc' & Hloop & Hrest).
    apply transactions_loop_ok in Hloop. destruct Hloop as (recs1 & -> & Hall).
    destruct (IH _ _ Hrest) as (blocks & recs2 & -> & Hblocks & Hcols & Hlen).
    exists (block :: blocks), (recs1 ++ recs2). rewrite app_assoc.
    split; [reflexivity|]. split; [constructor; assumption|]. split.
    + rewrite map_app, Hcols. simpl. f_equal. apply Forall2_columns, Hall.
    + rewrite length_app, Hlen. simpl. f_equal.
      apply Forall2_length in Hall. symmetry. exact Hall.
Qed.

End ExtractionShape.

(** When the extraction succeeds it has read every block of the range, and
    it returns one record per transaction, block after block in ascending
    order and, inside a block, in the order of the block; each record
    carries the number and the timestamp of its block and the hash, sender
    and receiver of its transaction. *)
Theorem extraction_keeps_chain_order (w3 : Web3) (a b : Z)
    (recs : list TransactionRecord) :
  get_transactions w3 a b = Ok recs ->
  exists blocks,
    Forall2 (fun n block => get_block (eth w3) n true = Ok block)
            (range a (b + 1)) blocks
    /\ map chain_columns recs
       = flat_map (fun nb => map (expected_columns nb) (b_transactions (snd nb)))
                  (combine (range a (b + 1)) blocks)
    /\ List.length recs
       = list_sum (map (fun block => List.length (b_transactions block)) blocks).
Proof.
  unfold get_transactions. intros H.
  apply blocks_loop_shape in H.
  destruct H as (blocks & recs' & Heq & Hblocks & Hcols & Hlen).
  simpl in Heq. subst recs'. exists blocks. auto.
Qed.

Lemma extraction_keeps_chain_order_witness :
  exists blocks,
    Forall2 (fun n block => get_block eth_ok n true = Ok block) (range 7 (7 + 1)) blocks
    /\ map chain_columns [record_a; record_b]
       = flat_map (fun nb => map (expected_columns nb) (b_transactions (snd nb)))
                  (combine (range 7 (7 + 1)) blocks)
    /\ List.length [record_a; record_b]
       = list_sum (map (fun block => List.length (b_transactions block)) blocks).
Proof.
  apply (extraction_keeps_chain_order (mkWeb3 true eth_ok) 7 7 [record_a; record_b]).
  vm_compute. reflexivity.
Defined.

(** A range whose last block lies before its first one is empty: the
    extraction returns no record and asks the client for nothing, whatever
    the client would answer. *)
Theorem empty_range_extracts_nothing (w3 : Web3) (a b : Z) :
  b < a -> get_transactions w3 a b = Ok [].
Proof.
  intros H. unfold get_transactions, range.
  replace (Z.to_nat (b + 1 - a)) with 0%nat by lia. reflexivity.
Qed.

Lemma empty_range_extracts_nothing_witness :
  get_transactions (mkWeb3 true eth_fail_a) 8 7 = Ok [].
Proof.
  apply (empty_range_extracts_nothing (mkWeb3 true eth_fail_a) 8 7). lia.
Defined.

Lemma wei_to_eth_pos : 0 < wei_to_eth.
Proof.
  reflexivity.
Qed.

(** When the amounts served by the client (value, gas price, gas used) are
    non-negative, every extracted record holds a finite non-negative value
    and gas price, a non-negative amount of gas and a non-negative gas
    fee. *)
Theorem extracted_amounts_nonneg (w3 : Web3) (a b : Z)
    (recs : list TransactionRecord) (r : TransactionRecord) :
  amounts_nonneg w3 ->
  get_transactions w3 a b = Ok recs ->
  In r recs ->
  float_sign_is false (t_value r) = true /\ float_finite (t_value r) = true
  /\ float_sign_is false (t_gas_price r) = true /\ float_finite (t_gas_price r) = true
  /\ 0 <= t_gas_used r
  /\ float_nonneg (t_gas_fee r) = true.
Proof.
  intros (Hamounts & Hgas) Hget Hr. unfold get_transactions in Hget.
  apply blocks_loop_ok in Hget. destruct Hget as (_ & recs' & Heq & Hrecs).
  simpl in Heq. subst recs'.
  destruct (Hrecs r Hr) as (m & block & tx & _ & Hb & Htx & Hrec).
  destruct (transaction_record_columns _ _ _ _ _ Hrec)
    as (_ & rc & Hrc & Hused & Hprice & Hvalue).
  destruct (Hamounts m block tx Hb Htx) as (Hv & Hp).
  destruct (int_truediv_nonneg _ _ _ Hv wei_to_eth_pos Hvalue) as (Hvs & Hvf).
  destruct (int_truediv_nonneg _ _ _ Hp wei_to_eth_pos Hprice) as (Hps & Hpf).
  assert (Hu : 0 <= t_gas_used r) by (rewrite Hused; eapply Hgas; eauto).
  repeat (split; [assumption|]).
  destruct (transaction_record_fee _ _ _ _ _ Hrec) as (Hfee & _).
  apply (float_mul_int_nonneg (t_gas_price r) (t_gas_used r)); auto.
  apply float_sign_nonneg, Hps.
Qed.

Lemma extracted_amounts_nonneg_witness :
  float_sign_is false (t_value record_b) = true /\ float_finite (t_value record_b) = true
  /\ float_sign_is false (t_gas_price record_b) = true
  /\ float_finite (t_gas_price record_b) = true
  /\ 0 <= t_gas_used record_b
  /\ float_nonneg (t_gas_fee record_b) = true.
Proof.
  apply (extracted_amounts_nonneg (mkWeb3 true eth_ok) 7 7 [record_a; record_b]).
  - split.
    + intros n block tx Hb Htx. simpl in Hb. unfold blocks_7 in Hb.
      destruct (n =? 7); [|discriminate]. injection Hb as <-.
      destruct Htx as [<-|[<-|[]]]; simpl; lia.
    + intros h receipt H. simpl in H. injection H as <-. simpl. lia.
  - vm_compute. reflexivity.
  - simpl. auto.
Defined.

(* ================================================================== *)
(** * Further properties of the transfer logs *)
(* ================================================================== *)

Lemma nth_error_index {A : Type} (l : list A) (i : nat) :
  (exists x, nth_error l i = Some x) <-> (i < List.length l)%nat.
Proof.
  rewrite <- nth_error_Some. destruct (nth_error l i) as [x|]; split;
    intros H; try congruence; eauto. destruct H. discriminate.
Qed.

Lemma value_usdt_decimal_defined (raw : Z) :
  0 <= raw ->
  (exists d, value_usdt_decimal raw = Ok d) <-> raw < 10 ^ 32 - 5000.
Proof.
  intros Hraw. split.
  - intros (d & Hd). destruct (Z.lt_ge_cases raw (10 ^ 32 - 5000)) as [H|H]; [exact H|].
    destruct (value_usdt_decimal_too_large raw H) as (e & He). congruence.
  - intros H. eexists. apply value_usdt_decimal_eq. lia.
Qed.

(** A transfer log is decoded exactly when its payload, read as a
    big-endian integer, is below [10^32 - 5000], its block can be fetched
    and it has at least three topics; in every other case the decoding
    raises. *)
Theorem log_decoded_iff (w3 : Web3) (log : LogEntry) :
  (exists r, transfer_log_record w3 log = Ok r)
  <-> int_from_bytes_big (data log) < 10 ^ 32 - 5000
      /\ (exists block, get_block (eth w3) (blockNumber log) false = Ok block)
      /\ (3 <= List.length (topics log))%nat.
Proof.
  pose proof (int_from_bytes_big_nonneg (data log)) as Hnn.
  unfold transfer_log_record. split.
  - intros (r & H).
    apply bind_ok in H. destruct H as (v & Hv & H).
    apply bind_ok in H. destruct H as (block & Hb & H).
    apply bind_ok in H. destruct H as (t1 & Ht1 & H).
    apply bind_ok in H. destruct H as (t2 & Ht2 & _).
    split; [apply value_usdt_decimal_defined; eauto|]. split; [eauto|].
    unfold list_index in Ht2.
    destruct (nth_error (topics log) 2) as [x|] eqn:E; [|discriminate].
    assert (2 < List.length (topics log))%nat by (apply nth_error_index; eauto). lia.
  - intros (Hv & (block & Hb) & Hlen).
    apply value_usdt_decimal_defined in Hv; [|exact Hnn]. destruct Hv as (d & ->).
    rewrite Hb. simpl. unfold list_index.
    destruct (proj2 (nth_error_index (topics log) 1) ltac:(lia)) as (t1 & ->).
    destruct (proj2 (nth_error_index (topics log) 2) ltac:(lia)) as (t2 & ->).
    simpl. eauto.
Qed.

Section LogsShape.

Variable w3 : Web3.

Lemma logs_loop_ok (logs : list LogEntry) :
  forall acc out,
    logs_loop w3 logs acc = Ok out ->
    exists recs,
      out = acc ++ recs
      /\ Forall2 (fun log r => transfer_log_record w3 log = Ok r) logs recs.
Proof.
  induction logs as [|log logs IH]; intros acc out H; simpl in H.
  - injection H as <-. exists []. rewrite app_nil_r. split; constructor.
  - destruct (transfer_log_record w3 log) as [r|e] eqn:Hr; simpl in H;
      [|discriminate].
    destruct (IH _ _ H) as (recs & -> & Hall).
    exists (r :: recs). rewrite <- app_assoc. split; [reflexivity|].
    constructor; assumption.
Qed.

Lemma logs_loop_raise (logs : list LogEntry) :
  forall acc k,
    logs_loop w3 logs acc = Raise k ->
    exists pre log post e,
      logs = pre ++ log :: post
      /\ Forall (fun l => is_ok (transfer_log_record w3 l) = true) pre
      /\ transfer_log_record w3 log = Raise e
      /\ k = log_error log e.
Proof.
  induction logs as [|log logs IH]; intros acc k H; simpl in H.
  - discriminate.
  - destruct (transfer_log_record w3 log) as [r|e] eqn:Hr; simpl in H.
    + destruct (IH _ _ H) as (pre & log' & post & e & -> & Hpre & Hfail & ->).
      exists (log :: pre), log', post, e. split; [reflexivity|].
      split; [|auto]. constructor; [now rewrite Hr | exact Hpre].
    + injection H as <-. exists [], log, logs, e. auto.
Qed.

Lemma logs_loop_first_failure (pre post : list LogEntry) (log : LogEntry) (e : string) :
  Forall (fun l => is_ok (transfer_log_record w3 l) = true) pre ->
  transfer_log_record w3 log = Raise e ->
  forall acc, logs_loop w3 (pre ++ log :: post) acc = Raise (log_error log e).
Proof.
  intros Hpre Hfail. induction Hpre as [|l pre Hl _ IH]; intros acc; simpl.
  - rewrite Hfail. reflexivity.
  - destruct (transfer_log_record w3 l) as [r|e']; [|discriminate]. simpl. apply IH.
Qed.

End LogsShape.

Lemma transfer_log_record_columns (w3 : Web3) (log : LogEntry) (r : TransferLogRecord) :
  transfer_log_record w3 log = Ok r ->
  l_block_number r = blockNumber log
  /\ l_transaction_hash r = hex (transactionHash log)
  /\ exists block,
       get_block (eth w3) (blockNumber log) false = Ok block
       /\ l_timestamp r = b_timestamp block.
Proof.
  unfold transfer_log_record. intros H.
  apply bind_ok in H. destruct H as (v & Hv & H).
  apply bind_ok in H. destruct H as (block & Hb & H).
  apply bind_ok in H. destruct H as (t1 & Ht1 & H).
  apply bind_ok in H. destruct H as (t2 & Ht2 & H).
  injection H as <-. simpl. eauto.
Qed.

(** When the log extraction succeeds it returns one record per log of the
    answer to the single filter request, in the order of that answer; each
    record carries the block number and the transaction hash of its log
    and the timestamp of the block of that number. *)
Theorem log_extraction_keeps_order (w3 : Web3) (a b : Z)
    (recs : list TransferLogRecord) :
  get_logs_tether w3 a b = Ok recs ->
  exists logs,
    get_logs (eth w3) (filter_params a b) = Ok logs
    /\ Forall2 (fun log r => transfer_log_record w3 log = Ok r) logs recs
    /\ List.length recs = List.length logs
    /\ map l_block_number recs = map blockNumber logs
    /\ map l_transaction_hash recs = map (fun log => hex (transactionHash log)) logs
    /\ Forall2 (fun log r =>
                  exists block,
                    get_block (eth w3) (blockNumber log) false = Ok block
                    /\ l_timestamp r = b_timestamp block) logs recs.
Proof.
  unfold get_logs_tether. intros H.
  destruct (get_logs (eth w3) (filter_params a b)) as [logs|e]; simpl in H;
    [|discriminate].
  apply logs_loop_ok in H. destruct H as (recs' & Heq & Hall).
  simpl in Heq. subst recs'. exists logs. split; [reflexivity|].
  split; [exact Hall|].
  split; [symmetry; eapply Forall2_length, Hall|].
  induction Hall as [|log r logs recs Hr _ IH]; simpl.
  - repeat split; constructor.
  - destruct IH as (Hbn & Hh & Hts).
    destruct (transfer_log_record_columns _ _ _ Hr) as (Hb1 & Hh1 & Ht1).
    rewrite Hbn, Hh, Hb1, Hh1. repeat split. constructor; assumption.
Qed.

Lemma log_extraction_keeps_order_witness :
  exists logs,
    get_logs eth_window (filter_params (-2) 7) = Ok logs
    /\ Forall2 (fun log r => transfer_log_record (mkWeb3 true eth_window) log = Ok r)
               logs [record_dust]
    /\ List.length [record_dust] = List.length logs
    /\ map l_block_number [record_dust] = map blockNumber logs
    /\ map l_transaction_hash [record_dust]
       = map (fun log => hex (transactionHash log)) logs
    /\ Forall2 (fun log r =>
                  exists block,
                    get_block eth_window (blockNumber log) false = Ok block
                    /\ l_timestamp r = b_timestamp block) logs [record_dust].
Proof.
  apply (log_extraction_keeps_order (mkWeb3 true eth_window) (-2) 7 [record_dust]).
  vm_compute. reflexivity.
Defined.

(** The log extraction raises in exactly two ways: the filter request
    fails, and the error is the client's prefixed by "Error fetching
    logs: "; or the request succeeds and some log cannot be decoded, and
    the error is the one of the first such log, all logs before it having
    been decoded. In both cases no record is returned. *)
Theorem log_extraction_fails_fast (w3 : Web3) (a b : Z) (k : string) :
  get_logs_tether w3 a b = Raise k
  <-> (exists e,
          get_logs (eth w3) (filter_params a b) = Raise e
          /\ k = ("Error fetching logs: " ++ e)%string)
      \/ (exists pre log post e,
             get_logs (eth w3) (filter_params a b) = Ok (pre ++ log :: post)
             /\ Forall (fun l => is_ok (transfer_log_record w3 l) = true) pre
             /\ transfer_log_record w3 log = Raise e
             /\ k = log_error log e).
Proof.
  unfold get_logs_tether. split.
  - intros H.
    destruct (get_logs (eth w3) (filter_params a b)) as [logs|e]; simpl in H.
    + right. apply logs_loop_raise in H.
      destruct H as (pre & log & post & e & -> & Hpre & Hfail & ->).
      exists pre, log, post, e. auto.
    + left. injection H as <-. eauto.
  - intros [(e & -> & ->)|(pre & log & post & e & -> & Hpre & Hfail & ->)]; simpl.
    + reflexivity.
    + apply logs_loop_first_failure; assumption.
Qed.

(** ** Addresses and payloads of any length *)

(** Whatever the length of a topic, the address made of it is ["0x"]
    followed by the rendering of its last 20 bytes, or of all its bytes when
    it has fewer: the slice never fails, and the address has 40 digits
    exactly when the topic has at least 20 bytes. *)
Theorem topic_address_any_length (topic : bytes) :
  topic_address topic
  = ("0x" ++ hex (skipn (List.length topic - 20) topic))%string
  /\ String.length (topic_address topic)
     = (2 + 2 * Nat.min 20 (List.length topic))%nat.
Proof.
  assert (Heq : topic_address topic
                = ("0x" ++ hex (skipn (List.length topic - 20) topic))%string).
  { unfold topic_address, last_chars. f_equal. rewrite hex_length.
    destruct (Nat.leb_spec 40 (2 * List.length topic)) as [Hle|Hlt].
    - replace (hex topic)
        with (hex (firstn (List.length topic - 20) topic
                   ++ skipn (List.length topic - 20) topic))
        by (now rewrite firstn_skipn).
      rewrite hex_app.
      assert (H1 : String.length (hex (firstn (List.length topic - 20) topic))
                   = (2 * List.length topic - 40)%nat).
      { rewrite hex_length, length_firstn. lia. }
      assert (H2 : String.length (hex (skipn (List.length topic - 20) topic)) = 40%nat).
      { rewrite hex_length, length_skipn. lia. }
      rewrite <- H1. rewrite <- H2 at 1. apply substring_skip.
    - replace (List.length topic - 20)%nat with 0%nat by lia. reflexivity. }
  split; [exact Heq|].
  rewrite Heq. simpl String.length. rewrite hex_length, length_skipn. lia.
Qed.

Lemma unhex_hex_byte (x : Byte.byte) :
  byte_of_val (16 * hex_value (hex_digit (byte_val x / 16))
               + hex_value (hex_digit (byte_val x mod 16))) = x.
Proof.
  destruct x; reflexivity.
Qed.

Lemma unhex_hex (b : bytes) : unhex (hex b) = b.
Proof.
  induction b as [|x b IH]; [reflexivity|].
  cbn [hex hex_byte append unhex]. rewrite unhex_hex_byte, IH. reflexivity.
Qed.

Lemma hex_injective (a b : bytes) : hex a = hex b <-> a = b.
Proof.
  split; [|now intros ->].
  intros H. rewrite <- (unhex_hex a), <- (unhex_hex b), H. reflexivity.
Qed.

(** The rendering of hashes is faithful: reading the digits back gives the
    bytes again, so two byte strings have the same rendering only when
    they are equal, and the hash columns of the two extractions agree on a
    transaction and a log exactly when their hashes are the same bytes. *)
Theorem hex_round_trip :
  (forall b, unhex (hex b) = b)
  /\ (forall a b, hex a = hex b <-> a = b)
  /\ (forall w3 n block tx t log l,
         transaction_record w3 n block tx = Ok t ->
         transfer_log_record w3 log = Ok l ->
         (t_transaction_hash t = l_transaction_hash l
          <-> tx_hash tx = transactionHash log)).
Proof.
  split; [exact unhex_hex|]. split; [exact hex_injective|].
  intros w3 n block tx t log l Ht Hl.
  destruct (transaction_record_columns _ _ _ _ _ Ht) as (Hc & _).
  destruct (transfer_log_record_columns _ _ _ Hl) as (_ & Hh & _).
  unfold chain_columns, expected_columns in Hc. injection Hc as _ _ Hth _ _.
  rewrite Hth, Hh. apply hex_injective.
Qed.

Lemma hex_round_trip_witness :
  t_transaction_hash record_a = l_transaction_hash record_dust
  <-> tx_hash tx_a = transactionHash log_dust.
Proof.
  destruct hex_round_trip as (_ & _ & H).
  apply (H (mkWeb3 true eth_ok) 7 block_7 tx_a record_a log_dust record_dust);
    reflexivity.
Defined.

Lemma byte_val_bound (b : Byte.byte) : 0 <= byte_val b < 256.
Proof.
  unfold byte_val. pose proof (Byte.to_N_bounded b). lia.
Qed.

Lemma int_from_bytes_big_bound (bs : bytes) :
  0 <= int_from_bytes_big bs < 256 ^ Z.of_nat (List.length bs).
Proof.
  induction bs as [|b bs IH].
  - unfold int_from_bytes_big. simpl. lia.
  - rewrite int_from_bytes_big_cons. pose proof (byte_val_bound b).
    cbn [List.length]. rewrite Nat2Z.inj_succ, Z.pow_succ_r by lia. nia.
Qed.

(** A payload of [n] bytes is read as an integer of [0 .. 256^n - 1]; with
    at most 32 bytes it is therefore always inside the range accepted by
    [from_wei], whose range error can only come from a longer payload. *)
Theorem payload_within_range (data : bytes) :
  0 <= int_from_bytes_big data < 256 ^ Z.of_nat (List.length data)
  /\ ((List.length data <= 32)%nat ->
      exists d, from_wei_mwei (int_from_bytes_big data) = Ok d
                /\ Decimal_to_Q d == inject_Z (int_from_bytes_big data) / inject_Z (10 ^ 6)).
Proof.
  pose proof (int_from_bytes_big_bound data) as Hb.
  split; [exact Hb|]. intros Hlen. unfold from_wei_mwei.
  destruct (Z.eqb_spec (int_from_bytes_big data) 0) as [->|Hnz].
  - exists (mkDecimal 0 0). split; reflexivity.
  - assert (Hmax : 256 ^ Z.of_nat (List.length data) <= MAX_WEI + 1).
    { change (MAX_WEI + 1) with (256 ^ 32).
      apply Z.pow_le_mono_r; lia. }
    replace (int_from_bytes_big data <? 0) with false
      by (symmetry; apply Z.ltb_ge; lia).
    replace (MAX_WEI <? int_from_bytes_big data) with false
      by (symmetry; apply Z.ltb_ge; lia).
    simpl. eexists. split; reflexivity.
Qed.

Lemma payload_within_range_witness :
  exists d, from_wei_mwei (int_from_bytes_big (data log_dust)) = Ok d
            /\ Decimal_to_Q d
               == inject_Z (int_from_bytes_big (data log_dust)) / inject_Z (10 ^ 6).
Proof.
  apply (payload_within_range (data log_dust)). simpl. lia.
Defined.

Lemma div_half_even_mono (n1 n2 d : Z) :
  0 < d -> n1 <= n2 -> div_half_even n1 d <= div_half_even n2 d.
Proof.
  intros Hd Hn. unfold div_half_even.
  pose proof (Z.div_mod n1 d ltac:(lia)) as H1.
  pose proof (Z.div_mod n2 d ltac:(lia)) as H2.
  pose proof (Z.mod_pos_bound n1 d Hd) as Hr1.
  pose proof (Z.mod_pos_bound n2 d Hd) as Hr2.
  pose proof (Z.div_le_mono n1 n2 d Hd Hn) as Hq.
  destruct (Z.eq_dec (n1 / d) (n2 / d)) as [Heq|Hne].
  - rewrite Heq in *.
    destruct (Z.ltb_spec (2 * (n1 mod d)) d), (Z.ltb_spec (2 * (n2 mod d)) d),
      (Z.ltb_spec d (2 * (n1 mod d))), (Z.ltb_spec d (2 * (n2 mod d)));
      destruct (Z.even (n2 / d)); lia.
  - destruct (Z.ltb_spec (2 * (n1 mod d)) d), (Z.ltb_spec (2 * (n2 mod d)) d),
      (Z.ltb_spec d (2 * (n1 mod d))), (Z.ltb_spec d (2 * (n2 mod d)));
      destruct (Z.even (n1 / d)), (Z.even (n2 / d)); lia.
Qed.

(** The rounding to cents keeps the order of the amounts: a payload that is
    not smaller gives a token value that is not smaller. *)
Theorem token_value_monotone (raw1 raw2 : Z) (d1 d2 : Decimal) :
  0 <= raw1 <= raw2 ->
  value_usdt_decimal raw1 = Ok d1 ->
  value_usdt_decimal raw2 = Ok d2 ->
  scale d1 = 2 /\ scale d2 = 2 /\ unscaled d1 <= unscaled d2
  /\ Qle (Decimal_to_Q d1) (Decimal_to_Q d2).
Proof.
  intros Hraw H1 H2.
  apply value_usdt_decimal_ok in H1; [|lia]. apply value_usdt_decimal_ok in H2; [|lia].
  subst d1 d2. simpl scale. simpl unscaled.
  pose proof (div_half_even_mono raw1 raw2 (10 ^ 4) ltac:(reflexivity) ltac:(lia)) as Hm.
  repeat split; try exact Hm.
  revert Hm. generalize (div_half_even raw1 (10 ^ 4)), (div_half_even raw2 (10 ^ 4)).
  intros c1 c2 Hm.
  unfold Decimal_to_Q, Qle, Qdiv, Qmult, Qinv, inject_Z. simpl. lia.
Qed.

Lemma token_value_monotone_witness :
  scale (mkDecimal 0 2) = 2 /\ scale (mkDecimal 123 2) = 2
  /\ unscaled (mkDecimal 0 2) <= unscaled (mkDecimal 123 2)
  /\ Qle (Decimal_to_Q (mkDecimal 0 2)) (Decimal_to_Q (mkDecimal 123 2)).
Proof.
  apply (token_value_monotone 1 1234567); [lia | reflexivity | reflexivity].
Defined.

(* ================================================================== *)
(** * Further properties of the join *)
(* ================================================================== *)

Lemma filter_per_transaction {T R : Type} (rows_of : T -> list R) (keep : R -> bool)
    (ts : list T) :
  flat_map (fun t => filter keep (rows_of t)) ts = filter keep (flat_map rows_of ts).
Proof.
  induction ts as [|t ts IH]; simpl; [reflexivity|].
  now rewrite filter_app, IH.
Qed.

Lemma list_sum_cons (x : nat) (l : list nat) : list_sum (x :: l) = (x + list_sum l)%nat.
Proof.
  reflexivity.
Qed.

Section JoinCounts.

Variable ROUND : float -> Z -> float.
Variable local_timestamp : Z -> Z.

Local Abbreviation select := (select_unified ROUND local_timestamp).
Local Abbreviation join_rows := (left_join_rows ROUND local_timestamp).
Local Abbreviation join := (df_transactions_complete ROUND local_timestamp).

Lemma join_rows_length (t : TransactionRecord) (logs : list TransferLogRecord) :
  List.length (join_rows t logs)
  = Nat.max 1 (List.length (filter (on_condition t) logs)).
Proof.
  destruct (join_rows_cases ROUND local_timestamp t logs) as [(He & ->)|(Hne & ->)].
  - rewrite He. reflexivity.
  - rewrite length_map. destruct (filter (on_condition t) logs); [congruence|].
    simpl. lia.
Qed.

Lemma join_rows_clean (t : TransactionRecord) (logs : list TransferLogRecord) :
  filter (fun r => is_not_null (log_value_usdt r)) (join_rows t logs)
  = map (fun l => select t (Some l)) (filter (on_condition t) logs).
Proof.
  destruct (join_rows_cases ROUND local_timestamp t logs) as [(He & ->)|(Hne & ->)].
  - rewrite He. reflexivity.
  - clear Hne. generalize (filter (on_condition t) logs) as ms.
    induction ms as [|l ms IH]; [reflexivity|].
    simpl. f_equal. exact IH.
Qed.

(** The unified view holds one row per transaction exactly when no
    transaction matches more than one transfer log; every further matching
    log adds a row, so that the "number of total transactions" counts a
    transaction with several transfers several times. *)
Theorem join_row_count (transactions : list TransactionRecord)
    (logs_tether : list TransferLogRecord) :
  total_transactions (join transactions logs_tether)
  = Z.of_nat (list_sum (map (fun t => Nat.max 1 (List.length
                                        (filter (on_condition t) logs_tether)))
                            transactions))
  /\ (total_transactions (join transactions logs_tether)
      = Z.of_nat (List.length transactions)
      <-> forall t, In t transactions ->
                    (List.length (filter (on_condition t) logs_tether) <= 1)%nat).
Proof.
  unfold total_transactions. rewrite join_length.
  assert (Hsum : list_sum (map (fun t => List.length (join_rows t logs_tether))
                               transactions)
                 = list_sum (map (fun t => Nat.max 1 (List.length
                                             (filter (on_condition t) logs_tether)))
                                 transactions)).
  { f_equal. apply map_ext. intros t. apply join_rows_length. }
  rewrite Hsum. split; [reflexivity|]. rewrite Nat2Z.inj_iff. clear Hsum.
  induction transactions as [|t ts IH];
    cbn [map List.length]; rewrite ?list_sum_cons.
  - split; [intros _ ? [] | reflexivity].
  - assert (Hge : (List.length ts
                   <= list_sum (map (fun t => Nat.max 1 (List.length
                                              (filter (on_condition t) logs_tether)))
                                    ts))%nat).
    { clear. induction ts as [|t ts IH];
        cbn [map List.length]; rewrite ?list_sum_cons; [simpl|]; lia. }
    split.
    + intros H t' [<-|Ht']; [lia|]. apply IH; [lia | exact Ht'].
    + intros H. pose proof (H t (or_introl eq_refl)).
      assert (Hts : list_sum (map (fun t => Nat.max 1 (List.length
                                             (filter (on_condition t) logs_tether)))
                                  ts) = List.length ts).
      { apply IH. intros t' Ht'. apply H. now right. }
      lia.
Qed.

(** The rows of the token-only view are, counted with their repetitions
    and in whatever order, one row per pair of a transaction and a transfer
    log that satisfy the join condition, and its row count is the number of
    such pairs; without any transfer log the rows of the unified view are
    one null-extended row per transaction and the token-only view is
    empty. *)
Theorem token_only_rows (transactions : list TransactionRecord)
    (logs_tether : list TransferLogRecord) :
  Permutation
    (df_logs_tether_clean (join transactions logs_tether))
    (flat_map (fun t => map (fun l => select t (Some l))
                            (filter (on_condition t) logs_tether))
              transactions)
  /\ erc_20_total_transactions (df_logs_tether_clean (join transactions logs_tether))
     = Z.of_nat (list_sum (map (fun t => List.length
                                           (filter (on_condition t) logs_tether))
                               transactions))
  /\ Permutation (join transactions []) (map (fun t => select t None) transactions)
  /\ df_logs_tether_clean (join transactions []) = [].
Proof.
  assert (Hclean : df_logs_tether_clean (join transactions logs_tether)
                   = flat_map (fun t => map (fun l => select t (Some l))
                                            (filter (on_condition t) logs_tether))
                              transactions).
  { unfold df_logs_tether_clean, df_transactions_complete.
    rewrite <- filter_per_transaction. apply flat_map_ext. intros t.
    apply join_rows_clean. }
  split; [rewrite Hclean; reflexivity|]. split; [|split].
  - unfold erc_20_total_transactions. rewrite Hclean. f_equal.
    clear. induction transactions as [|t ts IH]; simpl; [reflexivity|].
    rewrite length_app, length_map, IH. reflexivity.
  - clear Hclean. unfold df_transactions_complete.
    induction transactions as [|t ts IH]; simpl; [reflexivity|]. now rewrite IH.
  - clear Hclean. unfold df_logs_tether_clean, df_transactions_complete.
    induction transactions as [|t ts IH]; simpl; [reflexivity | exact IH].
Qed.

(** A row built from a decoded transfer log whose topics 1 and 2 are 32
    bytes long is counted as a burn exactly when the low 20 bytes of
    topic 2 are all zero and those of topic 1 are not. *)
Theorem burn_in_terms_of_topics (w3 : Web3) (log : LogEntry) (l : TransferLogRecord)
    (t : TransactionRecord) (topic1 topic2 : bytes) :
  transfer_log_record w3 log = Ok l ->
  nth_error (topics log) 1 = Some topic1 ->
  nth_error (topics log) 2 = Some topic2 ->
  List.length topic1 = 32%nat ->
  List.length topic2 = 32%nat ->
  is_burn (select t (Some l)) = true
  <-> skipn 12 topic2 = repeat Byte.x00 20 /\ skipn 12 topic1 <> repeat Byte.x00 20.
Proof.
  intros H Ht1 Ht2 Hl1 Hl2. unfold transfer_log_record in H.
  apply bind_ok in H. destruct H as (v & Hv & H).
  apply bind_ok in H. destruct H as (block_info & _ & H).
  unfold list_index in H. rewrite Ht1, Ht2 in H. simpl in H.
  injection H as <-. unfold is_burn, select_unified.
  cbn [log_to_address log_from_address option_map l_from_address l_to_address].
  rewrite (topic_address_low_bytes topic1 Hl1), (topic_address_low_bytes topic2 Hl2).
  change zero_address with ("0x" ++ hex (repeat Byte.x00 20))%string.
  rewrite andb_true_iff, negb_true_iff, String.eqb_eq, string_eqb_false.
  assert (Hpre : forall x y, ("0x" ++ hex x)%string = ("0x" ++ hex y)%string <-> x = y).
  { intros x y. rewrite <- hex_injective. simpl. split; intros E; congruence. }
  rewrite !Hpre. reflexivity.
Qed.

End JoinCounts.

Lemma join_row_count_witness :
  total_transactions (df_transactions_complete half_up_ROUND cet_timestamp
                        [record_a; record_b] [record_dust])
  = Z.of_nat (List.length [record_a; record_b]).
Proof.
  destruct (join_row_count half_up_ROUND cet_timestamp
              [record_a; record_b] [record_dust]) as (_ & H).
  apply H. intros t [<-|[<-|[]]]; vm_compute; lia.
Defined.

Lemma burn_in_terms_of_topics_witness :
  is_burn (select_unified half_up_ROUND cet_timestamp record_a (Some record_dust)) = true
  <-> skipn 12 (topic_of Byte.x00) = repeat Byte.x00 20
      /\ skipn 12 (topic_of Byte.xaa) <> repeat Byte.x00 20.
Proof.
  apply (burn_in_terms_of_topics half_up_ROUND cet_timestamp (mkWeb3 true eth_ok)
           log_dust record_dust record_a (topic_of Byte.xaa) (topic_of Byte.x00));
    reflexivity.
Defined.

(* ================================================================== *)
(** * Properties of the counting queries *)
(* ================================================================== *)

Section GroupCountFacts.

Context {A K : Type}.
Variable key_eqb : K -> K -> bool.
Variable key : A -> K.
Hypothesis key_eqb_eq : forall a b, key_eqb a b = true <-> a = b.

Lemma key_eqb_refl (k : K) : key_eqb k k = true.
Proof.
  now apply key_eqb_eq.
Qed.

Lemma key_eqb_neq (a b : K) : key_eqb a b = false <-> a <> b.
Proof.
  rewrite <- key_eqb_eq. destruct (key_eqb a b); split; congruence.
Qed.

Lemma count_into_spec (k : K) (groups : list (K * Z)) :
  (exists pre n post,
      groups = pre ++ (k, n) :: post
      /\ count_into key_eqb k groups = pre ++ (k, n + 1) :: post)
  \/ (~ In k (map fst groups)
      /\ count_into key_eqb k groups = groups ++ [(k, 1)]).
Proof.
  induction groups as [|[k' n] groups IH]; simpl.
  - right. split; [tauto | reflexivity].
  - destruct (key_eqb k k') eqn:Hk.
    + apply key_eqb_eq in Hk. subst k'. left. exists [], n, groups. auto.
    + apply key_eqb_neq in Hk.
      destruct IH as [(pre & m & post & -> & ->)|(Hnone & ->)].
      * left. exists ((k', n) :: pre), m, post. auto.
      * right. split; [|reflexivity]. intros [H|H]; [congruence | tauto].
Qed.

Lemma group_count_snoc (rows : list A) (r : A) :
  group_count key_eqb key (rows ++ [r])
  = count_into key_eqb (key r) (group_count key_eqb key rows).
Proof.
  unfold group_count. rewrite fold_left_app. reflexivity.
Qed.

Lemma occurrences_snoc (k : K) (rows : list A) (r : A) :
  occurrences key_eqb key k (rows ++ [r])
  = occurrences key_eqb key k rows + (if key_eqb (key r) k then 1 else 0).
Proof.
  unfold occurrences. rewrite filter_app, length_app. simpl.
  destruct (key_eqb (key r) k); simpl; lia.
Qed.

Lemma occurrences_pos (k : K) (rows : list A) :
  1 <= occurrences key_eqb key k rows <-> exists r, In r rows /\ key r = k.
Proof.
  unfold occurrences. split.
  - intros H.
    destruct (filter (fun r => key_eqb (key r) k) rows) as [|r l] eqn:E;
      [simpl in H; lia|].
    assert (Hr : In r (filter (fun r => key_eqb (key r) k) rows))
      by (rewrite E; now left).
    apply filter_In in Hr. exists r. split; [tauto|]. now apply key_eqb_eq.
  - intros (r & Hr & Hk).
    assert (Hin : In r (filter (fun r => key_eqb (key r) k) rows)).
    { apply filter_In. split; [exact Hr|]. now apply key_eqb_eq. }
    destruct (filter (fun r => key_eqb (key r) k) rows); [destruct Hin|]. simpl. lia.
Qed.

Lemma occurrences_nonneg (k : K) (rows : list A) : 0 <= occurrences key_eqb key k rows.
Proof.
  unfold occurrences. lia.
Qed.

Lemma counted_step (rows : list A) (groups : list (K * Z)) (r : A) :
  counted key_eqb key rows groups ->
  counted key_eqb key (rows ++ [r]) (count_into key_eqb (key r) groups).
Proof.
  intros (Hnd & Hcount & Hcov).
  destruct (count_into_spec (key r) groups) as [(pre & n & post & -> & ->)|(Hnone & ->)].
  - assert (Hkeys : map fst (pre ++ (key r, n + 1) :: post)
                    = map fst (pre ++ (key r, n) :: post)).
    { rewrite !map_app. reflexivity. }
    split; [|split].
    + rewrite Hkeys. exact Hnd.
    + intros k m Hin. rewrite occurrences_snoc.
      apply in_app_or in Hin.
      assert (Hother : In (k, m) (pre ++ (key r, n) :: post) -> k <> key r ->
                m = occurrences key_eqb key k rows + (if key_eqb (key r) k then 1 else 0)
                /\ 1 <= m).
      { intros Hin' Hne. destruct (Hcount k m Hin') as (-> & Hm).
        replace (key_eqb (key r) k) with false
          by (symmetry; apply key_eqb_neq; congruence).
        lia. }
      assert (Hdistinct : forall k' m', In (k', m') pre \/ In (k', m') post ->
                                         k' <> key r).
      { intros k' m' Hin' ->. rewrite map_app in Hnd. simpl in Hnd.
        apply NoDup_remove_2 in Hnd. apply Hnd, in_or_app.
        destruct Hin' as [H|H]; [left | right];
          apply (in_map fst) in H; exact H. }
      destruct Hin as [Hin|[Heq|Hin]].
      * apply Hother; [apply in_or_app; auto | eapply Hdistinct; eauto].
      * injection Heq as <- <-.
        destruct (Hcount (key r) n (in_elt _ _ _)) as (-> & Hn).
        rewrite key_eqb_refl. lia.
      * apply Hother; [apply in_or_app; simpl; auto | eapply Hdistinct; eauto].
    + intros r' Hr'. rewrite Hkeys. apply in_app_or in Hr'.
      destruct Hr' as [Hr'|[<-|[]]]; [auto|].
      rewrite map_app. apply in_or_app. right. now left.
  - split; [|split].
    + rewrite map_app. simpl. apply NoDup_app; [exact Hnd | repeat constructor; intros [] |].
      intros k Hk [<-|[]]. exact (Hnone Hk).
    + intros k m Hin. rewrite occurrences_snoc. apply in_app_or in Hin.
      destruct Hin as [Hin|[Heq|[]]].
      * destruct (Hcount k m Hin) as (-> & Hm).
        replace (key_eqb (key r) k) with false; [lia|].
        symmetry. apply key_eqb_neq. intros <-.
        apply Hnone. apply (in_map fst) in Hin. exact Hin.
      * injection Heq as <- <-. rewrite key_eqb_refl.
        assert (Hz : ~ 1 <= occurrences key_eqb key (key r) rows).
        { intros H. apply occurrences_pos in H. destruct H as (r' & Hr' & Hk).
          apply Hnone. rewrite <- Hk. apply Hcov, Hr'. }
        pose proof (occurrences_nonneg (key r) rows). lia.
    + intros r' Hr'. rewrite map_app. apply in_or_app. apply in_app_or in Hr'.
      destruct Hr' as [Hr'|[<-|[]]]; [left; auto | right; now left].
Qed.

Lemma group_count_counted (rows : list A) :
  counted key_eqb key rows (group_count key_eqb key rows).
Proof.
  induction rows as [|r rows IH] using rev_ind.
  - split; [constructor | split; [intros ? ? [] | intros ? []]].
  - rewrite group_count_snoc. apply counted_step, IH.
Qed.

End GroupCountFacts.

Lemma count_desc_total {K : Type} (a b : K * Z) :
  count_desc a b = false -> count_desc b a = true.
Proof.
  unfold count_desc. rewrite Z.leb_gt, Z.leb_le. lia.
Qed.

Lemma count_desc_trans {K : Type} (a b c : K * Z) :
  count_desc a b = true -> count_desc b c = true -> count_desc a c = true.
Proof.
  unfold count_desc. rewrite !Z.leb_le. lia.
Qed.

Lemma selection_keys_distinct {K : Type} (keep : K * Z -> bool) (groups : list (K * Z)) :
  NoDup (map fst groups) -> NoDup (map fst (filter keep groups)).
Proof.
  induction groups as [|g groups IH]; simpl; [auto|]. intros H.
  apply NoDup_cons_iff in H. destruct H as (Hnotin & Hnd).
  destruct (keep g); simpl; [|auto]. constructor; [|auto].
  intros Hin. apply Hnotin. apply in_map_iff in Hin.
  destruct Hin as (x & Hx & Hin). apply filter_In in Hin.
  rewrite <- Hx. apply in_map. tauto.
Qed.

Lemma NoDup_firstn {A : Type} (n : nat) (l : list A) : NoDup l -> NoDup (firstn n l).
Proof.
  intros H. rewrite <- (firstn_skipn n l) in H. exact (NoDup_app_remove_r _ _ H).
Qed.

Lemma filter_true {A : Type} (l : list A) : filter (fun _ => true) l = l.
Proof.
  induction l as [|a l IH]; simpl; [reflexivity | now rewrite IH].
Qed.

Section CountReports.

Context {A K : Type}.
Variable key_eqb : K -> K -> bool.
Variable key : A -> K.
Hypothesis key_eqb_eq : forall a b, key_eqb a b = true <-> a = b.

Variable having : Z -> bool.
Variable rows : list A.

Local Abbreviation selected :=
  (filter (fun g : K * Z => having (snd g)) (group_count key_eqb key rows)).

Lemma selected_NoDup : NoDup (map fst (order_by count_desc selected)).
Proof.
  eapply Permutation_NoDup.
  - apply Permutation_map. symmetry. apply order_by_perm.
  - apply selection_keys_distinct.
    apply (group_count_counted key_eqb key key_eqb_eq rows).
Qed.

Lemma selected_In (k : K) (n : Z) :
  In (k, n) (order_by count_desc selected)
  <-> n = occurrences key_eqb key k rows /\ 1 <= n /\ having n = true.
Proof.
  destruct (group_count_counted key_eqb key key_eqb_eq rows) as (Hnd & Hcount & Hcov).
  rewrite order_by_In, filter_In. simpl. split.
  - intros (Hin & Hh). destruct (Hcount k n Hin). auto.
  - intros (-> & Hn & Hh). split; [|exact Hh].
    apply occurrences_pos in Hn; [|exact key_eqb_eq].
    destruct Hn as (r & Hr & <-).
    specialize (Hcov r Hr). apply in_map_iff in Hcov.
    destruct Hcov as ((k', m) & Hk & Hin). simpl in Hk. subst k'.
    destruct (Hcount _ _ Hin) as (-> & _). exact Hin.
Qed.

Lemma selected_sorted :
  StronglySorted (fun a b : K * Z => snd b <= snd a) (order_by count_desc selected).
Proof.
  eapply StronglySorted_impl;
    [|apply (order_by_strongly_sorted count_desc count_desc_total count_desc_trans)].
  intros a b. unfold count_desc. apply Z.leb_le.
Qed.

Lemma report_unlimited :
  count_report key_eqb key having None rows (order_by count_desc selected).
Proof.
  split; [apply selected_NoDup|]. split; [intros k n; apply selected_In|].
  split; [apply selected_sorted|]. split; [|exact I].
  intros k Hn Hh. left. apply selected_In. auto.
Qed.

Lemma report_limited (limit : nat) :
  count_report key_eqb key having (Some limit) rows
    (firstn limit (order_by count_desc selected)).
Proof.
  destruct (StronglySorted_firstn_skipn _ limit _ selected_sorted) as (Hf & Hfs).
  split; [|split; [|split; [|split]]].
  - rewrite <- firstn_map. apply NoDup_firstn, selected_NoDup.
  - intros k n Hin. apply selected_In. eapply firstn_In, Hin.
  - exact Hf.
  - intros k Hn Hh.
    assert (Hin : In (k, occurrences key_eqb key k rows) (order_by count_desc selected))
      by (apply selected_In; auto).
    rewrite <- (firstn_skipn limit (order_by count_desc selected)) in Hin.
    apply in_app_or in Hin. destruct Hin as [Hin|Hin]; [left; exact Hin|].
    right. split.
    + f_equal. rewrite length_firstn.
      assert (List.length (skipn limit (order_by count_desc selected)) <> 0)%nat.
      { destruct (skipn limit (order_by count_desc selected)); [destruct Hin|].
        simpl. lia. }
      rewrite length_skipn in H. lia.
    + intros x Hx. exact (Hfs x _ Hx Hin).
  - apply firstn_le_length.
Qed.

End CountReports.

Lemma option_eqb_eq {A : Type} (eqb : A -> A -> bool) :
  (forall a b, eqb a b = true <-> a = b) ->
  forall a b, option_eqb eqb a b = true <-> a = b.
Proof.
  intros H [x|] [y|]; simpl; try (split; congruence).
  rewrite H. split; congruence.
Qed.

(** The duplicated-hash query reports the hashes met in more than one row
    of the unified view, each with its number of rows, greatest numbers
    first, at most ten of them; a duplicated hash is left out only when ten
    hashes with at least as many rows are reported. *)
Theorem duplicated_hashes_report (df : list UnifiedRow) :
  count_report String.eqb transaction_hash (fun n => 1 <? n) (Some 10%nat) df
    (duplicated_transaction_hash df).
Proof.
  apply (report_limited String.eqb transaction_hash String.eqb_eq (fun n => 1 <? n) df 10).
Qed.

(** The activity-peak queries report timestamps of their view, each with
    its number of rows, greatest numbers first, at most ten of them; a
    timestamp is left out only when ten timestamps with at least as many
    rows are reported. *)
Theorem activity_peaks_report (df df_clean : list UnifiedRow) :
  count_report Z.eqb timestamp (fun _ => true) (Some 10%nat) df
    (activity_peaks_top_10 df)
  /\ count_report Z.eqb timestamp (fun _ => true) (Some 10%nat) df_clean
       (log_activity_peaks_top_10 df_clean).
Proof.
  unfold activity_peaks_top_10, log_activity_peaks_top_10. split.
  - rewrite <- (filter_true (group_count Z.eqb timestamp df)).
    apply (report_limited Z.eqb timestamp Z.eqb_eq (fun _ => true) df 10).
  - rewrite <- (filter_true (group_count Z.eqb timestamp df_clean)).
    apply (report_limited Z.eqb timestamp Z.eqb_eq (fun _ => true) df_clean 10).
Qed.

(** The frequent-address queries of the unified view report the senders,
    and separately the receivers (a missing receiver being one more key),
    met in more than one row, each with its number of rows, greatest
    numbers first, at most ten of them. *)
Theorem address_frequency_report (df : list UnifiedRow) :
  count_report String.eqb tx_from_address (fun n => 1 <? n) (Some 10%nat) df
    (from_address_freq df)
  /\ count_report (option_eqb String.eqb) tx_to_address (fun n => 1 <? n)
       (Some 10%nat) df (to_address_freq df).
Proof.
  split.
  - apply (report_limited String.eqb tx_from_address String.eqb_eq
             (fun n => 1 <? n) df 10).
  - apply (report_limited (option_eqb String.eqb) tx_to_address
             (option_eqb_eq String.eqb String.eqb_eq) (fun n => 1 <? n) df 10).
Qed.

(** The frequent-address queries of the token-only view report the token
    senders, and separately the token receivers, met in more than one row,
    each with its number of rows, greatest numbers first, at most ten of
    them. *)
Theorem token_address_frequency_report (df_clean : list UnifiedRow) :
  count_report (option_eqb String.eqb) log_from_address (fun n => 1 <? n)
    (Some 10%nat) df_clean (log_from_address_freq df_clean)
  /\ count_report (option_eqb String.eqb) log_to_address (fun n => 1 <? n)
       (Some 10%nat) df_clean (log_to_address_freq df_clean).
Proof.
  split.
  - apply (report_limited (option_eqb String.eqb) log_from_address
             (option_eqb_eq String.eqb String.eqb_eq) (fun n => 1 <? n) df_clean 10).
  - apply (report_limited (option_eqb String.eqb) log_to_address
             (option_eqb_eq String.eqb String.eqb_eq) (fun n => 1 <? n) df_clean 10).
Qed.

Lemma occurrences_filter {A K : Type} (key_eqb : K -> K -> bool) (key : A -> K)
    (q : K -> bool) (k : K) (rows : list A) :
  (forall a b, key_eqb a b = true <-> a = b) ->
  occurrences key_eqb key k (filter (fun r => q (key r)) rows)
  = if q k then occurrences key_eqb key k rows else 0.
Proof.
  intros Heq. unfold occurrences.
  assert (H : filter (fun r => key_eqb (key r) k) (filter (fun r => q (key r)) rows)
              = if q k then filter (fun r => key_eqb (key r) k) rows else []).
  { induction rows as [|r rows IH]; simpl; [destruct (q k); reflexivity|].
    destruct (key_eqb (key r) k) eqn:Hk.
    - apply Heq in Hk. rewrite Hk. destruct (q k) eqn:Hq; simpl.
      + rewrite Hk, (proj2 (Heq k k) eq_refl), IH. reflexivity.
      + exact IH.
    - destruct (q (key r)); simpl; rewrite ?Hk, IH; reflexivity. }
  rewrite H. destruct (q k); reflexivity.
Qed.

Lemma in_mixers (s : string) : existsb (String.eqb s) mixers = true <-> In s mixers.
Proof.
  rewrite existsb_exists. split.
  - intros (x & Hx & Heq). apply String.eqb_eq in Heq. now subst.
  - intros H. exists s. split; [exact H | apply String.eqb_refl].
Qed.

(** The watch-list queries report exactly the addresses of the watch list
    that occur (spelled as in the list) as sender, respectively as
    receiver, of some row of the unified view, each with the number of such
    rows, greatest numbers first; a report has at most five lines, and a
    row without receiver is never counted. *)
Theorem watch_list_report (df : list UnifiedRow) :
  (NoDup (map fst (mixers_use_from df))
   /\ (forall k n,
          In (k, n) (mixers_use_from df)
          <-> In k mixers /\ n = occurrences String.eqb tx_from_address k df /\ 1 <= n)
   /\ StronglySorted (fun a b => snd b <= snd a) (mixers_use_from df)
   /\ (List.length (mixers_use_from df) <= 5)%nat)
  /\ (NoDup (map fst (mixers_use_to df))
      /\ (forall k n,
             In (k, n) (mixers_use_to df)
             <-> (exists a, k = Some a /\ In a mixers)
                 /\ n = occurrences (option_eqb String.eqb) tx_to_address k df
                 /\ 1 <= n)
      /\ StronglySorted (fun a b => snd b <= snd a) (mixers_use_to df)
      /\ (List.length (mixers_use_to df) <= 5)%nat).
Proof.
  split.
  - unfold mixers_use_from.
    set (rows := where_ (fun r => sql_in (Some (tx_from_address r)) mixers) df).
    rewrite <- (filter_true (group_count String.eqb tx_from_address rows)).
    assert (Hin : forall k n,
               In (k, n) (order_by count_desc
                            (filter (fun g : string * Z => (fun _ => true) (snd g))
                                    (group_count String.eqb tx_from_address rows)))
               <-> In k mixers
                   /\ n = occurrences String.eqb tx_from_address k df /\ 1 <= n).
    { intros k n.
      rewrite (selected_In String.eqb tx_from_address String.eqb_eq (fun _ => true) rows).
      unfold rows, where_.
      rewrite (occurrences_filter String.eqb tx_from_address
                 (fun a => match sql_in (Some a) mixers with
                           | Some true => true
                           | _ => false
                           end) k df String.eqb_eq).
      cbn [sql_in option_map].
      destruct (existsb (String.eqb k) mixers) eqn:Hk.
      - apply in_mixers in Hk. tauto.
      - assert (~ In k mixers) by (rewrite <- in_mixers; congruence).
        split; [intros (-> & H1 & _); lia | tauto]. }
    pose proof (selected_NoDup String.eqb tx_from_address String.eqb_eq
                  (fun _ => true) rows) as Hnd.
    split; [exact Hnd|]. split; [exact Hin|].
    split; [apply (selected_sorted String.eqb tx_from_address (fun _ => true) rows)|].
    rewrite <- (length_map fst). change 5%nat with (List.length mixers).
    apply NoDup_incl_length; [exact Hnd|].
    intros k Hk. apply in_map_iff in Hk. destruct Hk as ((k', n) & <- & Hkn).
    apply Hin in Hkn. tauto.
  - unfold mixers_use_to.
    set (rows := where_ (fun r => sql_in (tx_to_address r) mixers) df).
    rewrite <- (filter_true (group_count (option_eqb String.eqb) tx_to_address rows)).
    pose proof (option_eqb_eq String.eqb String.eqb_eq) as Heq.
    assert (Hin : forall k n,
               In (k, n) (order_by count_desc
                            (filter (fun g : option string * Z => (fun _ => true) (snd g))
                                    (group_count (option_eqb String.eqb)
                                                 tx_to_address rows)))
               <-> (exists a, k = Some a /\ In a mixers)
                   /\ n = occurrences (option_eqb String.eqb) tx_to_address k df
                   /\ 1 <= n).
    { intros k n.
      rewrite (selected_In (option_eqb String.eqb) tx_to_address Heq (fun _ => true) rows).
      unfold rows, where_.
      rewrite (occurrences_filter (option_eqb String.eqb) tx_to_address
                 (fun a => match sql_in a mixers with Some true => true | _ => false end)
                 k df Heq).
      destruct k as [a|]; cbn [sql_in option_map].
      - destruct (existsb (String.eqb a) mixers) eqn:Hk.
        + apply in_mixers in Hk. split; [|tauto]. intros H. split; [eauto | tauto].
        + assert (~ In a mixers) by (rewrite <- in_mixers; congruence).
          split; [intros (-> & H1 & _); lia|].
          intros ((a' & Ha & Hm) & _). congruence.
      - split; [intros (-> & H1 & _); lia|].
        intros ((a' & Ha & _) & _). discriminate. }
    pose proof (selected_NoDup (option_eqb String.eqb) tx_to_address Heq
                  (fun _ => true) rows) as Hnd.
    split; [exact Hnd|]. split; [exact Hin|].
    split; [apply (selected_sorted (option_eqb String.eqb) tx_to_address
                     (fun _ => true) rows)|].
    rewrite <- (length_map fst). change 5%nat with (List.length (map Some mixers)).
    apply NoDup_incl_length; [exact Hnd|].
    intros k Hk. apply in_map_iff in Hk. destruct Hk as ((k', n) & <- & Hkn).
    apply Hin in Hkn. destruct Hkn as ((a & -> & Ha) & _).
    cbn [fst]. apply in_map, Ha.
Qed.

(* ================================================================== *)
(** * Properties of the ranking queries *)
(* ================================================================== *)

Lemma top_rows {A : Type} (before : A -> A -> bool) (limit : nat) (l : list A) :
  (forall a b, before a b = false -> before b a = true) ->
  (forall a b c, before a b = true -> before b c = true -> before a c = true) ->
  List.length (firstn limit (order_by before l)) = Nat.min limit (List.length l)
  /\ (exists rest,
         Permutation (firstn limit (order_by before l) ++ rest) l
         /\ forall x y, In x (firstn limit (order_by before l)) -> In y rest ->
                        before x y = true)
  /\ StronglySorted (fun x y => before x y = true) (firstn limit (order_by before l)).
Proof.
  intros Htotal Htrans.
  pose proof (order_by_strongly_sorted before Htotal Htrans l) as Hs.
  destruct (StronglySorted_firstn_skipn _ limit _ Hs) as (Hf & Hfs).
  split; [|split; [|exact Hf]].
  - rewrite length_firstn. f_equal. apply Permutation_length, order_by_perm.
  - exists (skipn limit (order_by before l)). split; [|exact Hfs].
    rewrite firstn_skipn. apply order_by_perm.
Qed.

(** The gas-fee ranking returns the first ten rows (all of them when there
    are fewer) of the unified view sorted by [tx_gas_fee_eth] descending:
    every returned row has a fee at least that of every row left out, and
    the returned rows are in descending order; [tx_gas_fee_eth] is the gas
    fee of the transaction rounded to twelve decimals by the join. *)
Theorem gas_fee_ranking :
  (forall df,
      gas_fee_top_10 df
      = map (fun r => (transaction_hash r, tx_value_eth r, tx_gas_price_eth r,
                       tx_gas_used r, tx_gas_fee_eth r)) (gas_fee_top_10_rows df)
      /\ List.length (gas_fee_top_10_rows df) = Nat.min 10 (List.length df)
      /\ (exists rest,
             Permutation (gas_fee_top_10_rows df ++ rest) df
             /\ forall r r', In r (gas_fee_top_10_rows df) -> In r' rest ->
                  double_compare (tx_gas_fee_eth r) (tx_gas_fee_eth r') <> Lt)
      /\ StronglySorted
           (fun a b => double_compare (tx_gas_fee_eth a) (tx_gas_fee_eth b) <> Lt)
           (gas_fee_top_10_rows df))
  /\ (forall ROUND local_timestamp transactions logs_tether r,
         In r (df_transactions_complete ROUND local_timestamp transactions logs_tether) ->
         exists t, In t transactions /\ tx_gas_fee_eth r = ROUND (t_gas_fee t) 12).
Proof.
  split.
  - intros df. unfold gas_fee_top_10_rows.
    destruct (top_rows (desc tx_gas_fee_eth) 10 df
                (desc_total tx_gas_fee_eth) (desc_trans tx_gas_fee_eth))
      as (Hlen & (rest & Hperm & Hrest) & Hs).
    split; [reflexivity|]. split; [exact Hlen|]. split.
    + exists rest. split; [exact Hperm|].
      intros r r' Hr Hr'. apply desc_true. exact (Hrest r r' Hr Hr').
    + eapply StronglySorted_impl; [|exact Hs]. intros a b. apply desc_true.
  - intros ROUND local_timestamp transactions logs_tether r Hr.
    apply join_In in Hr. destruct Hr as (t & Ht & Hr). exists t. split; [exact Ht|].
    apply join_rows_fields in Hr. destruct Hr as [->|(l & _ & _ & ->)]; reflexivity.
Qed.

Lemma gas_fee_ranking_witness :
  exists t, In t eleven_transactions
            /\ tx_gas_fee_eth (select_unified half_up_ROUND cet_timestamp record_b None)
               = half_up_ROUND (t_gas_fee t) 12.
Proof.
  destruct gas_fee_ranking as (_ & Hkey).
  apply (Hkey half_up_ROUND cet_timestamp eleven_transactions [] _).
  vm_compute. tauto.
Defined.

Lemma usdt_desc_total (a b : UnifiedRow) :
  usdt_desc a b = false -> usdt_desc b a = true.
Proof.
  unfold usdt_desc.
  destruct (log_value_usdt a) as [x|], (log_value_usdt b) as [y|];
    try discriminate; try reflexivity.
  intros H. apply Qle_bool_iff.
  destruct (Qlt_le_dec (Decimal_to_Q y) (Decimal_to_Q x)) as [Hlt|Hle].
  - apply Qlt_le_weak in Hlt. apply Qle_bool_iff in Hlt. congruence.
  - exact Hle.
Qed.

Lemma usdt_desc_trans (a b c : UnifiedRow) :
  usdt_desc a b = true -> usdt_desc b c = true -> usdt_desc a c = true.
Proof.
  unfold usdt_desc.
  destruct (log_value_usdt a) as [x|], (log_value_usdt b) as [y|],
    (log_value_usdt c) as [z|]; try discriminate; try reflexivity.
  rewrite !Qle_bool_iff. intros H1 H2. eapply Qle_trans; eauto.
Qed.

(** The token-value ranking returns the first ten rows (all of them when
    there are fewer) of the token-only view sorted by token value
    descending, rows without token value last: every returned row ranks at
    least as high as every row left out, the returned rows are in that
    order, and between two rows that have a token value the order is the
    numeric order of the values. *)
Theorem token_value_ranking (df_clean : list UnifiedRow) :
  log_value_top_10 df_clean
  = map (fun r => (block_number r, timestamp r, transaction_hash r,
                   log_from_address r, log_to_address r, log_value_usdt r))
        (log_value_top_10_rows df_clean)
  /\ List.length (log_value_top_10_rows df_clean) = Nat.min 10 (List.length df_clean)
  /\ (exists rest,
         Permutation (log_value_top_10_rows df_clean ++ rest) df_clean
         /\ forall r r', In r (log_value_top_10_rows df_clean) -> In r' rest ->
                         usdt_desc r r' = true)
  /\ StronglySorted (fun a b => usdt_desc a b = true) (log_value_top_10_rows df_clean)
  /\ (forall r r' x y,
         log_value_usdt r = Some x -> log_value_usdt r' = Some y ->
         (usdt_desc r r' = true <-> Qle (Decimal_to_Q y) (Decimal_to_Q x)))
  /\ (forall r r',
         log_value_usdt r = None -> usdt_desc r r' = true -> log_value_usdt r' = None).
Proof.
  unfold log_value_top_10_rows.
  destruct (top_rows usdt_desc 10 df_clean usdt_desc_total usdt_desc_trans)
    as (Hlen & Hrest & Hs).
  split; [reflexivity|]. split; [exact Hlen|]. split; [exact Hrest|].
  split; [exact Hs|]. split.
  - intros r r' x y Hx Hy. unfold usdt_desc. rewrite Hx, Hy. apply Qle_bool_iff.
  - intros r r' Hx. unfold usdt_desc. rewrite Hx.
    destruct (log_value_usdt r'); [discriminate | reflexivity].
Qed.

(* ================================================================== *)
(** * Further properties of the time between blocks *)
(* ================================================================== *)

Lemma gaps_sum_from (gs : list GroupedRow) :
  forall (p : Z) (g0 : GroupedRow),
    Zsum (map (fun gp : GroupedRow * option Z =>
                 coalesce_diff (g_unix_timestamp (fst gp)) (snd gp))
              (combine gs (lag (Some p) (map g_unix_timestamp gs))))
    = match gs with
      | [] => 0
      | _ => g_unix_timestamp (last gs g0) - p
      end.
Proof.
  induction gs as [|g gs IH]; intros p g0; [reflexivity|].
  cbn [map lag combine Zsum fold_right fst snd coalesce_diff].
  change (fold_right Z.add 0 ?l) with (Zsum l).
  rewrite (IH (g_unix_timestamp g) g0).
  destruct gs as [|g' gs]; [simpl; lia|].
  change (last (g :: g' :: gs) g0) with (last (g' :: gs) g0). lia.
Qed.

Lemma time_between_blocks_eq (df : list UnifiedRow) :
  time_between_blocks df
  = map (fun gp : GroupedRow * option Z =>
           mkBlockTime (g_block_number (fst gp)) (g_timestamp (fst gp))
             (g_unix_timestamp (fst gp)) (snd gp)
             (coalesce_diff (g_unix_timestamp (fst gp)) (snd gp)))
        (combine (grouped_data df)
                 (lag None (map g_unix_timestamp (grouped_data df)))).
Proof.
  unfold time_between_blocks, timediff_data. rewrite window_order.
  apply map_ext. intros [g p]. reflexivity.
Qed.

(** The gaps reported for a view add up to the time between its first and
    its last block: the sum of [time_diff_in_seconds] is the epoch timestamp
    of the last line minus the one of the first line. The first line, whose
    gap is 0, is never among the monitored ones. *)
Theorem gaps_add_up (df : list UnifiedRow) :
  Zsum (map time_diff_in_seconds (time_between_blocks df))
  = match time_between_blocks df with
    | [] => 0
    | first :: others =>
        bt_unix_timestamp (last others first) - bt_unix_timestamp first
    end
  /\ block_times_monitoring_rows (time_between_blocks df)
     = block_times_monitoring_rows (tl (time_between_blocks df)).
Proof.
  rewrite time_between_blocks_eq.
  destruct (grouped_data df) as [|g gs]; [split; reflexivity|].
  cbn [map lag combine fst snd coalesce_diff tl]. split.
  - cbn [Zsum fold_right time_diff_in_seconds bt_unix_timestamp].
    change (fold_right Z.add 0 ?l) with (Zsum l). rewrite map_map.
    cbn [time_diff_in_seconds].
    rewrite (gaps_sum_from gs (g_unix_timestamp g) g).
    destruct gs as [|g' gs]; [simpl; lia|].
    set (f := fun gp : GroupedRow * option Z =>
                mkBlockTime (g_block_number (fst gp)) (g_timestamp (fst gp))
                  (g_unix_timestamp (fst gp)) (snd gp)
                  (coalesce_diff (g_unix_timestamp (fst gp)) (snd gp))).
    assert (Hlast : forall (l : list GroupedRow) (p : option Z) (d : BlockTime)
                           (d' : GroupedRow),
               l <> [] ->
               bt_unix_timestamp
                 (last (map f (combine l (lag p (map g_unix_timestamp l)))) d)
               = g_unix_timestamp (last l d')).
    { induction l as [|x l IHl]; intros p d d' Hne; [congruence|].
      destruct l as [|x' l]; [reflexivity|].
      change (last (x :: x' :: l) d') with (last (x' :: l) d').
      rewrite <- (IHl (Some (g_unix_timestamp x)) d d') by discriminate.
      reflexivity. }
    rewrite (Hlast (g' :: gs) (Some (g_unix_timestamp g)) _ g) by discriminate.
    lia.
  - unfold block_times_monitoring_rows. reflexivity.
Qed.

(* ================================================================== *)
(** * Further properties of a run *)
(* ================================================================== *)

Lemma range_length (a b : Z) : List.length (range a b) = Z.to_nat (b - a).
Proof.
  unfold range. now rewrite length_map, length_seq.
Qed.

Section Run.

Variable ROUND : float -> Z -> float.
Variable local_timestamp : Z -> Z.

(** A run that succeeds has read the ten blocks ending at the latest block
    reported by the client, each of them completely; its transaction
    records are the extraction of that window, so each one belongs to a
    block of the window, and its transfer records are the log extraction
    of the same window. *)
Theorem run_covers_last_ten_blocks (w3 : Web3) (report : Report) :
  run ROUND local_timestamp w3 = Ok report ->
  exists latest,
    eth_block_number (eth w3) = Ok latest
    /\ List.length (range (latest - 9) (latest + 1)) = 10%nat
    /\ get_transactions w3 (latest - 9) latest = Ok (rep_transactions report)
    /\ get_logs_tether w3 (latest - 9) latest = Ok (rep_logs_tether report)
    /\ (forall n, latest - 9 <= n <= latest -> block_extracted w3 n)
    /\ (forall r, In r (rep_transactions report) ->
                  latest - 9 <= t_block_number r <= latest).
Proof.
  intros H. unfold run in H.
  apply bind_ok in H. destruct H as (latest & Hlatest & H).
  apply bind_ok in H. destruct H as (txs & Htxs & H).
  apply bind_ok in H. destruct H as (logs & Hlogs & H).
  injection H as <-. simpl. exists latest.
  split; [exact Hlatest|]. split; [rewrite range_length; lia|].
  split; [exact Htxs|]. split; [exact Hlogs|].
  unfold get_transactions in Htxs. apply blocks_loop_ok in Htxs.
  destruct Htxs as (Hext & recs & Heq & Hrecs). simpl in Heq. subst recs. split.
  - intros n Hn. apply Hext, range_In. lia.
  - intros r Hr. destruct (Hrecs r Hr) as (m & block & tx & Hm & _ & _ & Hrec).
    apply range_In in Hm.
    destruct (transaction_record_columns _ _ _ _ _ Hrec) as (Hc & _).
    unfold chain_columns, expected_columns in Hc. injection Hc as -> _ _ _ _.
    simpl. lia.
Qed.

(** A run fails in exactly three ways, tried in this order: the latest
    block number cannot be read, and the client's error comes out as it
    is; the transaction extraction raises; or it succeeds and the log
    extraction raises. In each case the error of that step is the outcome
    of the run and no report is produced. *)
Theorem run_fails_with_first_error (w3 : Web3) (k : string) :
  run ROUND local_timestamp w3 = Raise k
  <-> eth_block_number (eth w3) = Raise k
      \/ (exists latest,
             eth_block_number (eth w3) = Ok latest
             /\ (get_transactions w3 (latest - 9) latest = Raise k
                 \/ (exists txs,
                        get_transactions w3 (latest - 9) latest = Ok txs
                        /\ get_logs_tether w3 (latest - 9) latest = Raise k))).
Proof.
  unfold run.
  destruct (eth_block_number (eth w3)) as [latest|e] eqn:Hb; simpl.
  - destruct (get_transactions w3 (latest - 9) latest) as [txs|e] eqn:Ht; simpl.
    + destruct (get_logs_tether w3 (latest - 9) latest) as [logs|e] eqn:Hl; simpl.
      * split; [discriminate|].
        intros [H|(l & Hlatest & H)]; [discriminate|].
        injection Hlatest as <-. rewrite Ht, Hl in H.
        destruct H as [H|(t & _ & H)]; discriminate.
      * split.
        -- intros H. right. exists latest. split; [reflexivity|]. right.
           exists txs. split; [exact Ht | congruence].
        -- intros [H|(l & Hlatest & H)]; [discriminate|].
           injection Hlatest as <-. rewrite Ht, Hl in H.
           destruct H as [H|(t & _ & H)]; [discriminate | congruence].
    + split.
      * intros H. right. exists latest. split; [reflexivity|]. left. congruence.
      * intros [H|(l & Hlatest & H)]; [discriminate|].
        injection Hlatest as <-. rewrite Ht in H.
        destruct H as [H|(t & H & _)]; [congruence | discriminate].
  - split.
    + intros H. left. congruence.
    + intros [H|(l & Hl & _)]; [congruence | discriminate].
Qed.

End Run.

Lemma run_covers_last_ten_blocks_witness :
  exists report latest,
    run half_up_ROUND cet_timestamp (mkWeb3 false eth_window) = Ok report
    /\ eth_block_number eth_window = Ok latest
    /\ forall r, In r (rep_transactions report) -> latest - 9 <= t_block_number r <= latest.
Proof.
  destruct (run half_up_ROUND cet_timestamp (mkWeb3 false eth_window)) as [report|k] eqn:H.
  - destruct (run_covers_last_ten_blocks half_up_ROUND cet_timestamp _ report H)
      as (latest & Hl & _ & _ & _ & _ & Hr).
    exists report, latest. auto.
  - vm_compute in H. discriminate.
Defined.
